(** * Verification of the chunking, embedding, retrieval and sentiment code
      of the earnings summarizer

    The development embeds [src/src/rag_service.py] (class
    [PostgresRAGService]) and [src/earnings_summarizer.py] (method
    [EarningsSummarizer.determine_outlook_sentiment]) together with the
    keyword tables of [src/config/settings.py].

    Conventions of the embedding:
    - Python [str] values are Rocq strings.  The character predicates
      ([str.isspace], [str.lower], [str.title]) are the ASCII ones; a
      character above 127 is neither a space nor a cased letter.
    - Python [int] values are [Z]; list positions become [nat] only inside
      [firstn]/[skipn].
    - A Python call that may raise returns a [result]; the SQL session is a
      pair (committed store, working store) threaded by a small monad.
    - Floats that are only compared (similarity scores) are the rationals
      they denote. *)

From Stdlib Require Import String Ascii.
From Stdlib Require Import List ZArith QArith Lia Bool Arith.
From Stdlib Require Import Sorted Permutation DecimalString.
Import ListNotations.

Open Scope string_scope.
Open Scope list_scope.
Open Scope nat_scope.

(* ================================================================== *)
(** * Python primitives used by the source *)
(* ================================================================== *)

Module Py.

(** Exceptions the modelled code can meet. *)
Inductive exn : Type :=
| ValueError
| IndexError
| AttributeError
| RuntimeError.

Inductive result (A : Type) : Type :=
| Ok (a : A)
| Raise (e : exn).
Arguments Ok {A} a.
Arguments Raise {A} e.

(** [str.isspace] on ASCII: TAB, LF, VT, FF, CR, FS, GS, RS, US, SPACE. *)
Definition is_space (c : ascii) : bool :=
  let n := nat_of_ascii c in
  (((9 <=? n) && (n <=? 13)) || ((28 <=? n) && (n <=? 32)))%nat.

Definition starts_word (s : string) : bool :=
  match s with
  | EmptyString => false
  | String c _ => negb (is_space c)
  end.

(** [str.split()] without argument: maximal runs of non-space characters. *)
Fixpoint split (s : string) : list string :=
  match s with
  | EmptyString => []
  | String c s' =>
      if is_space c then split s'
      else if starts_word s' then
             match split s' with
             | w :: ws => String c w :: ws
             | [] => [String c EmptyString]
             end
           else String c EmptyString :: split s'
  end.

(** [sep.join(ws)]. *)
Definition join (sep : string) (ws : list string) : string :=
  String.concat sep ws.

(** Truthiness of a [str]. *)
Definition truthy (s : string) : bool :=
  match s with
  | EmptyString => false
  | String _ _ => true
  end.

(** Truthiness of an optional [str] (a nullable text column). *)
Definition truthy_opt (o : option string) : bool :=
  match o with
  | None => false
  | Some s => truthy s
  end.

(** Slice bound normalisation: a negative bound counts from the end, and
    every bound is clamped to [0, len]. *)
Definition clamp_index (len i : Z) : Z :=
  if (i <? 0)%Z then Z.max 0 (i + len) else Z.min i len.

(** [l[a:b]]. *)
Definition py_slice {A : Type} (l : list A) (a b : Z) : list A :=
  let n := Z.of_nat (length l) in
  let lo := clamp_index n a in
  let hi := clamp_index n b in
  firstn (Z.to_nat (hi - lo)) (skipn (Z.to_nat lo) l).

(** Number of elements of [range(0, stop, step)] for [step <> 0]. *)
Definition range_len (stop step : Z) : Z :=
  if (0 <? step)%Z
  then (if (0 <? stop)%Z then (stop - 1) / step + 1 else 0)%Z
  else (if (stop <? 0)%Z then (0 - stop - 1) / (- step) + 1 else 0)%Z.

(** [range(0, stop, step)]; a zero step raises [ValueError]. *)
Definition py_range (stop step : Z) : result (list Z) :=
  if (step =? 0)%Z then Raise ValueError
  else Ok (map (fun k => (Z.of_nat k * step)%Z)
               (seq 0 (Z.to_nat (range_len stop step)))).

(** [len(l)] as a Python integer. *)
Definition len {A : Type} (l : list A) : Z := Z.of_nat (length l).

(** [enumerate(l)], counting from [start]. *)
Fixpoint enumerate_from {A : Type} (start : Z) (l : list A) : list (Z * A) :=
  match l with
  | [] => []
  | x :: l' => (start, x) :: enumerate_from (start + 1) l'
  end.

Definition enumerate {A : Type} (l : list A) : list (Z * A) :=
  enumerate_from 0 l.

(** A word in the sense of [split]: non-empty and free of spaces. *)
Fixpoint no_space (s : string) : Prop :=
  match s with
  | EmptyString => True
  | String c s' => is_space c = false /\ no_space s'
  end.

Definition is_word (w : string) : Prop := w <> EmptyString /\ no_space w.

End Py.

Import Py.

(* ================================================================== *)
(** * [PostgresRAGService.chunk_text]  (rag_service.py, lines 31-48) *)
(* ================================================================== *)

Module Chunker.

(** The body of the [for i in range(...)] loop, with its [break]. *)
Fixpoint chunk_loop (words : list string) (max_chunk_size : Z)
         (indices : list Z) : list string :=
  match indices with
  | [] => []
  | i :: rest =>
      let chunk_words := py_slice words i (i + max_chunk_size) in
      let chunk := join " " chunk_words in
      if (i + max_chunk_size >=? len words)%Z
      then [chunk]
      else chunk :: chunk_loop words max_chunk_size rest
  end.

Definition chunk_text (text : string) (max_chunk_size overlap : Z)
  : result (list string) :=
  if negb (truthy text) then Ok []
  else
    let words := split text in
    match py_range (len words) (max_chunk_size - overlap) with
    | Raise e => Raise e
    | Ok indices => Ok (chunk_loop words max_chunk_size indices)
    end.

(** The same loop on token lists, before the chunks are joined. *)
Fixpoint window_loop (words : list string) (max_chunk_size : Z)
         (indices : list Z) : list (list string) :=
  match indices with
  | [] => []
  | i :: rest =>
      let chunk_words := py_slice words i (i + max_chunk_size) in
      if (i + max_chunk_size >=? len words)%Z
      then [chunk_words]
      else chunk_words :: window_loop words max_chunk_size rest
  end.

(** What the reconstruction property keeps of a chunk sequence: the first
    chunk whole, every later chunk without its first [overlap] tokens. *)
Definition drop_overlaps (overlap : Z) (chunks : list (list string))
  : list string :=
  match chunks with
  | [] => []
  | first :: later =>
      first ++ concat (map (skipn (Z.to_nat overlap)) later)
  end.

End Chunker.

Import Chunker.

(* ================================================================== *)
(** * The persisted store and the SQL session  (config/database.py) *)
(* ================================================================== *)

Module Store.

Section WithVectors.

(** Embedding vectors ([Vector(384)] columns, numpy arrays). *)
Variable vec : Type.

(** Rows of [earnings_calls]; the columns the modelled code reads. *)
Record EarningsCall : Type := mkEarningsCall {
  ec_id : Z;
  ec_company_symbol : string;
  ec_quarter : string;
  ec_year : Z;
  ec_call_date : option string;
  ec_raw_transcript : option string
}.

(** Rows of [summaries]. *)
Record Summary : Type := mkSummary {
  sm_earnings_call_id : Z;
  sm_summary_type : option string;
  sm_content : option string
}.

(** Rows of [financial_news]. *)
Record FinancialNews : Type := mkFinancialNews {
  fn_id : Z;
  fn_symbol : string;
  fn_title : string;
  fn_content : option string;
  fn_publisher : option string;
  fn_published_date : option string;
  fn_url : option string
}.

(** Rows of [document_chunks]; the surrogate key and [created_at] are
    assigned by the database and read by none of the modelled code. *)
Record DocumentChunk : Type := mkDocumentChunk {
  dc_earnings_call_id : Z;
  dc_chunk_text : string;
  dc_chunk_index : Z;
  dc_chunk_type : string;
  dc_embedding : vec
}.

(** Rows of [news_chunks]. *)
Record NewsChunk : Type := mkNewsChunk {
  nc_news_id : Z;
  nc_chunk_text : string;
  nc_chunk_index : Z;
  nc_embedding : vec
}.

(** The database: one list of rows per table, in insertion order. *)
Record Db : Type := mkDb {
  earnings_calls : list EarningsCall;
  summaries : list Summary;
  financial_news : list FinancialNews;
  document_chunks : list DocumentChunk;
  news_chunks : list NewsChunk
}.

(** An open SQLAlchemy session: what is committed, and the transaction's
    own view with its uncommitted inserts and deletes. *)
Record Session : Type := mkSession {
  committed : Db;
  working : Db
}.

(** Session computations that may raise. *)
Definition M (A : Type) : Type := Session -> Session * result A.

Definition ret {A : Type} (a : A) : M A := fun s => (s, Ok a).

Definition bind {A B : Type} (m : M A) (f : A -> M B) : M B :=
  fun s =>
    match m s with
    | (s', Ok a) => f a s'
    | (s', Raise e) => (s', Raise e)
    end.

(** A pure call that may raise. *)
Definition lift {A : Type} (r : result A) : M A := fun s => (s, r).

(** [try: m  except Exception as e: h e]. *)
Definition try_except {A : Type} (m : M A) (h : exn -> M A) : M A :=
  fun s =>
    match m s with
    | (s', Ok a) => (s', Ok a)
    | (s', Raise e) => h e s'
    end.

(** A [for] loop that updates one local variable. *)
Fixpoint for_each {A B : Type} (l : list A) (body : B -> A -> M B) (acc : B)
  : M B :=
  match l with
  | [] => ret acc
  | x :: l' => bind (body acc x) (fun acc' => for_each l' body acc')
  end.

(** [db.commit()]. *)
Definition db_commit : M unit :=
  fun s => ({| committed := working s; working := working s |}, Ok tt).

(** [db.rollback()]. *)
Definition db_rollback : M unit :=
  fun s => ({| committed := committed s; working := committed s |}, Ok tt).

Definition update_working (f : Db -> Db) : M unit :=
  fun s => ({| committed := committed s; working := f (working s) |}, Ok tt).

(** [db.query(EarningsCall).filter(EarningsCall.id == id).first()]. *)
Definition query_earnings_call (id : Z) : M (option EarningsCall) :=
  fun s => (s, Ok (find (fun c => (ec_id c =? id)%Z)
                        (earnings_calls (working s)))).

(** [db.query(FinancialNews).filter(FinancialNews.id == id).first()]. *)
Definition query_news (id : Z) : M (option FinancialNews) :=
  fun s => (s, Ok (find (fun n => (fn_id n =? id)%Z)
                        (financial_news (working s)))).

(** [db.query(Summary).filter(Summary.earnings_call_id == id).all()]. *)
Definition query_summaries (id : Z) : M (list Summary) :=
  fun s => (s, Ok (filter (fun x => (sm_earnings_call_id x =? id)%Z)
                          (summaries (working s)))).

(** The store without the chunks of one earnings call. *)
Definition purge_document_chunks (id : Z) (d : Db) : Db :=
  {| earnings_calls := earnings_calls d;
     summaries := summaries d;
     financial_news := financial_news d;
     document_chunks :=
       filter (fun c => negb (dc_earnings_call_id c =? id)%Z)
              (document_chunks d);
     news_chunks := news_chunks d |}.

(** The store with more rows at the end of [document_chunks]. *)
Definition append_document_chunks (rows : list DocumentChunk) (d : Db) : Db :=
  {| earnings_calls := earnings_calls d;
     summaries := summaries d;
     financial_news := financial_news d;
     document_chunks := document_chunks d ++ rows;
     news_chunks := news_chunks d |}.

(** [db.query(DocumentChunk).filter(... earnings_call_id == id).delete()]. *)
Definition delete_document_chunks (id : Z) : M unit :=
  update_working (purge_document_chunks id).

(** [db.query(NewsChunk).filter(NewsChunk.news_id == id).delete()]. *)
Definition delete_news_chunks (id : Z) : M unit :=
  update_working (fun d =>
    {| earnings_calls := earnings_calls d;
       summaries := summaries d;
       financial_news := financial_news d;
       document_chunks := document_chunks d;
       news_chunks :=
         filter (fun c => negb (nc_news_id c =? id)%Z) (news_chunks d) |}).

(** [db.add(doc_chunk)]. *)
Definition add_document_chunk (c : DocumentChunk) : M unit :=
  update_working (append_document_chunks [c]).

(** [db.add(news_chunk)]. *)
Definition add_news_chunk (c : NewsChunk) : M unit :=
  update_working (fun d =>
    {| earnings_calls := earnings_calls d;
       summaries := summaries d;
       financial_news := financial_news d;
       document_chunks := document_chunks d;
       news_chunks := news_chunks d ++ [c] |}).

End WithVectors.

Arguments ret {vec A} a.
Arguments bind {vec A B} m f.
Arguments lift {vec A} r.
Arguments try_except {vec A} m h.
Arguments for_each {vec A B} l body acc.
Arguments db_commit {vec}.
Arguments db_rollback {vec}.
Arguments query_earnings_call {vec} id.
Arguments query_news {vec} id.
Arguments query_summaries {vec} id.
Arguments delete_document_chunks {vec} id.
Arguments purge_document_chunks {vec} id d.
Arguments append_document_chunks {vec} rows d.
Arguments update_working {vec} f.
Arguments delete_news_chunks {vec} id.
Arguments add_document_chunk {vec} c.
Arguments add_news_chunk {vec} c.
Arguments mkDocumentChunk {vec}.
Arguments mkNewsChunk {vec}.
Arguments mkDb {vec}.
Arguments mkSession {vec}.
Arguments dc_earnings_call_id {vec}.
Arguments dc_chunk_text {vec}.
Arguments dc_chunk_index {vec}.
Arguments dc_chunk_type {vec}.
Arguments dc_embedding {vec}.
Arguments nc_news_id {vec}.
Arguments nc_chunk_text {vec}.
Arguments nc_chunk_index {vec}.
Arguments nc_embedding {vec}.
Arguments earnings_calls {vec}.
Arguments summaries {vec}.
Arguments financial_news {vec}.
Arguments document_chunks {vec}.
Arguments news_chunks {vec}.
Arguments committed {vec}.
Arguments working {vec}.

End Store.

Import Store.

Declare Scope session_scope.
Delimit Scope session_scope with session.
Notation "x <- m ;; k" := (bind m (fun x => k))
  (at level 61, m at next level, right associativity) : session_scope.
Notation "m ;;; k" := (bind m (fun _ => k))
  (at level 61, right associativity) : session_scope.

(* ================================================================== *)
(** * [PostgresRAGService]: the write path  (rag_service.py, 50-183) *)
(* ================================================================== *)

Module Rag.

Section WithVectors.

Variable vec : Type.

(** [self.embedder.encode(texts, show_progress_bar=False)]: one vector per
    text when the model behaves, possibly an exception. *)
Definition Embedder : Type := list string -> result (list vec).

Local Open Scope session_scope.

(** The [for j, (chunk_text, embedding) in enumerate(zip(...))] loop:
    one [db.add] and one [chunks_added += 1] per pair; [base] is what the
    source adds to [j] to form [chunk_index]. *)
Definition store_document_chunks (earnings_call_id base : Z)
           (chunk_type : string) (pairs : list (string * vec))
           (chunks_added : Z) : M vec Z :=
  for_each (enumerate pairs)
    (fun added jp =>
       let '(j, (chunk_text, embedding)) := jp in
       add_document_chunk
         {| dc_earnings_call_id := earnings_call_id;
            dc_chunk_text := chunk_text;
            dc_chunk_index := (base + j)%Z;
            dc_chunk_type := chunk_type;
            dc_embedding := embedding |} ;;;
       ret (added + 1)%Z)
    chunks_added.

(** The rows that loop adds, as a list. *)
Definition chunk_rows (earnings_call_id base : Z) (chunk_type : string)
           (pairs : list (string * vec)) : list (DocumentChunk vec) :=
  map (fun jp : Z * (string * vec) =>
         {| dc_earnings_call_id := earnings_call_id;
            dc_chunk_text := fst (snd jp);
            dc_chunk_index := (base + fst jp)%Z;
            dc_chunk_type := chunk_type;
            dc_embedding := snd (snd jp) |})
      (enumerate pairs).

(** Lines 80-98: the body of the loop over batch starts. *)
Definition embed_batch (encode : Embedder) (earnings_call_id batch_size : Z)
           (transcript_chunks : list string) (chunks_added i : Z) : M vec Z :=
  let batch_chunks := py_slice transcript_chunks i (i + batch_size) in
  embeddings <- lift (encode batch_chunks) ;;
  added' <- store_document_chunks earnings_call_id i "transcript"
              (combine batch_chunks embeddings) chunks_added ;;
  db_commit ;;;
  ret added'.

(** Lines 73-98: the transcript is chunked with the defaults (1000, 100)
    and embedded in batches of ten, one commit per batch. *)
Definition embed_transcript (encode : Embedder) (earnings_call_id : Z)
           (raw_transcript : string) (chunks_added : Z) : M vec Z :=
  transcript_chunks <- lift (chunk_text raw_transcript 1000 100) ;;
  let batch_size := 10%Z in
  indices <- lift (py_range (len transcript_chunks) batch_size) ;;
  for_each indices
    (embed_batch encode earnings_call_id batch_size transcript_chunks)
    chunks_added.

(** [f'summary_{summary.summary_type}']; a NULL type prints as [None]. *)
Definition summary_chunk_type (s : Summary) : string :=
  ("summary_" ++ match sm_summary_type s with
                 | Some t => t
                 | None => "None"
                 end)%string.

(** Lines 105-123: the body of [for summary in summaries]. *)
Definition embed_summary (encode : Embedder) (earnings_call_id : Z)
           (chunks_added : Z) (summary : Summary) : M vec Z :=
  match sm_content summary with
  | Some content =>
      if truthy content then
        summary_chunks <- lift (chunk_text content 500 100) ;;
        embeddings <- lift (encode summary_chunks) ;;
        added' <- store_document_chunks earnings_call_id 0
                    (summary_chunk_type summary)
                    (combine summary_chunks embeddings) chunks_added ;;
        db_commit ;;;
        ret added'
      else ret chunks_added
  | None => ret chunks_added
  end.

(** Lines 72-126: what follows the deletion of the old chunks. *)
Definition embed_earnings_call (encode : Embedder) (earnings_call_id : Z)
           (chunk_transcripts chunk_summaries : bool) (call : EarningsCall)
  : M vec Z :=
  added1 <-
    (if chunk_transcripts && truthy_opt (ec_raw_transcript call)
     then embed_transcript encode earnings_call_id
            (match ec_raw_transcript call with
             | Some t => t
             | None => EmptyString
             end) 0%Z
     else ret 0%Z) ;;
  (if chunk_summaries
   then
     summaries <- query_summaries earnings_call_id ;;
     for_each summaries (embed_summary encode earnings_call_id) added1
   else ret added1).

(** The [try] block of [add_earnings_embeddings]. *)
Definition add_earnings_embeddings_body (encode : Embedder)
           (earnings_call_id : Z) (chunk_transcripts chunk_summaries : bool)
  : M vec Z :=
  earnings_call <- query_earnings_call earnings_call_id ;;
  match earnings_call with
  | None => ret 0%Z
  | Some call =>
      delete_document_chunks earnings_call_id ;;;
      db_commit ;;;
      embed_earnings_call encode earnings_call_id
        chunk_transcripts chunk_summaries call
  end.

(** [db = SessionLocal()] ... [finally: db.close()]: the session starts
    on the committed store and only what was committed survives it. *)
Definition run_session {A : Type} (m : M vec A) (db : Db vec)
  : Db vec * result A :=
  let '(s, r) := m {| committed := db; working := db |} in
  (committed s, r).

Definition add_earnings_embeddings (embedder : option Embedder)
           (earnings_call_id : Z) (chunk_transcripts chunk_summaries : bool)
           (db : Db vec) : Db vec * result Z :=
  match embedder with
  | None => (db, Ok 0%Z)
  | Some encode =>
      run_session
        (try_except
           (add_earnings_embeddings_body encode earnings_call_id
              chunk_transcripts chunk_summaries)
           (fun _ => db_rollback ;;; ret 0%Z))
        db
  end.

(** The [for i, (chunk_text, embedding) in enumerate(zip(...))] loop of
    [add_news_embeddings]. *)
Definition store_news_chunks (news_id : Z) (pairs : list (string * vec))
           (chunks_added : Z) : M vec Z :=
  for_each (enumerate pairs)
    (fun added ip =>
       let '(i, (chunk_text, embedding)) := ip in
       add_news_chunk
         {| nc_news_id := news_id;
            nc_chunk_text := chunk_text;
            nc_chunk_index := i;
            nc_embedding := embedding |} ;;;
       ret (added + 1)%Z)
    chunks_added.

(** The [try] block of [add_news_embeddings]. *)
Definition add_news_embeddings_body (encode : Embedder) (news_id : Z)
  : M vec Z :=
  news <- query_news news_id ;;
  match news with
  | None => ret 0%Z
  | Some article =>
      match fn_content article with
      | None => ret 0%Z
      | Some content =>
          if negb (truthy content) then ret 0%Z
          else
            delete_news_chunks news_id ;;;
            news_chunks <- lift (chunk_text content 800 100) ;;
            embeddings <- lift (encode news_chunks) ;;
            added <- store_news_chunks news_id
                       (combine news_chunks embeddings) 0%Z ;;
            db_commit ;;;
            ret added
      end
  end.

Definition add_news_embeddings (embedder : option Embedder) (news_id : Z)
           (db : Db vec) : Db vec * result Z :=
  match embedder with
  | None => (db, Ok 0%Z)
  | Some encode =>
      run_session
        (try_except (add_news_embeddings_body encode news_id)
                    (fun _ => db_rollback ;;; ret 0%Z))
        db
  end.

(** The chunks stored for one earnings call, in table order. *)
Definition chunks_of (earnings_call_id : Z) (db : Db vec)
  : list (DocumentChunk vec) :=
  filter (fun c => (dc_earnings_call_id c =? earnings_call_id)%Z)
         (document_chunks db).

(** The summaries of one earnings call, as [query_summaries] reads them. *)
Definition summaries_of (earnings_call_id : Z) (db : Db vec) : list Summary :=
  filter (fun x => (sm_earnings_call_id x =? earnings_call_id)%Z)
         (summaries db).

(** The chunk list of a [chunk_text] call, empty when it raises. *)
Definition chunks_or_nil (r : result (list string)) : list string :=
  match r with
  | Ok chunks => chunks
  | Raise _ => []
  end.

(** The chunk sequence of a call's transcript (defaults 1000, 100). *)
Definition transcript_chunks (call : EarningsCall) : list string :=
  match ec_raw_transcript call with
  | Some t => chunks_or_nil (chunk_text t 1000 100)
  | None => []
  end.

(** The chunk sequence of a summary (window 500, overlap 100). *)
Definition summary_chunks (s : Summary) : list string :=
  match sm_content s with
  | Some c => chunks_or_nil (chunk_text c 500 100)
  | None => []
  end.

(** A stored row of partition [chunk_type] whose sequence index is the
    position of its text in the partition's chunk sequence. *)
Definition row_at (earnings_call_id : Z) (chunk_type : string)
           (chunks : list string) (row : DocumentChunk vec) : Prop :=
  dc_earnings_call_id row = earnings_call_id /\
  dc_chunk_type row = chunk_type /\
  (0 <= dc_chunk_index row)%Z /\
  nth_error chunks (Z.to_nat (dc_chunk_index row)) = Some (dc_chunk_text row).

(** The (partition tag, sequence index) pair of a row. *)
Definition partition_key (row : DocumentChunk vec) : string * Z :=
  (dc_chunk_type row, dc_chunk_index row).

Definition index_lt (a b : DocumentChunk vec) : Prop :=
  (dc_chunk_index a < dc_chunk_index b)%Z.

End WithVectors.

Arguments store_document_chunks {vec}.
Arguments chunk_rows {vec}.
Arguments embed_batch {vec}.
Arguments embed_transcript {vec}.
Arguments embed_summary {vec}.
Arguments embed_earnings_call {vec}.
Arguments add_earnings_embeddings_body {vec}.
Arguments run_session {vec A}.
Arguments add_earnings_embeddings {vec}.
Arguments store_news_chunks {vec}.
Arguments add_news_embeddings_body {vec}.
Arguments add_news_embeddings {vec}.
Arguments chunks_of {vec}.
Arguments summaries_of {vec}.
Arguments row_at {vec}.
Arguments partition_key {vec}.
Arguments index_lt {vec}.

End Rag.

Import Rag.

(* ================================================================== *)
(** * [PostgresRAGService.semantic_search]  (rag_service.py, 185-301) *)
(* ================================================================== *)

Module Search.

(** What distinguishes the two shapes of result dictionaries. *)
Inductive Origin : Type :=
| FromEarningsCall (quarter : string) (year : Z) (date : option string)
                   (earnings_call_id : Z)
| FromFinancialNews (title : string) (publisher date url : option string).

(** One result dictionary: the keys both shapes share, then the rest. *)
Record SearchResult : Type := mkSearchResult {
  sr_content : string;
  sr_type : string;
  sr_source : string;
  sr_company_symbol : string;
  sr_similarity : Q;
  sr_origin : Origin
}.

(** Insertion into a list sorted by decreasing key; among equal keys the
    inserted element goes first. *)
Fixpoint insert_desc {A : Type} (key : A -> Q) (x : A) (l : list A)
  : list A :=
  match l with
  | [] => [x]
  | y :: l' =>
      if Qle_bool (key y) (key x) then x :: y :: l'
      else y :: insert_desc key x l'
  end.

(** Sorting by decreasing key, stable: [list.sort(key=..., reverse=True)]
    and the [ORDER BY ... DESC] of the queries (whose order among equal
    similarities is taken to be the table order). *)
Fixpoint sort_desc {A : Type} (key : A -> Q) (l : list A) : list A :=
  match l with
  | [] => []
  | x :: l' => insert_desc key x (sort_desc key l')
  end.

(** The order of a list sorted by decreasing key. *)
Definition desc {A : Type} (key : A -> Q) (a b : A) : Prop :=
  (key b <= key a)%Q.

(** SQL [LIKE 'summary_%']: [summary], then one character, then anything. *)
Definition like_summary (s : string) : bool :=
  prefix "summary" s && (7 <? String.length s).

(** [search_type in [...]]. *)
Definition search_type_in (search_type : string) (options : list string)
  : bool :=
  existsb (String.eqb search_type) options.

Section WithVectors.

Variable vec : Type.

(** pgvector's [embedding.cosine_distance(query_embedding)]. *)
Variable cosine_distance : vec -> vec -> Q.

Definition similarity (embedding query_embedding : vec) : Q :=
  (1 - cosine_distance embedding query_embedding)%Q.

(** [DocumentChunk JOIN EarningsCall] on the foreign key. *)
Definition join_earnings_calls (db : Db vec)
  : list (DocumentChunk vec * EarningsCall) :=
  flat_map
    (fun c =>
       match find (fun e => (ec_id e =? dc_earnings_call_id c)%Z)
                  (earnings_calls db) with
       | Some e => [(c, e)]
       | None => []
       end)
    (document_chunks db).

(** [NewsChunk JOIN FinancialNews] on the foreign key. *)
Definition join_financial_news (db : Db vec)
  : list (NewsChunk vec * FinancialNews) :=
  flat_map
    (fun c =>
       match find (fun n => (fn_id n =? nc_news_id c)%Z)
                  (financial_news db) with
       | Some n => [(c, n)]
       | None => []
       end)
    (news_chunks db).

(** [if company_symbol:] guards the company filter. *)
Definition company_matches (company_symbol : option string)
           (symbol : string) : bool :=
  match company_symbol with
  | Some s => if truthy s then String.eqb symbol s else true
  | None => true
  end.

(** Lines 217-254: the query over document chunks and the dictionaries
    built from its rows. *)
Definition document_results (db : Db vec) (query_embedding : vec)
           (company_symbol : option string) (search_type : string)
           (limit : nat) (similarity_threshold : Q) : list SearchResult :=
  let rows :=
    map (fun ce : DocumentChunk vec * EarningsCall =>
           (ce, similarity (dc_embedding (fst ce)) query_embedding))
        (join_earnings_calls db) in
  let rows :=
    filter (fun r => company_matches company_symbol
                       (ec_company_symbol (snd (fst r)))) rows in
  let rows :=
    if String.eqb search_type "transcript" then
      filter (fun r => String.eqb (dc_chunk_type (fst (fst r))) "transcript")
             rows
    else if String.eqb search_type "summary" then
      filter (fun r => like_summary (dc_chunk_type (fst (fst r)))) rows
    else rows in
  let rows :=
    firstn limit
      (sort_desc snd
         (filter (fun r => Qle_bool similarity_threshold (snd r)) rows)) in
  map (fun r =>
         let '((c, e), sim) := r in
         {| sr_content := dc_chunk_text c;
            sr_type := dc_chunk_type c;
            sr_source := "earnings_call";
            sr_company_symbol := ec_company_symbol e;
            sr_similarity := sim;
            sr_origin := FromEarningsCall (ec_quarter e) (ec_year e)
                           (ec_call_date e) (dc_earnings_call_id c) |})
      rows.

(** Lines 258-288: the query over news chunks. *)
Definition news_results (db : Db vec) (query_embedding : vec)
           (company_symbol : option string)
           (limit : nat) (similarity_threshold : Q) : list SearchResult :=
  let rows :=
    map (fun cn : NewsChunk vec * FinancialNews =>
           (cn, similarity (nc_embedding (fst cn)) query_embedding))
        (join_financial_news db) in
  let rows :=
    filter (fun r => company_matches company_symbol
                       (fn_symbol (snd (fst r)))) rows in
  let rows :=
    firstn limit
      (sort_desc snd
         (filter (fun r => Qle_bool similarity_threshold (snd r)) rows)) in
  map (fun r =>
         let '((c, n), sim) := r in
         {| sr_content := nc_chunk_text c;
            sr_type := "news";
            sr_source := "financial_news";
            sr_company_symbol := fn_symbol n;
            sr_similarity := sim;
            sr_origin := FromFinancialNews (fn_title n) (fn_publisher n)
                           (fn_published_date n) (fn_url n) |})
      rows.

(** The results of the queries that [search_type] selects, document
    chunks first. *)
Definition partition_results (db : Db vec) (query_embedding : vec)
           (company_symbol : option string) (search_type : string)
           (limit : nat) (similarity_threshold : Q) : list SearchResult :=
  (if search_type_in search_type ["all"; "transcript"; "summary"]
   then document_results db query_embedding company_symbol search_type
          limit similarity_threshold
   else [])
  ++
  (if search_type_in search_type ["all"; "news"]
   then news_results db query_embedding company_symbol
          limit similarity_threshold
   else []).

(** [self.embedder.encode([query], show_progress_bar=False)[0]]. *)
Definition query_embedding_of (encode : Embedder vec) (query : string)
  : result vec :=
  match encode [query] with
  | Raise e => Raise e
  | Ok [] => Raise IndexError
  | Ok (v :: _) => Ok v
  end.

(** [limit] is a row count: SQL's LIMIT takes no negative number. *)
Definition semantic_search (embedder : option (Embedder vec))
           (db : Db vec) (query : string) (company_symbol : option string)
           (search_type : string) (limit : nat) (similarity_threshold : Q)
  : list SearchResult :=
  match embedder with
  | None => []
  | Some encode =>
      match query_embedding_of encode query with
      | Raise _ => []
      | Ok query_embedding =>
          let results :=
            partition_results db query_embedding company_symbol
              search_type limit similarity_threshold in
          firstn limit (sort_desc sr_similarity results)
      end
  end.

End WithVectors.

Arguments similarity {vec}.
Arguments join_earnings_calls {vec}.
Arguments join_financial_news {vec}.
Arguments document_results {vec}.
Arguments news_results {vec}.
Arguments partition_results {vec}.
Arguments query_embedding_of {vec}.
Arguments semantic_search {vec}.

End Search.

Import Search.

(* ================================================================== *)
(** * String methods used by the summarizer *)
(* ================================================================== *)

Module PyStr.

Definition is_upper (c : ascii) : bool :=
  let n := nat_of_ascii c in (65 <=? n) && (n <=? 90).

Definition is_lower (c : ascii) : bool :=
  let n := nat_of_ascii c in (97 <=? n) && (n <=? 122).

Definition is_cased (c : ascii) : bool := is_upper c || is_lower c.

Definition lower_char (c : ascii) : ascii :=
  if is_upper c then ascii_of_nat (nat_of_ascii c + 32) else c.

Definition upper_char (c : ascii) : ascii :=
  if is_lower c then ascii_of_nat (nat_of_ascii c - 32) else c.

(** [str.lower()]. *)
Fixpoint lower (s : string) : string :=
  match s with
  | EmptyString => EmptyString
  | String c s' => String (lower_char c) (lower s')
  end.

(** [str.title()]: a cased character is upper-cased when the character
    before it is not cased, and lower-cased otherwise. *)
Fixpoint title_from (previous_is_cased : bool) (s : string) : string :=
  match s with
  | EmptyString => EmptyString
  | String c s' =>
      String (if previous_is_cased then lower_char c else upper_char c)
             (title_from (is_cased c) s')
  end.

Definition title (s : string) : string := title_from false s.

(** [needle in haystack]. *)
Fixpoint contains (needle haystack : string) : bool :=
  prefix needle haystack ||
  match haystack with
  | EmptyString => false
  | String _ h' => contains needle h'
  end.

Fixpoint lstrip_by (p : ascii -> bool) (s : string) : string :=
  match s with
  | EmptyString => EmptyString
  | String c s' => if p c then lstrip_by p s' else s
  end.

Fixpoint rstrip_by (p : ascii -> bool) (s : string) : string :=
  match s with
  | EmptyString => EmptyString
  | String c s' =>
      match rstrip_by p s' with
      | EmptyString => if p c then EmptyString else String c EmptyString
      | r => String c r
      end
  end.

Definition strip_by (p : ascii -> bool) (s : string) : string :=
  rstrip_by p (lstrip_by p s).

(** [str.strip()]. *)
Definition strip (s : string) : string := strip_by is_space s.

(** [str.strip(chars)]. *)
Definition strip_chars (chars : string) (s : string) : string :=
  strip_by (fun c => existsb (Ascii.eqb c) (list_ascii_of_string chars)) s.

(** [str.split(sep)] for a one-character separator: the pieces between
    separators, empty ones included. *)
Fixpoint split_on (sep : ascii) (s : string) : list string :=
  match s with
  | EmptyString => [EmptyString]
  | String c s' =>
      if Ascii.eqb c sep then EmptyString :: split_on sep s'
      else match split_on sep s' with
           | piece :: pieces => String c piece :: pieces
           | [] => [String c EmptyString]
           end
  end.

(** [str(n)] for an integer. *)
Definition str_of_int (n : Z) : string :=
  NilZero.string_of_int (Z.to_int n).

Definition newline : string := String (ascii_of_nat 10) EmptyString.

End PyStr.

Import PyStr.

(* ================================================================== *)
(** * Keyword tables  (config/settings.py, lines 58-79) *)
(* ================================================================== *)

Module Settings.

Definition SENTIMENT_KEYWORDS_positive : list string :=
  ["optimistic"; "confident"; "strong"; "growth"; "momentum";
   "pleased"; "excited"; "bullish"; "opportunity"; "progress";
   "improved"; "solid"; "robust"; "excellent"].

Definition SENTIMENT_KEYWORDS_negative : list string :=
  ["challenging"; "difficult"; "headwinds"; "pressure"; "decline";
   "concerned"; "cautious"; "weakness"; "slowdown"; "uncertainty";
   "disappointing"; "volatile"; "risk"; "struggle"].

Definition SENTIMENT_KEYWORDS_neutral : list string :=
  ["stable"; "steady"; "mixed"; "balanced"; "moderate";
   "consistent"; "maintaining"; "monitoring"; "watchful"].

Definition MANAGEMENT_TITLES : list string :=
  ["ceo:"; "chief executive"; "president:"; "cfo:"; "chief financial";
   "chairman:"; "founder:"; "co-ceo:"; "managing director:"; "coo:";
   "chief operating"; "chief technology"; "cto:"; "head of"].

End Settings.

Import Settings.

(* ================================================================== *)
(** * [EarningsSummarizer.determine_outlook_sentiment]
      (earnings_summarizer.py, lines 193-254) *)
(* ================================================================== *)

Module Summarizer.

(** Rows of [companies]. *)
Record Company : Type := mkCompany {
  co_symbol : string;
  co_name : string
}.

(** [OllamaClient.generate(prompt, max_tokens)]: the text of the reply,
    the empty string on any failure. *)
Definition Generate : Type := string -> Z -> string.

(** [get_company_info]. *)
Definition get_company_info (companies : list Company) (symbol : string)
  : option Company :=
  find (fun c => String.eqb (co_symbol c) symbol) companies.

(** [sum(1 for word in keywords if word in transcript)]. *)
Definition keyword_count (keywords : list string) (transcript : string) : Z :=
  len (filter (fun word => contains word transcript) keywords).

(** The options the prompt enumerates, each with the rest of its line. *)
Definition prompt_option_lines : list (string * string) :=
  [("Positive", " (optimistic, confident, strong outlook)");
   ("Negative", " (cautious, concerned, challenging outlook)  ");
   ("Neutral", " (balanced, steady, mixed signals)");
   ("Cautious", " (careful optimism, measured outlook)");
   ("Bullish", " (very positive, aggressive growth outlook)");
   ("Bearish", " (pessimistic, defensive outlook)")].

Definition prompt_options : list string := map fst prompt_option_lines.

Definition sentiment_prompt (company_context quarter : string) (year : Z)
           (management_text : string) : string :=
  (newline ++
   "Analyze the overall sentiment and outlook from this " ++
   company_context ++ " " ++ quarter ++ " " ++ str_of_int year ++
   " earnings call." ++ newline ++ newline ++
   "Key management statements:" ++ newline ++
   management_text ++ newline ++ newline ++
   "Based on management tone, forward guidance, and overall messaging, determine the predominant sentiment." ++
   newline ++ newline ++
   "Respond with EXACTLY ONE WORD from these options:" ++ newline ++
   String.concat EmptyString
     (map (fun line => "- " ++ fst line ++ snd line ++ newline)
          prompt_option_lines) ++
   newline ++ "One word only:" ++ newline)%string.

Definition valid_sentiments : list string :=
  ["Positive"; "Negative"; "Neutral"; "Cautious"; "Bullish"; "Bearish";
   "Optimistic"; "Pessimistic"; "Mixed"; "Strong"; "Weak"; "Confident"].

(** Lines 248-254: the keyword fallback. *)
Definition keyword_fallback (positive_count negative_count neutral_count : Z)
  : string :=
  if (positive_count >? negative_count)%Z &&
     (positive_count >? neutral_count)%Z then "Positive"
  else if (negative_count >? positive_count)%Z &&
          (negative_count >? neutral_count)%Z then "Negative"
  else "Neutral".

(** Lines 239-246: what the reply is accepted as, if anything.  The
    [IndexError] of [result.split()[0]] on no word is kept. *)
Definition accepted_reply (result : string) : Py.result (option string) :=
  if truthy result then
    match split result with
    | [] => Raise IndexError
    | w :: _ =>
        let first_word := title (strip_chars ".,!?" w) in
        if existsb (String.eqb first_word) valid_sentiments
        then Ok (Some first_word)
        else Ok None
    end
  else Ok None.

(** Lines 195-196: how the prompt names the company. *)
Definition company_context (companies : list Company)
           (earnings_call : EarningsCall) : string :=
  match get_company_info companies (ec_company_symbol earnings_call) with
  | Some info =>
      (co_name info ++ " (" ++ ec_company_symbol earnings_call ++ ")")%string
  | None => ec_company_symbol earnings_call
  end.

(** Lines 206-215: up to ten lines that name a management title, else
    the first thousand characters of the lower-cased transcript. *)
Definition management_text (raw_transcript : string) : string :=
  let transcript := lower raw_transcript in
  let lines := split_on (ascii_of_nat 10) raw_transcript in
  let management_sections :=
    filter (fun line =>
              existsb (fun t => contains t (lower line)) MANAGEMENT_TITLES)
           lines in
  match management_sections with
  | [] => substring 0 1000 transcript
  | _ :: _ => join newline (firstn 10 management_sections)
  end.

(** Lines 217-234: the prompt sent for a call with this transcript. *)
Definition outlook_prompt (companies : list Company)
           (earnings_call : EarningsCall) (raw_transcript : string) : string :=
  sentiment_prompt (company_context companies earnings_call)
    (ec_quarter earnings_call) (ec_year earnings_call)
    (management_text raw_transcript).

Definition determine_outlook_sentiment (generate : Generate)
           (companies : list Company) (earnings_call : EarningsCall)
  : Py.result string :=
  match ec_raw_transcript earnings_call with
  | None => Raise AttributeError
  | Some raw_transcript =>
      let transcript := lower raw_transcript in
      let positive_count :=
        keyword_count SENTIMENT_KEYWORDS_positive transcript in
      let negative_count :=
        keyword_count SENTIMENT_KEYWORDS_negative transcript in
      let neutral_count :=
        keyword_count SENTIMENT_KEYWORDS_neutral transcript in
      let prompt := outlook_prompt companies earnings_call raw_transcript in
      let result := strip (generate prompt 10%Z) in
      match accepted_reply result with
      | Raise e => Raise e
      | Ok (Some first_word) => Ok first_word
      | Ok None =>
          Ok (keyword_fallback positive_count negative_count neutral_count)
      end
  end.

End Summarizer.

Import Summarizer.

(* ================================================================== *)
(** * Sample data *)
(* ================================================================== *)

Module Samples.

(** A stand-in embedding model: one number per text. *)
Definition sample_encode : Embedder Z :=
  fun texts => Ok (map (fun t => Z.of_nat (String.length t)) texts).

(** A stand-in distance between two such numbers. *)
Definition sample_distance (a b : Z) : Q :=
  Qmake (Z.abs (a - b)) 100.

(** An earnings call without transcript that already has one chunk and
    one summary. *)
Definition db_without_transcript : Db Z :=
  {| earnings_calls :=
       [mkEarningsCall 1 "ACME" "Q1" 2024 None None];
     summaries := [mkSummary 1 (Some "executive") (Some "Solid quarter")];
     financial_news :=
       [mkFinancialNews 7 "ACME" "Results" (Some EmptyString) None None None];
     document_chunks := [mkDocumentChunk 1 "old text" 0 "transcript" 8%Z];
     news_chunks := [mkNewsChunk 7 "old news" 0 8%Z] |}.

(** An earnings call with a short transcript and two summaries, and one
    news article with its chunk. *)
Definition db_small : Db Z :=
  {| earnings_calls :=
       [mkEarningsCall 1 "ACME" "Q1" 2024 None
          (Some "Revenue grew and margins improved")];
     summaries :=
       [mkSummary 1 (Some "executive") (Some "Solid quarter");
        mkSummary 1 (Some "outlook_sentiment") (Some "Positive")];
     financial_news :=
       [mkFinancialNews 7 "ACME" "Results" (Some "ACME beats") None None None];
     document_chunks :=
       [mkDocumentChunk 1 "Revenue grew" 0 "transcript" 12%Z;
        mkDocumentChunk 1 "Solid quarter" 0 "summary_executive" 13%Z];
     news_chunks := [mkNewsChunk 7 "ACME beats" 0 10%Z] |}.

(** A text of [n] one-letter words. *)
Fixpoint repeated_words (n : nat) : string :=
  match n with
  | O => EmptyString
  | S n' => String "w" (String " " (repeated_words n'))
  end.

(** An earnings call whose transcript of 10000 words needs eleven chunks,
    hence two batches. *)
Definition db_long : Db Z :=
  {| earnings_calls :=
       [mkEarningsCall 2 "ACME" "Q2" 2024 None
          (Some (repeated_words (Z.to_nat 10000)))];
     summaries := [];
     financial_news := [];
     document_chunks := [];
     news_chunks := [] |}.

(** A transcript with five positive, one negative and two neutral
    keywords. *)
Definition transcript_5_1_2 : string :=
  "We are confident: strong growth, solid progress; some risk; stable and steady.".

End Samples.

Import Samples.

(* ================================================================== *)
(** * The shape of the chunk sequence of [chunk_text] *)
(* ================================================================== *)

Module ChunkShape.

(** Number of chunks for [L >= 1] tokens, window [M], overlap [O]. *)
Definition chunk_count (L M O : Z) : nat :=
  S (Z.to_nat ((L - O - 1) / (M - O))).

(** The tokens of chunk number [k]: [words[k*(M-O) : k*(M-O) + M]]. *)
Definition window (words : list string) (M O : Z) (k : nat) : list string :=
  firstn (Z.to_nat M) (skipn (Z.to_nat (Z.of_nat k * (M - O))) words).

End ChunkShape.

Import ChunkShape.

(* ================================================================== *)
(** * Vocabulary for statements about the write path *)
(* ================================================================== *)

Module WriteFacts.

(** [enumerate] from any start, with the partition tag in front. *)
Definition labelled_from (chunk_type : string) (start : Z)
           (chunks : list string) : list (string * Z * string) :=
  map (fun jt : Z * string => (chunk_type, fst jt, snd jt))
      (enumerate_from start chunks).

(** Partition tag, sequence index and text of a stored row. *)
Definition row_label {vec : Type} (row : DocumentChunk vec)
  : string * Z * string :=
  (dc_chunk_type row, dc_chunk_index row, dc_chunk_text row).

(** The chunks stored for one news article, in table order. *)
Definition news_chunks_of {vec : Type} (news_id : Z) (db : Db vec)
  : list (NewsChunk vec) :=
  filter (fun c => (nc_news_id c =? news_id)%Z) (news_chunks db).

(** Sequence index and text of a stored news row. *)
Definition news_label {vec : Type} (row : NewsChunk vec) : Z * string :=
  (nc_chunk_index row, nc_chunk_text row).

(** The rows that the loop of [add_news_embeddings] adds, as a list. *)
Definition news_rows {vec : Type} (news_id : Z)
           (pairs : list (string * vec)) : list (NewsChunk vec) :=
  map (fun ip : Z * (string * vec) =>
         {| nc_news_id := news_id;
            nc_chunk_text := fst (snd ip);
            nc_chunk_index := fst ip;
            nc_embedding := snd (snd ip) |})
      (enumerate pairs).

(** The store without the chunks of one news article. *)
Definition purge_news_chunks {vec : Type} (news_id : Z) (d : Db vec)
  : Db vec :=
  {| earnings_calls := earnings_calls d;
     summaries := summaries d;
     financial_news := financial_news d;
     document_chunks := document_chunks d;
     news_chunks :=
       filter (fun c => negb (nc_news_id c =? news_id)%Z) (news_chunks d) |}.

(** The store with more rows at the end of [news_chunks]. *)
Definition append_news_chunks {vec : Type} (rows : list (NewsChunk vec))
           (d : Db vec) : Db vec :=
  {| earnings_calls := earnings_calls d;
     summaries := summaries d;
     financial_news := financial_news d;
     document_chunks := document_chunks d;
     news_chunks := news_chunks d ++ rows |}.

(** An embedder that returns one vector per text. *)
Definition one_vector_per_text {vec : Type} (encode : Embedder vec) : Prop :=
  forall texts, exists vectors,
    encode texts = Ok vectors /\ length vectors = length texts.

(** An embedder that raises on every call. *)
Definition always_raises {vec : Type} (encode : Embedder vec) : Prop :=
  forall texts, exists e, encode texts = Raise e.

End WriteFacts.

Import WriteFacts.

(* ================================================================== *)
(** * [PostgresRAGService.get_embedding_stats]  (rag_service.py, 303-337) *)
(* ================================================================== *)

Module Stats.

(** The dictionary the method returns; ['unknown'] is [None]. *)
Record EmbeddingStats : Type := mkEmbeddingStats {
  total_document_chunks : Z;
  earnings_calls_with_embeddings : Z;
  total_news_chunks : Z;
  news_articles_with_embeddings : Z;
  chunk_types : list (string * Z);
  embedding_model : string;
  embedding_dimension : option Z
}.

(** [SELECT chunk_type, count(id) ... GROUP BY chunk_type]: one row per
    distinct chunk type, with the number of rows of that type. *)
Definition count_by_chunk_type {vec : Type} (rows : list (DocumentChunk vec))
  : list (string * Z) :=
  map (fun ty =>
         (ty, len (filter (fun c => String.eqb (dc_chunk_type c) ty) rows)))
      (nodup string_dec (map dc_chunk_type rows)).

Definition get_embedding_stats {vec : Type} (model_name : string)
           (db : Db vec) : EmbeddingStats :=
  {| total_document_chunks := len (document_chunks db);
     earnings_calls_with_embeddings :=
       len (nodup Z.eq_dec (map dc_earnings_call_id (document_chunks db)));
     total_news_chunks := len (news_chunks db);
     news_articles_with_embeddings :=
       len (nodup Z.eq_dec (map nc_news_id (news_chunks db)));
     chunk_types := count_by_chunk_type (document_chunks db);
     embedding_model := model_name;
     embedding_dimension :=
       if contains "MiniLM-L6-v2" model_name then Some 384%Z else None |}.

(** Sum of a list of integers. *)
Definition sum_Z (l : list Z) : Z := fold_right Z.add 0%Z l.

End Stats.

Import Stats.

(* ================================================================== *)
(** * [EarningsSummarizer.chunk_transcript]
      (earnings_summarizer.py, lines 78-100) *)
(* ================================================================== *)

Module TranscriptChunker.

(** [sum(len(w) + 1 for w in words)]. *)
Definition budget (words : list string) : Z :=
  sum_Z (map (fun w => (Z.of_nat (String.length w) + 1)%Z) words).

(** The local variables of the loop. *)
Record ChunkerState : Type := mkChunkerState {
  st_chunks : list string;
  st_current_chunk : list string;
  st_current_length : Z
}.

(** [current_chunk[-overlap_size:]] with
    [overlap_size = min(100, len(current_chunk) // 4)]; for an overlap
    size of 0 the slice [l[-0:]] is the whole list. *)
Definition carried_over (current_chunk : list string) : list string :=
  let overlap_size := Z.min 100 (len current_chunk / 4) in
  py_slice current_chunk (- overlap_size) (len current_chunk).

(** The body of [for word in words]. *)
Definition chunk_transcript_step (max_chunk_size : Z) (st : ChunkerState)
           (word : string) : ChunkerState :=
  let word_length := (Z.of_nat (String.length word) + 1)%Z in
  let st' :=
    if (st_current_length st + word_length >? max_chunk_size)%Z &&
       match st_current_chunk st with [] => false | _ :: _ => true end
    then
      let kept := carried_over (st_current_chunk st) in
      {| st_chunks := st_chunks st ++ [join " " (st_current_chunk st)];
         st_current_chunk := kept;
         st_current_length := budget kept |}
    else st in
  {| st_chunks := st_chunks st';
     st_current_chunk := st_current_chunk st' ++ [word];
     st_current_length := (st_current_length st' + word_length)%Z |}.

Definition chunk_transcript (transcript : string) (max_chunk_size : Z)
  : list string :=
  let words := split transcript in
  let st :=
    fold_left (chunk_transcript_step max_chunk_size) words
      {| st_chunks := []; st_current_chunk := []; st_current_length := 0 |} in
  match st_current_chunk st with
  | [] => st_chunks st
  | _ :: _ => st_chunks st ++ [join " " (st_current_chunk st)]
  end.

(** [next] starts with what was carried over from [previous], followed by
    a word that did not fit into [previous]. *)
Definition follows (max_chunk_size : Z) (previous next : list string)
  : Prop :=
  exists word more,
    next = carried_over previous ++ word :: more /\
    (budget previous + (Z.of_nat (String.length word) + 1) >
     max_chunk_size)%Z.

(** Each element of a chunk list follows the one before it, [previous]
    being the chunk before the list. *)
Fixpoint linked (max_chunk_size : Z) (previous : option (list string))
         (l : list (list string)) : Prop :=
  match l with
  | [] => True
  | c :: rest =>
      match previous with
      | None => True
      | Some p => follows max_chunk_size p c
      end /\
      linked max_chunk_size (Some c) rest
  end.

(** What a chunk has at its front from the chunk before it. *)
Definition carried_from (previous : option (list string)) : list string :=
  match previous with
  | None => []
  | Some p => carried_over p
  end.

(** A chunk is within the size, or is what was carried over and one more
    word (a single word, for the first chunk). *)
Fixpoint sized (max_chunk_size : Z) (previous : option (list string))
         (l : list (list string)) : Prop :=
  match l with
  | [] => True
  | c :: rest =>
      ((budget c <= max_chunk_size)%Z \/
       exists word, c = carried_from previous ++ [word]) /\
      sized max_chunk_size (Some c) rest
  end.

(** The words of a chunk list without what each chunk repeats of the
    chunk before it. *)
Fixpoint fresh_words (previous : option (list string))
         (l : list (list string)) : list string :=
  match l with
  | [] => []
  | c :: rest =>
      skipn (length (carried_from previous)) c ++ fresh_words (Some c) rest
  end.

(** The chunk before position [k] of a chunk list. *)
Definition chunk_before (l : list (list string)) (k : nat)
  : option (list string) :=
  match k with
  | O => None
  | S j => nth_error l j
  end.

(** What holds of the loop state after the words [processed], [closed]
    being the token lists of the chunks closed so far. *)
Definition chunker_inv (max_chunk_size : Z) (processed : list string)
           (st : ChunkerState) (closed : list (list string)) : Prop :=
  st_chunks st = map (join " ") closed /\
  st_current_length st = budget (st_current_chunk st) /\
  st_current_chunk st <> [] /\
  (exists before, processed = before ++ st_current_chunk st) /\
  Forall (fun c => c <> [] /\
                   exists before after, processed = before ++ c ++ after)
         closed /\
  fresh_words None (closed ++ [st_current_chunk st]) = processed /\
  linked max_chunk_size None (closed ++ [st_current_chunk st]) /\
  sized max_chunk_size None (closed ++ [st_current_chunk st]).

End TranscriptChunker.

Import TranscriptChunker.

(* ================================================================== *)
(** * [EarningsSummarizer]: the three summaries
      (earnings_summarizer.py, lines 102-191 and 256-276;
       config/settings.py, lines 48-56) *)
(* ================================================================== *)

Module Summaries.

Definition FORWARD_GUIDANCE_KEYWORDS : list string :=
  ["guidance"; "outlook"; "expect"; "forecast"; "project"; "anticipate";
   "looking ahead"; "going forward"; "next quarter"; "fiscal year";
   "full year"; "remainder of"; "second half"; "target"; "goal"; "strategy";
   "initiative"; "investment"; "expansion"; "acquisition"; "product launch";
   "market entry"; "partnership"; "innovation"; "transformation";
   "restructuring"; "efficiency"; "digital"; "technology"; "platform";
   "capability"; "footprint"].

(** Lines 116-126: the prompt for one section of the transcript. *)
Definition executive_chunk_prompt (company_context quarter : string)
           (year : Z) (chunk : string) : string :=
  (newline ++
   "Summarize the key strategic and business insights from this section of a " ++
   company_context ++ " " ++ quarter ++ " " ++ str_of_int year ++
   " earnings call:" ++ newline ++ newline ++ chunk ++ newline ++ newline ++
   "Focus on:" ++ newline ++
   "- Strategic initiatives and business developments" ++ newline ++
   "- Management commentary and outlook" ++ newline ++
   "- Operational changes or market insights" ++ newline ++
   "- Forward-looking statements" ++ newline ++ newline ++
   "Provide a concise summary of the main strategic points in this section:" ++
   newline)%string.

(** Lines 135-148: the prompt that combines the section summaries. *)
Definition executive_combined_prompt (company_context quarter : string)
           (year : Z) (combined : string) : string :=
  (newline ++ "These are summaries from different sections of a " ++
   company_context ++ " " ++ quarter ++ " " ++ str_of_int year ++
   " earnings call. Create a cohesive executive summary:" ++ newline ++
   newline ++ combined ++ newline ++ newline ++
   "Create a comprehensive executive summary covering:" ++ newline ++
   "- Overall business performance themes and strategic direction" ++
   newline ++ "- Key initiatives, investments, and operational changes" ++
   newline ++ "- Management's outlook and forward-looking commentary" ++
   newline ++
   "- Market opportunities, challenges, and competitive positioning" ++
   newline ++ "- Significant business developments or strategic shifts" ++
   newline ++ newline ++
   "Write a professional, analytical summary in 450-550 words that provides strategic business intelligence:" ++
   newline)%string.

(** Lines 112-131: the loop over the sections; an empty reply is left
    out. *)
Definition summarize_chunks (generate : Generate)
           (company_context quarter : string) (year : Z)
           (chunks_to_process : list string) : list string :=
  fold_left
    (fun chunk_summaries chunk =>
       let summary :=
         generate (executive_chunk_prompt company_context quarter year chunk)
                  300%Z in
       if truthy summary then chunk_summaries ++ [summary]
       else chunk_summaries)
    chunks_to_process [].

(** [generate_executive_summary]; a [raw_transcript] of [None] fails in
    [chunk_transcript] at [transcript.split()]. *)
Definition generate_executive_summary (generate : Generate)
           (companies : list Company) (earnings_call : EarningsCall)
  : Py.result string :=
  let context := company_context companies earnings_call in
  match ec_raw_transcript earnings_call with
  | None => Raise AttributeError
  | Some raw_transcript =>
      let chunks := chunk_transcript raw_transcript 5000 in
      let chunks_to_process := py_slice chunks 0 8 in
      let chunk_summaries :=
        summarize_chunks generate context (ec_quarter earnings_call)
          (ec_year earnings_call) chunks_to_process in
      let combined := join (newline ++ newline) chunk_summaries in
      Ok (generate
            (executive_combined_prompt context (ec_quarter earnings_call)
               (ec_year earnings_call) combined)
            600%Z)
  end.

(** [any(keyword in line.lower() for keyword in forward_keywords)]. *)
Definition has_forward_keyword (line : string) : bool :=
  existsb (fun keyword => contains keyword (lower line))
          FORWARD_GUIDANCE_KEYWORDS.

(** Lines 164-172: every line with a keyword brings the two lines before
    it and the two lines after it. *)
Definition guidance_sections (lines : list string) : list string :=
  fold_left
    (fun sections il =>
       let '(i, line) := il in
       if has_forward_keyword line then
         let start := Z.max 0 (i - 2) in
         let stop := Z.min (len lines) (i + 3) in
         sections ++ py_slice lines start stop
       else sections)
    (enumerate lines) [].

(** Line 174: at most 3000 of these lines, or the first 3000 characters
    of the transcript when no line has a keyword. *)
Definition guidance_text (transcript : string) : string :=
  let lines := split_on (ascii_of_nat 10) transcript in
  let sections := guidance_sections lines in
  match sections with
  | [] => substring 0 3000 transcript
  | _ :: _ => join newline (py_slice sections 0 3000)
  end.

(** Lines 176-189. *)
Definition guidance_prompt (company_context quarter : string) (year : Z)
           (guidance_text : string) : string :=
  (newline ++
   "Extract and analyze the forward-looking guidance and strategic direction from this " ++
   company_context ++ " " ++ quarter ++ " " ++ str_of_int year ++
   " earnings call:" ++ newline ++ newline ++ guidance_text ++ newline ++
   newline ++ "Focus on synthesizing:" ++ newline ++
   "1. **Financial Guidance**: Revenue expectations, margin outlook, growth targets, and financial projections" ++
   newline ++
   "2. **Strategic Initiatives**: New investments, expansion plans, product launches, and business development" ++
   newline ++
   "3. **Market Outlook**: Management's view on industry trends, competitive dynamics, and market conditions  " ++
   newline ++
   "4. **Operational Plans**: Efficiency programs, capacity changes, technology investments, and operational improvements" ++
   newline ++
   "5. **Risk Factors**: Challenges, headwinds, or uncertainties management highlighted" ++
   newline ++ newline ++
   "Provide a structured analysis that combines both quantitative guidance (when mentioned) and strategic direction. Write in a professional tone suitable for investment analysis." ++
   newline ++ newline ++
   "Provide a comprehensive forward guidance analysis in 350-450 words:" ++
   newline)%string.

(** [extract_forward_guidance]; a [raw_transcript] of [None] fails at
    [transcript.split]. *)
Definition extract_forward_guidance (generate : Generate)
           (companies : list Company) (earnings_call : EarningsCall)
  : Py.result string :=
  match ec_raw_transcript earnings_call with
  | None => Raise AttributeError
  | Some transcript =>
      Ok (generate
            (guidance_prompt (company_context companies earnings_call)
               (ec_quarter earnings_call) (ec_year earnings_call)
               (guidance_text transcript))
            500%Z)
  end.

(** [summarize_earnings_call]: the dictionary as its items in insertion
    order. *)
Definition summarize_earnings_call (generate : Generate)
           (companies : list Company) (earnings_call : EarningsCall)
  : Py.result (list (string * string)) :=
  if negb (truthy_opt (ec_raw_transcript earnings_call)) then Ok []
  else
    match generate_executive_summary generate companies earnings_call with
    | Raise e => Raise e
    | Ok executive =>
        match extract_forward_guidance generate companies earnings_call with
        | Raise e => Raise e
        | Ok forward_guidance =>
            match determine_outlook_sentiment generate companies
                    earnings_call with
            | Raise e => Raise e
            | Ok outlook_sentiment =>
                Ok [("executive", executive);
                    ("forward_guidance", forward_guidance);
                    ("outlook_sentiment", outlook_sentiment)]
            end
        end
    end.

End Summaries.

Import Summaries.

(* ================================================================== *)
(** * [EarningsSummarizer]: saving and the processing loop
      (earnings_summarizer.py, lines 278-352) *)
(* ================================================================== *)

Module SummaryStore.

Section WithVectors.

Variable vec : Type.

Local Open Scope session_scope.

(** The store without the summaries of one earnings call. *)
Definition purge_summaries (id : Z) (d : Db vec) : Db vec :=
  {| earnings_calls := earnings_calls d;
     summaries :=
       filter (fun x => negb (sm_earnings_call_id x =? id)%Z) (summaries d);
     financial_news := financial_news d;
     document_chunks := document_chunks d;
     news_chunks := news_chunks d |}.

(** The store with more rows at the end of [summaries]. *)
Definition append_summaries (rows : list Summary) (d : Db vec) : Db vec :=
  {| earnings_calls := earnings_calls d;
     summaries := summaries d ++ rows;
     financial_news := financial_news d;
     document_chunks := document_chunks d;
     news_chunks := news_chunks d |}.

(** [session.query(Summary).filter(... earnings_call_id == id).delete()]. *)
Definition delete_summaries (id : Z) : M vec unit :=
  update_working (purge_summaries id).

(** [session.add(summary)]. *)
Definition add_summary (x : Summary) : M vec unit :=
  update_working (append_summaries [x]).

(** [session.query(Summary).filter(... earnings_call_id == id).count()]. *)
Definition count_summaries (id : Z) : M vec Z :=
  fun s => (s, Ok (len (summaries_of id (working s)))).

(** [save_summaries], the dictionary as its items in insertion order. *)
Definition save_summaries (earnings_call : EarningsCall)
           (summaries : list (string * string)) : M vec unit :=
  try_except
    (delete_summaries (ec_id earnings_call) ;;;
     for_each summaries
       (fun _ item =>
          let '(summary_type, content) := item in
          if truthy content && truthy (strip content)
          then add_summary
                 (mkSummary (ec_id earnings_call) (Some summary_type)
                            (Some (strip content)))
          else ret tt)
       tt ;;;
     db_commit)
    (fun _ => db_rollback).

(** Lines 331-352: the body of [for earnings_call in earnings_calls]. *)
Definition process_earnings_call (generate : Generate)
           (companies : list Company) (earnings_call : EarningsCall)
  : M vec unit :=
  existing_summaries <- count_summaries (ec_id earnings_call) ;;
  if (existing_summaries >? 0)%Z then ret tt
  else
    try_except
      (summaries <-
         lift (summarize_earnings_call generate companies earnings_call) ;;
       match summaries with
       | _ :: _ => save_summaries earnings_call summaries
       | [] => ret tt
       end)
      (fun _ => ret tt).

(** Lines 326-352 of [process_earnings_calls]: the loop over the rows
    the query returned. *)
Definition process_calls (generate : Generate) (companies : list Company)
           (earnings_calls : list EarningsCall) : M vec unit :=
  for_each earnings_calls
    (fun _ earnings_call =>
       process_earnings_call generate companies earnings_call)
    tt.

(** The rows [save_summaries] adds for a call. *)
Definition saved_rows (id : Z) (items : list (string * string))
  : list Summary :=
  map (fun item => mkSummary id (Some (fst item)) (Some (strip (snd item))))
      (filter (fun item => truthy (snd item) && truthy (strip (snd item)))
              items).

(** A session with nothing uncommitted. *)
Definition settled (s : Session vec) : Prop := committed s = working s.

End WithVectors.

Arguments purge_summaries {vec}.
Arguments append_summaries {vec}.
Arguments delete_summaries {vec}.
Arguments add_summary {vec}.
Arguments count_summaries {vec}.
Arguments save_summaries {vec}.
Arguments process_earnings_call {vec}.
Arguments process_calls {vec}.
Arguments settled {vec}.

End SummaryStore.

Import SummaryStore.

(* ================================================================== *)
(** * [backfill_earnings_embeddings] and [backfill_news_embeddings]
      (backfill_embeddings.py, lines 14-196) *)
(* ================================================================== *)

Module Backfill.

Section WithVectors.

Variable vec : Type.

(** Lines 61-92: the body of [for i, earnings_call in enumerate(...)].
    The count is read from what is committed; [add_earnings_embeddings]
    works in a session of its own. *)
Definition backfill_earnings_call (embedder : option (Embedder vec))
           (skip_existing : bool) (state : Db vec * Z)
           (earnings_call : EarningsCall) : Db vec * Z :=
  let '(db, processed) := state in
  if skip_existing &&
     (len (chunks_of (ec_id earnings_call) db) >? 0)%Z
  then (db, processed)
  else
    match add_earnings_embeddings embedder (ec_id earnings_call)
            true true db with
    | (db', Ok chunks_added) =>
        if (chunks_added >? 0)%Z then (db', (processed + 1)%Z)
        else (db', processed)
    | (db', Raise _) => (db', processed)
    end.

(** [backfill_earnings_embeddings], the rows its query returned being
    [earnings_calls]. *)
Definition backfill_earnings_embeddings (embedder : option (Embedder vec))
           (earnings_calls : list EarningsCall) (skip_existing : bool)
           (db : Db vec) : Db vec * Z :=
  match embedder with
  | None => (db, 0%Z)
  | Some _ =>
      fold_left (backfill_earnings_call embedder skip_existing)
                earnings_calls (db, 0%Z)
  end.

(** Lines 155-186: the body of [for i, news in enumerate(...)]. *)
Definition backfill_news_article (embedder : option (Embedder vec))
           (skip_existing : bool) (state : Db vec * Z)
           (news : FinancialNews) : Db vec * Z :=
  let '(db, processed) := state in
  if skip_existing && (len (news_chunks_of (fn_id news) db) >? 0)%Z
  then (db, processed)
  else
    match add_news_embeddings embedder (fn_id news) db with
    | (db', Ok chunks_added) =>
        if (chunks_added >? 0)%Z then (db', (processed + 1)%Z)
        else (db', processed)
    | (db', Raise _) => (db', processed)
    end.

(** [backfill_news_embeddings], the rows its query returned being
    [news_articles]. *)
Definition backfill_news_embeddings (embedder : option (Embedder vec))
           (news_articles : list FinancialNews) (skip_existing : bool)
           (db : Db vec) : Db vec * Z :=
  match embedder with
  | None => (db, 0%Z)
  | Some _ =>
      fold_left (backfill_news_article embedder skip_existing)
                news_articles (db, 0%Z)
  end.

(** The store without any document chunk. *)
Definition chunkless (d : Db vec) : Db vec :=
  {| earnings_calls := earnings_calls d;
     summaries := summaries d;
     financial_news := financial_news d;
     document_chunks := [];
     news_chunks := news_chunks d |}.

(** The store with other rows in front of its document chunks. *)
Definition with_chunks_before (rows : list (DocumentChunk vec)) (d : Db vec)
  : Db vec :=
  {| earnings_calls := earnings_calls d;
     summaries := summaries d;
     financial_news := financial_news d;
     document_chunks := rows ++ document_chunks d;
     news_chunks := news_chunks d |}.

Definition session_with_chunks_before (rows : list (DocumentChunk vec))
           (s : Session vec) : Session vec :=
  {| committed := with_chunks_before rows (committed s);
     working := with_chunks_before rows (working s) |}.

(** A session computation that does the same whatever document chunks
    are already there. *)
Definition ignores_stored_chunks {A : Type} (m : M vec A) : Prop :=
  forall rows s,
    m (session_with_chunks_before rows s) =
    (session_with_chunks_before rows (fst (m s)), snd (m s)).

(** A row of its table, found by its key. *)
Definition call_of_store (db : Db vec) (call : EarningsCall) : Prop :=
  find (fun c => (ec_id c =? ec_id call)%Z) (earnings_calls db) = Some call.

Definition article_of_store (db : Db vec) (article : FinancialNews) : Prop :=
  find (fun n => (fn_id n =? fn_id article)%Z) (financial_news db) =
  Some article.

(** The rows listed are rows of their table. *)
Definition calls_of_store (earnings_calls_found : list EarningsCall)
           (db : Db vec) : Prop :=
  Forall (call_of_store db) earnings_calls_found.

Definition articles_of_store (news_articles : list FinancialNews)
           (db : Db vec) : Prop :=
  Forall (article_of_store db) news_articles.

(** Two stores that differ in their document chunks at most. *)
Definition same_tables (db0 db : Db vec) : Prop :=
  chunkless db = chunkless db0.

(** Two stores that differ in their news chunks at most. *)
Definition same_tables_but_news (db0 db : Db vec) : Prop :=
  earnings_calls db = earnings_calls db0 /\
  summaries db = summaries db0 /\
  financial_news db = financial_news db0 /\
  document_chunks db = document_chunks db0.

(** Nothing is left to do for a call: it has chunks, or a run stores
    none for it. *)
Definition earnings_call_settled (encode : Embedder vec) (db0 db : Db vec)
           (call : EarningsCall) : Prop :=
  chunks_of (ec_id call) db <> [] \/
  document_chunks
    (fst (add_earnings_embeddings (Some encode) (ec_id call) true true
            (chunkless db0))) = [].

(** Nothing is left to do for an article: it has chunks, or a run on a
    store where it has none changes nothing and counts nothing. *)
Definition news_article_settled (encode : Embedder vec) (db0 db : Db vec)
           (article : FinancialNews) : Prop :=
  news_chunks_of (fn_id article) db <> [] \/
  forall d,
    financial_news d = financial_news db0 ->
    news_chunks_of (fn_id article) d = [] ->
    add_news_embeddings (Some encode) (fn_id article) d = (d, Ok 0%Z).

End WithVectors.

Arguments earnings_call_settled {vec}.
Arguments news_article_settled {vec}.
Arguments backfill_earnings_call {vec}.
Arguments backfill_earnings_embeddings {vec}.
Arguments backfill_news_article {vec}.
Arguments backfill_news_embeddings {vec}.
Arguments chunkless {vec}.
Arguments with_chunks_before {vec}.
Arguments session_with_chunks_before {vec}.
Arguments ignores_stored_chunks {vec A}.
Arguments call_of_store {vec}.
Arguments article_of_store {vec}.
Arguments same_tables {vec}.
Arguments same_tables_but_news {vec}.
Arguments calls_of_store {vec}.
Arguments articles_of_store {vec}.

End Backfill.

Import Backfill.

(* ================================================================== *)
(** * Retrieval as a ranked merge over partitions
      (rag_service.py, lines 185-301, next to the words of the
      specification) *)
(* ================================================================== *)

Module RankedMerge.

(** The dictionary built from a row of the document query. *)
Definition document_result {vec : Type} (c : DocumentChunk vec)
           (e : EarningsCall) (sim : Q) : SearchResult :=
  {| sr_content := dc_chunk_text c;
     sr_type := dc_chunk_type c;
     sr_source := "earnings_call";
     sr_company_symbol := ec_company_symbol e;
     sr_similarity := sim;
     sr_origin := FromEarningsCall (ec_quarter e) (ec_year e)
                    (ec_call_date e) (dc_earnings_call_id c) |}.

(** The dictionary built from a row of the news query. *)
Definition news_result {vec : Type} (c : NewsChunk vec) (n : FinancialNews)
           (sim : Q) : SearchResult :=
  {| sr_content := nc_chunk_text c;
     sr_type := "news";
     sr_source := "financial_news";
     sr_company_symbol := fn_symbol n;
     sr_similarity := sim;
     sr_origin := FromFinancialNews (fn_title n) (fn_publisher n)
                    (fn_published_date n) (fn_url n) |}.

(** The partitions of the specification. *)
Inductive Partition : Type :=
| Transcripts
| Summaries
| NewsArticles.

(** [results] are [limit] best of [candidates]: sorted by decreasing key,
    as many as the limit and the candidates allow, taken from the
    candidates one for one, and no candidate left out has a larger key
    than a result. *)
Definition best_rows {A : Type} (key : A -> Q) (limit : nat)
           (candidates results : list A) : Prop :=
  StronglySorted (desc key) results /\
  length results = Nat.min limit (length candidates) /\
  exists rest,
    Permutation (results ++ rest) candidates /\
    Forall (fun x => Forall (fun r => (key x <= key r)%Q) results) rest.

Section WithVectors.

Variable vec : Type.
Variable cosine_distance : vec -> vec -> Q.

(** Every stored document chunk that passes [keep], has its earnings call,
    matches the company filter and reaches the threshold, as a result
    dictionary, in table order. *)
Definition document_candidates (keep : DocumentChunk vec -> bool)
           (db : Db vec) (query_embedding : vec)
           (company_symbol : option string) (similarity_threshold : Q)
  : list SearchResult :=
  flat_map
    (fun c =>
       match find (fun e => (ec_id e =? dc_earnings_call_id c)%Z)
                  (earnings_calls db) with
       | Some e =>
           let sim :=
             similarity cosine_distance (dc_embedding c) query_embedding in
           if keep c &&
              company_matches company_symbol (ec_company_symbol e) &&
              Qle_bool similarity_threshold sim
           then [document_result c e sim]
           else []
       | None => []
       end)
    (document_chunks db).

(** Every stored news chunk that has its article, matches the company
    filter and reaches the threshold. *)
Definition news_candidates (db : Db vec) (query_embedding : vec)
           (company_symbol : option string) (similarity_threshold : Q)
  : list SearchResult :=
  flat_map
    (fun c =>
       match find (fun n => (fn_id n =? nc_news_id c)%Z)
                  (financial_news db) with
       | Some n =>
           let sim :=
             similarity cosine_distance (nc_embedding c) query_embedding in
           if company_matches company_symbol (fn_symbol n) &&
              Qle_bool similarity_threshold sim
           then [news_result c n sim]
           else []
       | None => []
       end)
    (news_chunks db).

(** The chunk types [search_type] lets through in the document query. *)
Definition type_filter (search_type : string) (c : DocumentChunk vec)
  : bool :=
  if String.eqb search_type "transcript"
  then String.eqb (dc_chunk_type c) "transcript"
  else if String.eqb search_type "summary"
       then like_summary (dc_chunk_type c)
       else true.

(** All the rows the queries of [semantic_search] select, before any
    ordering or limit. *)
Definition selected_rows (db : Db vec) (query_embedding : vec)
           (company_symbol : option string) (search_type : string)
           (similarity_threshold : Q) : list SearchResult :=
  (if search_type_in search_type ["all"; "transcript"; "summary"]
   then document_candidates (type_filter search_type) db query_embedding
          company_symbol similarity_threshold
   else [])
  ++
  (if search_type_in search_type ["all"; "news"]
   then news_candidates db query_embedding company_symbol
          similarity_threshold
   else []).

(** The rows of one partition of the specification. *)
Definition partition_rows (p : Partition) (db : Db vec)
           (query_embedding : vec) (company_symbol : option string)
           (similarity_threshold : Q) : list SearchResult :=
  match p with
  | Transcripts =>
      document_candidates
        (fun c => String.eqb (dc_chunk_type c) "transcript")
        db query_embedding company_symbol similarity_threshold
  | Summaries =>
      document_candidates (fun c => like_summary (dc_chunk_type c))
        db query_embedding company_symbol similarity_threshold
  | NewsArticles =>
      news_candidates db query_embedding company_symbol similarity_threshold
  end.

(** The partitions [type_filter] selects, in the specification. *)
Definition partition_selected (search_type : string) (p : Partition)
  : bool :=
  match p with
  | Transcripts => search_type_in search_type ["all"; "transcript"]
  | Summaries => search_type_in search_type ["all"; "summary"]
  | NewsArticles => search_type_in search_type ["all"; "news"]
  end.

(** The specification's [similarity_query]: ranked by similarity
    descending, at least the threshold, cut to [limit] rows within the
    partition. *)
Definition similarity_query (p : Partition) (db : Db vec)
           (query_embedding : vec) (company_symbol : option string)
           (similarity_threshold : Q) (limit : nat) : list SearchResult :=
  firstn limit
    (sort_desc sr_similarity
       (partition_rows p db query_embedding company_symbol
          similarity_threshold)).

(** [semantic_search] in the words of the specification: an independent
    query for each selected partition, the results concatenated, sorted
    by similarity descending and cut to the overall limit. *)
Definition semantic_search_by_partition (embedder : option (Embedder vec))
           (db : Db vec) (query : string) (company_symbol : option string)
           (search_type : string) (limit : nat) (similarity_threshold : Q)
  : list SearchResult :=
  match embedder with
  | None => []
  | Some encode =>
      match query_embedding_of encode query with
      | Raise _ => []
      | Ok query_embedding =>
          firstn limit
            (sort_desc sr_similarity
               (concat
                  (map (fun p =>
                          similarity_query p db query_embedding
                            company_symbol similarity_threshold limit)
                       (filter (partition_selected search_type)
                               [Transcripts; Summaries; NewsArticles]))))
      end
  end.

(** The data model of the specification: a document chunk is a
    transcript chunk or a summary chunk. *)
Definition partitioned (db : Db vec) : Prop :=
  Forall (fun c => dc_chunk_type c = "transcript" \/
                   like_summary (dc_chunk_type c) = true)
         (document_chunks db).

End WithVectors.

Arguments document_candidates {vec}.
Arguments news_candidates {vec}.
Arguments type_filter {vec}.
Arguments selected_rows {vec}.
Arguments partition_rows {vec}.
Arguments similarity_query {vec}.
Arguments semantic_search_by_partition {vec}.
Arguments partitioned {vec}.

End RankedMerge.

Import RankedMerge.

(* ================================================================== *)
(** * Keyword occurrences, in the words of the specification *)
(* ================================================================== *)

Module Occurrences.

(** The number of places of [text] at which [word] starts. *)
Fixpoint occurrences (word text : string) : Z :=
  ((if prefix word text then 1 else 0) +
   match text with
   | EmptyString => 0
   | String _ text' => occurrences word text'
   end)%Z.

(** The occurrences in [text] of the words of a keyword set. *)
Definition occurrence_count (keywords : list string) (text : string) : Z :=
  fold_right Z.add 0%Z (map (fun word => occurrences word text) keywords).

End Occurrences.

Import Occurrences.

(* ================================================================== *)
(** * More sample data *)
(* ================================================================== *)

Module MoreSamples.

(** Five occurrences of one positive keyword, one negative keyword and
    two neutral keywords. *)
Definition transcript_strong_five_times : string :=
  "strong strong strong strong strong risk stable steady".

(** An earnings call with two summaries of the same type, which the
    schema of [summaries] allows. *)
Definition db_two_executive_summaries : Db Z :=
  {| earnings_calls :=
       [mkEarningsCall 1 "ACME" "Q1" 2024 None (Some "Revenue grew")];
     summaries :=
       [mkSummary 1 (Some "executive") (Some "Solid quarter");
        mkSummary 1 (Some "executive") (Some "Weak quarter")];
     financial_news := [];
     document_chunks := [];
     news_chunks := [] |}.

(** A store with a summary chunk and a transcript chunk of two calls and
    a news chunk. *)
Definition db_three_partitions : Db Z :=
  {| earnings_calls :=
       [mkEarningsCall 1 "ACME" "Q1" 2024 None (Some "Revenue grew");
        mkEarningsCall 2 "BOLT" "Q1" 2024 None (Some "Margins fell")];
     summaries := [];
     financial_news :=
       [mkFinancialNews 7 "ACME" "Results" (Some "ACME beats") None None
          None];
     document_chunks :=
       [mkDocumentChunk 1 "Solid quarter" 0 "summary_executive" 13%Z;
        mkDocumentChunk 1 "Revenue grew" 0 "transcript" 12%Z;
        mkDocumentChunk 2 "Margins fell" 0 "transcript" 40%Z;
        mkDocumentChunk 2 "Costs rose and margins fell" 1 "transcript" 27%Z];
     news_chunks := [mkNewsChunk 7 "ACME beats" 0 10%Z] |}.

End MoreSamples.

Import MoreSamples.

(* ================================================================== *)
(** * Properties *)
(* ================================================================== *)

(** ** Chunking examples *)

Example chunk_text_ex1 :
  chunk_text "a b c d e" 3 1 = Ok ["a b c"; "c d e"].
Proof. reflexivity. Qed.

Example chunk_text_ex2 :
  chunk_text "  a  b
 c " 2 0 = Ok ["a b"; "c"].
Proof. reflexivity. Qed.

Example chunk_text_ex3 :
  chunk_text "a b c d e f g" 3 2 =
  Ok ["a b c"; "b c d"; "c d e"; "d e f"; "e f g"].
Proof. reflexivity. Qed.

(** ** Splitting and joining *)

Lemma is_space_blank : is_space " "%char = true.
Proof. reflexivity. Qed.

Lemma split_is_word (s : string) : Forall is_word (split s).
Proof.
  induction s as [|c s IH]; simpl; [constructor|].
  destruct (is_space c) eqn:Hc; [exact IH|].
  destruct (starts_word s) eqn:Hs.
  - destruct (split s) as [|w ws] eqn:Hsp.
    + constructor; [|constructor]. split; [discriminate|simpl; auto].
    + inversion IH as [|? ? [Hne Hns] Hrest]; subst.
      constructor; [|exact Hrest].
      split; [discriminate|simpl; auto].
  - constructor; [|exact IH].
    split; [discriminate|simpl; auto].
Qed.

Lemma split_word_sep (w rest : string) :
  is_word w -> split (w ++ String " " rest) = w :: split rest.
Proof.
  induction w as [|c w IH]; intros [Hne Hns]; [congruence|].
  destruct Hns as [Hc Hw]. simpl. rewrite Hc.
  destruct w as [|c' w'].
  - simpl. reflexivity.
  - assert (Hw' : is_word (String c' w')) by (split; [discriminate|exact Hw]).
    specialize (IH Hw'). destruct Hw as [Hc' _].
    change ((String c' w' ++ String " " rest)%string)
      with (String c' (w' ++ String " " rest)%string) in *.
    unfold starts_word. rewrite Hc'. simpl negb. cbv iota.
    rewrite IH. reflexivity.
Qed.

Lemma split_word (w : string) : is_word w -> split w = [w].
Proof.
  induction w as [|c w IH]; intros [Hne Hns]; [congruence|].
  destruct Hns as [Hc Hw]. simpl. rewrite Hc.
  destruct w as [|c' w'].
  - reflexivity.
  - assert (Hw' : is_word (String c' w')) by (split; [discriminate|exact Hw]).
    specialize (IH Hw'). destruct Hw as [Hc' _].
    unfold starts_word. rewrite Hc'. simpl negb. cbv iota.
    rewrite IH. reflexivity.
Qed.

(** Joining words with one blank and splitting again gives the words back. *)
Lemma split_join (ws : list string) :
  Forall is_word ws -> split (join " " ws) = ws.
Proof.
  induction ws as [|w ws IH]; intros H; [reflexivity|].
  inversion H as [|? ? Hw Hws]; subst.
  destruct ws as [|w' ws'].
  - simpl. apply split_word; exact Hw.
  - change (join " " (w :: w' :: ws'))
      with ((w ++ String " " (join " " (w' :: ws')))%string).
    rewrite split_word_sep by exact Hw.
    rewrite IH by exact Hws. reflexivity.
Qed.

Lemma Forall_firstn_keep {A} (P : A -> Prop) (n : nat) (l : list A) :
  Forall P l -> Forall P (firstn n l).
Proof.
  revert l; induction n as [|n IH]; intros [|x l] H; simpl; try constructor.
  - inversion H; assumption.
  - inversion H; subst; apply IH; assumption.
Qed.

Lemma Forall_skipn_keep {A} (P : A -> Prop) (n : nat) (l : list A) :
  Forall P l -> Forall P (skipn n l).
Proof.
  revert l; induction n as [|n IH]; intros [|x l] H; simpl; auto.
  inversion H; subst; apply IH; assumption.
Qed.

Lemma Forall_py_slice {A} (P : A -> Prop) (l : list A) (a b : Z) :
  Forall P l -> Forall P (py_slice l a b).
Proof.
  intros H. unfold py_slice.
  apply Forall_firstn_keep, Forall_skipn_keep, H.
Qed.

(** ** Slices and ranges *)

Lemma firstn_cap {A} (n : nat) (l : list A) :
  firstn (Nat.min n (length l)) l = firstn n l.
Proof.
  destruct (Nat.le_ge_cases n (length l)) as [H|H].
  - rewrite Nat.min_l by exact H. reflexivity.
  - rewrite Nat.min_r by exact H.
    rewrite firstn_all. symmetry. apply firstn_all2. exact H.
Qed.

(** A window [l[i : i+m]] with non-negative start and width. *)
Lemma py_slice_window {A} (l : list A) (i m : Z) :
  (0 <= i)%Z -> (0 <= m)%Z ->
  py_slice l i (i + m) = firstn (Z.to_nat m) (skipn (Z.to_nat i) l).
Proof.
  intros Hi Hm. unfold py_slice, clamp_index.
  destruct (Z.ltb_spec i 0) as [?|_]; [lia|].
  destruct (Z.ltb_spec (i + m) 0) as [?|_]; [lia|].
  destruct (Z_le_gt_dec i (Z.of_nat (length l))) as [Hle|Hgt].
  - rewrite (Z.min_l i) by exact Hle.
    rewrite <- (firstn_cap (Z.to_nat m)).
    f_equal. rewrite length_skipn. lia.
  - rewrite (Z.min_r i) by lia.
    rewrite !skipn_all2 by lia. rewrite !firstn_nil. reflexivity.
Qed.

Lemma py_slice_length {A} (l : list A) (i m : Z) :
  (0 <= i)%Z -> (0 <= m)%Z -> (len (py_slice l i (i + m)) <= m)%Z.
Proof.
  intros Hi Hm. rewrite py_slice_window by assumption.
  unfold len. rewrite length_firstn. lia.
Qed.

Lemma py_range_pos (stop step : Z) :
  (0 < step)%Z ->
  py_range stop step =
  Ok (map (fun k => (Z.of_nat k * step)%Z)
          (seq 0 (Z.to_nat (range_len stop step)))).
Proof.
  intros H. unfold py_range.
  destruct (Z.eqb_spec step 0); [lia|reflexivity].
Qed.

Lemma range_len_covers (stop step : Z) :
  (0 < step)%Z -> (stop <= range_len stop step * step)%Z.
Proof.
  intros H. unfold range_len.
  destruct (Z.ltb_spec 0 step) as [_|?]; [|lia].
  destruct (Z.ltb_spec 0 stop) as [Hs|Hs]; [|lia].
  pose proof (Z.mul_succ_div_gt (stop - 1) step H). lia.
Qed.

Lemma range_len_pos (stop step : Z) :
  (0 < step)%Z -> (0 < stop)%Z -> (1 <= range_len stop step)%Z.
Proof.
  intros H Hs. unfold range_len.
  destruct (Z.ltb_spec 0 step) as [_|?]; [|lia].
  destruct (Z.ltb_spec 0 stop) as [_|?]; [|lia].
  pose proof (Z.div_pos (stop - 1) step). lia.
Qed.

Lemma range_len_neg_step (stop step : Z) :
  (step < 0)%Z -> (0 <= stop)%Z -> range_len stop step = 0%Z.
Proof.
  intros H Hs. unfold range_len.
  destruct (Z.ltb_spec 0 step) as [?|_]; [lia|].
  destruct (Z.ltb_spec stop 0) as [?|_]; [lia|reflexivity].
Qed.

(** ** The chunking loop *)

Lemma chunk_loop_windows (words : list string) (M : Z) (indices : list Z) :
  chunk_loop words M indices = map (join " ") (window_loop words M indices).
Proof.
  induction indices as [|i rest IH]; simpl; [reflexivity|].
  destruct (i + M >=? len words)%Z; simpl; [reflexivity|].
  rewrite IH. reflexivity.
Qed.

Lemma window_loop_words (words : list string) (M : Z) (indices : list Z) :
  Forall is_word words ->
  Forall (Forall is_word) (window_loop words M indices).
Proof.
  intros H. induction indices as [|i rest IH]; simpl; [constructor|].
  destruct (i + M >=? len words)%Z.
  - constructor; [apply Forall_py_slice, H|constructor].
  - constructor; [apply Forall_py_slice, H|exact IH].
Qed.

Lemma map_split_join (windows : list (list string)) :
  Forall (Forall is_word) windows ->
  map split (map (join " ") windows) = windows.
Proof.
  induction 1 as [|w ws Hw _ IH]; simpl; [reflexivity|].
  rewrite split_join by exact Hw. rewrite IH. reflexivity.
Qed.

Lemma window_loop_bounded (words : list string) (M s : Z) (k m : nat) :
  (0 <= M)%Z -> (0 <= s)%Z ->
  Forall (fun w => (len w <= M)%Z)
         (window_loop words M
            (map (fun j => (Z.of_nat j * s)%Z) (seq k m))).
Proof.
  intros HM Hs. revert k.
  induction m as [|m IH]; intros k; simpl; [constructor|].
  assert (Hw : (len (py_slice words (Z.of_nat k * s)
                               (Z.of_nat k * s + M)) <= M)%Z)
    by (apply py_slice_length; lia).
  destruct (Z.of_nat k * s + M >=? len words)%Z.
  - constructor; [exact Hw|constructor].
  - constructor; [exact Hw|apply IH].
Qed.

(** From the [k]-th window on, the parts that remain after each window
    lost its [O] leading tokens are the words from position [k*s + O]. *)
Lemma window_loop_tail (words : list string) (M O : Z) (m k : nat) :
  (0 <= O < M)%Z ->
  (len words <= Z.of_nat (k + m) * (M - O))%Z ->
  (Z.of_nat k * (M - O) + O < len words)%Z ->
  concat (map (skipn (Z.to_nat O))
              (window_loop words M
                 (map (fun j => (Z.of_nat j * (M - O))%Z) (seq k m)))) =
  skipn (Z.to_nat (Z.of_nat k * (M - O) + O)) words.
Proof.
  intros HO. revert k.
  induction m as [|m IH]; intros k Hcov Hlt.
  - rewrite Nat.add_0_r in Hcov. lia.
  - cbn [seq map window_loop].
    set (i := (Z.of_nat k * (M - O))%Z) in *.
    assert (Hi : (0 <= i)%Z) by (subst i; nia).
    rewrite py_slice_window by lia.
    destruct (Z.geb_spec (i + M) (len words)) as [Hbreak|Hgo].
    + cbn [map concat]. rewrite app_nil_r.
      rewrite firstn_all2 by (rewrite length_skipn; unfold len in *; lia).
      rewrite skipn_skipn. f_equal. lia.
    + cbn [map concat].
      rewrite (IH (S k)).
      * rewrite skipn_firstn_comm, skipn_skipn.
        replace (Z.to_nat (Z.of_nat (S k) * (M - O) + O))
          with ((Z.to_nat M - Z.to_nat O) + (Z.to_nat O + Z.to_nat i))
          by (subst i; lia).
        rewrite <- (skipn_skipn (Z.to_nat M - Z.to_nat O)).
        replace (Z.to_nat (i + O)) with (Z.to_nat O + Z.to_nat i) by lia.
        apply firstn_skipn.
      * replace (S k + m) with (k + S m) by lia. exact Hcov.
      * subst i. lia.
Qed.

(** The whole loop, on tokens: windows of at most [M] tokens whose
    non-overlapping parts concatenate to the word list. *)
Lemma window_loop_reconstructs (words : list string) (M O : Z) :
  words <> [] -> (0 <= O < M)%Z ->
  drop_overlaps O
    (window_loop words M
       (map (fun j => (Z.of_nat j * (M - O))%Z)
            (seq 0 (Z.to_nat (range_len (len words) (M - O)))))) = words.
Proof.
  intros Hne HO.
  assert (HL : (0 < len words)%Z)
    by (unfold len; destruct words; [congruence|simpl; lia]).
  pose proof (range_len_pos (len words) (M - O) ltac:(lia) HL) as Hn.
  pose proof (range_len_covers (len words) (M - O) ltac:(lia)) as Hcov.
  destruct (Z.to_nat (range_len (len words) (M - O))) as [|n] eqn:En; [lia|].
  cbn [seq map window_loop].
  change (Z.of_nat 0 * (M - O))%Z with 0%Z.
  rewrite (py_slice_window words 0 M) by lia.
  destruct (Z.geb_spec (0 + M) (len words)) as [Hbreak|Hgo].
  - cbn [drop_overlaps map concat]. rewrite app_nil_r.
    apply firstn_all2. unfold len in *. lia.
  - unfold drop_overlaps.
    rewrite (window_loop_tail words M O n 1 HO) by lia.
    replace (Z.to_nat (Z.of_nat 1 * (M - O) + O)) with (Z.to_nat M) by lia.
    simpl skipn. apply firstn_skipn.
Qed.

(** C1: token-mode chunking with 0 <= O < M on a text that has at least
    one token returns chunks of at most M tokens each, and the first chunk
    followed by every later chunk without its first O tokens is the token
    sequence of the text. *)
Theorem chunk_text_reconstructs (text : string) (M O : Z) :
  split text <> [] -> (0 <= O < M)%Z ->
  exists chunks,
    chunk_text text M O = Ok chunks /\
    Forall (fun c => (len (split c) <= M)%Z) chunks /\
    drop_overlaps O (map split chunks) = split text.
Proof.
  intros Hne HO. unfold chunk_text.
  destruct text as [|c t]; [simpl in Hne; congruence|].
  simpl truthy. simpl negb.
  cbv iota. rewrite py_range_pos by lia.
  set (words := split (String c t)) in *.
  set (idx := map _ _).
  exists (chunk_loop words M idx). split; [reflexivity|].
  rewrite chunk_loop_windows.
  assert (Hw : Forall (Forall is_word) (window_loop words M idx))
    by (apply window_loop_words, split_is_word).
  rewrite map_split_join by exact Hw.
  split.
  - assert (Hb : Forall (fun w => (len w <= M)%Z) (window_loop words M idx))
      by (apply window_loop_bounded; lia).
    clear - Hw Hb. induction Hw as [|w ws Hw1 Hws IH]; simpl; constructor.
    + inversion Hb; subst. rewrite split_join by exact Hw1. assumption.
    + inversion Hb; subst. apply IH; assumption.
  - apply window_loop_reconstructs; assumption.
Qed.

Lemma chunk_text_reconstructs_witness :
  split "alpha beta  gamma delta epsilon" <> [] /\
  (0 <= 1 < 3)%Z /\
  exists chunks,
    chunk_text "alpha beta  gamma delta epsilon" 3 1 = Ok chunks /\
    Forall (fun c => (len (split c) <= 3)%Z) chunks /\
    drop_overlaps 1 (map split chunks) =
    split "alpha beta  gamma delta epsilon".
Proof.
  split; [simpl; discriminate|].
  split; [lia|].
  apply chunk_text_reconstructs; [simpl; discriminate|lia].
Defined.

(** A text with at least one token is a non-empty string. *)
Lemma split_nonempty_truthy (text : string) :
  split text <> [] -> truthy text = true.
Proof. destruct text; simpl; [congruence|reflexivity]. Qed.

(** No token at all: the range is empty and so is the chunk sequence. *)
Lemma chunk_text_no_token (text : string) (M O : Z) :
  (O < M)%Z -> split text = [] -> chunk_text text M O = Ok [].
Proof.
  intros HO Hs. unfold chunk_text.
  destruct (truthy text); simpl; [|reflexivity].
  rewrite Hs, py_range_pos by lia.
  unfold range_len, len. simpl.
  destruct (0 <? M - O)%Z; reflexivity.
Qed.

(** C7 (amended): empty text gives no chunk; with 0 <= O < M a text of at
    most M tokens gives no chunk when it has no token and otherwise one
    chunk, the tokens joined by single blanks. *)
Theorem chunk_text_short (text : string) (M O : Z) :
  chunk_text EmptyString M O = Ok [] /\
  ((0 <= O < M)%Z -> (len (split text) <= M)%Z ->
   chunk_text text M O =
   Ok (match split text with
       | [] => []
       | _ :: _ => [join " " (split text)]
       end)).
Proof.
  split; [reflexivity|]. intros HO HL.
  destruct (split text) as [|w ws] eqn:Hs.
  - apply chunk_text_no_token; [lia|exact Hs].
  - rewrite <- Hs in *.
    assert (Hne : split text <> []) by (rewrite Hs; discriminate).
    unfold chunk_text. rewrite (split_nonempty_truthy _ Hne). simpl negb.
    cbv iota. rewrite py_range_pos by lia.
    assert (HL0 : (0 < len (split text))%Z)
      by (unfold len; rewrite Hs; simpl; lia).
    pose proof (range_len_pos (len (split text)) (M - O) ltac:(lia) HL0).
    destruct (Z.to_nat (range_len (len (split text)) (M - O)))
      as [|n] eqn:En; [lia|].
    cbn [seq map chunk_loop].
    change (Z.of_nat 0 * (M - O))%Z with 0%Z.
    destruct (Z.geb_spec (0 + M) (len (split text))) as [_|?]; [|lia].
    rewrite (py_slice_window (split text) 0 M) by lia.
    simpl skipn. rewrite firstn_all2 by (unfold len in *; lia).
    reflexivity.
Qed.

Lemma chunk_text_short_witness :
  (0 <= 100 < 1000)%Z /\ (len (split "a  b") <= 1000)%Z /\
  chunk_text EmptyString 1000 100 = Ok [] /\
  chunk_text "a  b" 1000 100 = Ok ["a b"].
Proof.
  split; [lia|]. split; [vm_compute; discriminate|].
  destruct (chunk_text_short "a  b" 1000 100) as [Hempty Hshort].
  split; [exact Hempty|].
  apply Hshort; [lia|vm_compute; discriminate].
Defined.

(** C7 as stated fails: a text of two tokens separated by two blanks is
    within the window, yet the one chunk returned is not the input text. *)
Lemma chunk_text_short_not_input :
  (len (split "a  b") <= 1000)%Z /\
  chunk_text "a  b" 1000 100 = Ok ["a b"] /\
  chunk_text "a  b" 1000 100 <> Ok ["a  b"].
Proof.
  split; [vm_compute; discriminate|].
  split; [reflexivity|]. vm_compute. discriminate.
Qed.

(** C8 (amended): with overlap >= max_size nothing is clamped; an overlap
    equal to max_size makes [range] raise [ValueError], a larger one makes
    the range empty and the result the empty chunk sequence. *)
Theorem chunk_text_invalid_overlap (text : string) (M O : Z) :
  text <> EmptyString -> (M <= O)%Z ->
  chunk_text text M O = if (O =? M)%Z then Raise ValueError else Ok [].
Proof.
  intros Hne HO. unfold chunk_text.
  destruct text as [|c t]; [congruence|]. simpl truthy. simpl negb. cbv iota.
  unfold py_range.
  destruct (Z.eqb_spec O M) as [->|Hneq].
  - rewrite Z.sub_diag. reflexivity.
  - destruct (Z.eqb_spec (M - O) 0) as [?|_]; [lia|].
    rewrite range_len_neg_step by (unfold len; lia).
    reflexivity.
Qed.

Lemma chunk_text_invalid_overlap_witness :
  "a b c" <> EmptyString /\ (2 <= 3)%Z /\ chunk_text "a b c" 2 3 = Ok [].
Proof.
  split; [discriminate|]. split; [lia|].
  apply (chunk_text_invalid_overlap "a b c" 2 3); [discriminate|lia].
Defined.

(** C8 as stated fails: overlap 3 on window 2 is neither rejected nor
    clamped to 1; the three-token text silently gets no chunk. *)
Lemma chunk_text_overlap_not_clamped :
  chunk_text "a b c" 2 3 = Ok [] /\
  chunk_text "a b c" 2 (2 - 1) = Ok ["a b"; "b c"].
Proof. split; reflexivity. Qed.

(** ** Sorting by decreasing similarity *)

Section SortDesc.

Context {A : Type} (key : A -> Q).

Lemma insert_desc_In (x y : A) (l : list A) :
  In y (insert_desc key x l) <-> y = x \/ In y l.
Proof.
  induction l as [|z l IH]; simpl.
  - intuition congruence.
  - destruct (Qle_bool (key z) (key x)); simpl; [intuition congruence|].
    rewrite IH. intuition congruence.
Qed.

Lemma sort_desc_In (y : A) (l : list A) :
  In y (sort_desc key l) <-> In y l.
Proof.
  induction l as [|x l IH]; simpl; [tauto|].
  rewrite insert_desc_In, IH. intuition congruence.
Qed.

Lemma insert_desc_length (x : A) (l : list A) :
  length (insert_desc key x l) = S (length l).
Proof.
  induction l as [|z l IH]; simpl; [reflexivity|].
  destruct (Qle_bool (key z) (key x)); simpl; congruence.
Qed.

Lemma sort_desc_length (l : list A) : length (sort_desc key l) = length l.
Proof.
  induction l as [|x l IH]; simpl; [reflexivity|].
  rewrite insert_desc_length, IH. reflexivity.
Qed.

Lemma insert_desc_sorted (x : A) (l : list A) :
  StronglySorted (desc key) l ->
  StronglySorted (desc key) (insert_desc key x l).
Proof.
  induction 1 as [|z l Hl IH Hz]; simpl.
  - constructor; constructor.
  - destruct (Qle_bool (key z) (key x)) eqn:E.
    + apply Qle_bool_iff in E.
      constructor; [constructor; assumption|].
      constructor; [exact E|].
      rewrite Forall_forall in Hz |- *. intros w Hw.
      unfold desc in *. eapply Qle_trans; [apply Hz, Hw|exact E].
    + assert (Hlt : (key x < key z)%Q).
      { apply Qnot_le_lt. intros H. apply Qle_bool_iff in H. congruence. }
      constructor; [exact IH|].
      rewrite Forall_forall in Hz |- *. intros w Hw.
      apply insert_desc_In in Hw. destruct Hw as [->|Hw].
      * unfold desc. apply Qlt_le_weak, Hlt.
      * apply Hz, Hw.
Qed.

Lemma sort_desc_sorted (l : list A) :
  StronglySorted (desc key) (sort_desc key l).
Proof.
  induction l as [|x l IH]; simpl; [constructor|].
  apply insert_desc_sorted, IH.
Qed.

End SortDesc.

Lemma firstn_In_keep {A} (n : nat) (l : list A) (x : A) :
  In x (firstn n l) -> In x l.
Proof.
  revert l; induction n as [|n IH]; intros [|y l]; simpl; try tauto.
  intros [->|H]; [left; reflexivity|right; apply IH, H].
Qed.

Lemma firstn_sorted {A} (R : A -> A -> Prop) (n : nat) (l : list A) :
  StronglySorted R l -> StronglySorted R (firstn n l).
Proof.
  intros H. revert n. induction H as [|x l Hl IH Hx]; intros [|n]; simpl;
    try constructor.
  - apply IH.
  - rewrite Forall_forall in Hx |- *. intros y Hy.
    apply Hx. eapply firstn_In_keep, Hy.
Qed.

(** ** Retrieval *)

Section Retrieval.

Context {vec : Type} (cosine_distance : vec -> vec -> Q).

Lemma document_results_length db v cs st limit thr :
  length (document_results cosine_distance db v cs st limit thr) <= limit.
Proof.
  unfold document_results. rewrite length_map, length_firstn. lia.
Qed.

Lemma news_results_length db v cs limit thr :
  length (news_results cosine_distance db v cs limit thr) <= limit.
Proof.
  unfold news_results. rewrite length_map, length_firstn. lia.
Qed.

Lemma document_results_threshold db v cs st limit thr x :
  In x (document_results cosine_distance db v cs st limit thr) ->
  (thr <= sr_similarity x)%Q.
Proof.
  unfold document_results. intros H.
  apply in_map_iff in H. destruct H as [[[c e] sim] [<- H]].
  apply firstn_In_keep, sort_desc_In, filter_In in H.
  destruct H as [_ H]. simpl in *. apply Qle_bool_iff, H.
Qed.

Lemma news_results_threshold db v cs limit thr x :
  In x (news_results cosine_distance db v cs limit thr) ->
  (thr <= sr_similarity x)%Q.
Proof.
  unfold news_results. intros H.
  apply in_map_iff in H. destruct H as [[[c n] sim] [<- H]].
  apply firstn_In_keep, sort_desc_In, filter_In in H.
  destruct H as [_ H]. simpl in *. apply Qle_bool_iff, H.
Qed.

Lemma partition_results_threshold db v cs st limit thr x :
  In x (partition_results cosine_distance db v cs st limit thr) ->
  (thr <= sr_similarity x)%Q.
Proof.
  unfold partition_results. intros H. apply in_app_or in H.
  destruct H as [H|H].
  - destruct (search_type_in st _); [|contradiction].
    eapply document_results_threshold, H.
  - destruct (search_type_in st _); [|contradiction].
    eapply news_results_threshold, H.
Qed.

Lemma semantic_search_sorted embedder db q cs st limit thr :
  StronglySorted (desc sr_similarity)
    (semantic_search cosine_distance embedder db q cs st limit thr).
Proof.
  unfold semantic_search.
  destruct embedder as [encode|]; [|constructor].
  destruct (query_embedding_of encode q); [|constructor].
  apply firstn_sorted, sort_desc_sorted.
Qed.

Lemma semantic_search_length embedder db q cs st limit thr :
  length (semantic_search cosine_distance embedder db q cs st limit thr)
  <= limit.
Proof.
  unfold semantic_search.
  destruct embedder as [encode|]; [|simpl; lia].
  destruct (query_embedding_of encode q); [|simpl; lia].
  rewrite length_firstn. lia.
Qed.

End Retrieval.

(** C4: no element of the list returned by [semantic_search] has a
    similarity strictly below the threshold. *)
Theorem semantic_search_respects_threshold
        (vec : Type) (cosine_distance : vec -> vec -> Q)
        (embedder : option (Embedder vec)) (db : Db vec) (query : string)
        (company_symbol : option string) (search_type : string)
        (limit : nat) (similarity_threshold : Q) :
  Forall (fun r => ~ (sr_similarity r < similarity_threshold)%Q)
    (semantic_search cosine_distance embedder db query company_symbol
       search_type limit similarity_threshold).
Proof.
  apply Forall_forall. intros x Hx. apply Qle_not_lt.
  unfold semantic_search in Hx.
  destruct embedder as [encode|]; [|contradiction].
  destruct (query_embedding_of encode query) as [v|]; [|contradiction].
  apply firstn_In_keep, sort_desc_In in Hx.
  eapply partition_results_threshold, Hx.
Qed.

(** ** The write path: stored rows *)

Section WritePath.

Context {vec : Type}.

Implicit Types (d : Db vec) (s : Session vec) (encode : Embedder vec).

Lemma append_document_chunks_nil d : append_document_chunks [] d = d.
Proof.
  destruct d. unfold append_document_chunks. simpl.
  rewrite app_nil_r. reflexivity.
Qed.

Lemma append_document_chunks_app rows1 rows2 d :
  append_document_chunks rows2 (append_document_chunks rows1 d) =
  append_document_chunks (rows1 ++ rows2) d.
Proof.
  unfold append_document_chunks. simpl. rewrite app_assoc. reflexivity.
Qed.

Lemma len_cons {A} (x : A) (l : list A) : len (x :: l) = (len l + 1)%Z.
Proof. unfold len. simpl length. lia. Qed.

Lemma len_app {A} (l1 l2 : list A) : len (l1 ++ l2) = (len l1 + len l2)%Z.
Proof. unfold len. rewrite length_app. lia. Qed.

(** The inner loop adds exactly [chunk_rows] and counts them. *)
Lemma store_document_chunks_spec id base ty (pairs : list (string * vec)) n s :
  store_document_chunks id base ty pairs n s =
  ({| committed := committed s;
      working :=
        append_document_chunks (chunk_rows id base ty pairs) (working s) |},
   Ok (n + len pairs)%Z).
Proof.
  unfold store_document_chunks, chunk_rows, enumerate.
  generalize 0%Z as st. revert n s.
  induction pairs as [|[t e] ps IH]; intros n s st.
  - simpl. unfold ret. rewrite append_document_chunks_nil.
    destruct s; simpl. f_equal. f_equal. unfold len. simpl. lia.
  - cbn [enumerate_from for_each map].
    unfold bind at 1. unfold bind at 1.
    unfold add_document_chunk, update_working. cbn [fst snd].
    unfold ret at 1. rewrite IH. cbn [committed working].
    rewrite append_document_chunks_app. cbn [app].
    rewrite len_cons. do 2 f_equal. lia.
Qed.

(** Positions and order of an enumeration. *)
Lemma enumerate_from_spec {A} (st : Z) (l : list A) :
  Forall (fun jp => (st <= fst jp)%Z /\
                    nth_error l (Z.to_nat (fst jp - st)) = Some (snd jp))
         (enumerate_from st l).
Proof.
  revert st. induction l as [|x l IH]; intros st; simpl; constructor.
  - simpl. split; [lia|]. rewrite Z.sub_diag. reflexivity.
  - eapply Forall_impl; [|apply (IH (st + 1)%Z)].
    intros [j y] [Hj Hn]. simpl in *. split; [lia|].
    replace (Z.to_nat (j - st)) with (S (Z.to_nat (j - (st + 1)))) by lia.
    exact Hn.
Qed.

Lemma enumerate_from_sorted {A} (st : Z) (l : list A) :
  StronglySorted (fun a b => (fst a < fst b)%Z) (enumerate_from st l).
Proof.
  revert st. induction l as [|x l IH]; intros st; simpl; constructor.
  - apply IH.
  - eapply Forall_impl; [|apply (enumerate_from_spec (st + 1)%Z l)].
    intros [j y] [Hj _]. simpl in *. lia.
Qed.

Lemma StronglySorted_map {A B} (R : B -> B -> Prop) (f : A -> B) (l : list A) :
  StronglySorted (fun a b => R (f a) (f b)) l -> StronglySorted R (map f l).
Proof.
  induction 1 as [|x l Hl IH Hx]; simpl; constructor; [exact IH|].
  apply Forall_map. exact Hx.
Qed.

Lemma StronglySorted_app {A} (R : A -> A -> Prop) (l1 l2 : list A) :
  StronglySorted R l1 -> StronglySorted R l2 ->
  (forall a b, In a l1 -> In b l2 -> R a b) ->
  StronglySorted R (l1 ++ l2).
Proof.
  intros H1 H2 H. induction H1 as [|x l Hl IH Hx]; simpl; [exact H2|].
  constructor.
  - apply IH. intros a b Ha Hb. apply H; [right; exact Ha|exact Hb].
  - apply Forall_app. split; [exact Hx|].
    apply Forall_forall. intros b Hb. apply H; [left; reflexivity|exact Hb].
Qed.

Lemma nth_error_combine_fst {A B} (l : list A) (l' : list B) j a b :
  nth_error (combine l l') j = Some (a, b) -> nth_error l j = Some a.
Proof.
  revert l' j. induction l as [|x l IH]; intros [|y l'] [|j]; simpl;
    try discriminate.
  - intros H; inversion H; reflexivity.
  - apply IH.
Qed.

Lemma length_combine_le {A B} (l : list A) (l' : list B) :
  length (combine l l') <= length l.
Proof. rewrite length_combine. lia. Qed.

(** The rows stored for a batch that is the part of [chunks] starting at
    position [base]: each sits at its own position, and they are in
    increasing index order. *)
Lemma chunk_rows_spec id base ty (chunks batch : list string)
      (embs : list vec) :
  (0 <= base)%Z ->
  (forall j t, nth_error batch j = Some t ->
               nth_error chunks (Z.to_nat base + j) = Some t) ->
  Forall (fun r => row_at id ty chunks r /\
                   (base <= dc_chunk_index r < base + len batch)%Z)
         (chunk_rows id base ty (combine batch embs)) /\
  StronglySorted index_lt (chunk_rows id base ty (combine batch embs)).
Proof.
  intros Hb Hpos. unfold chunk_rows, enumerate. split.
  - apply Forall_map.
    eapply Forall_impl; [|apply (enumerate_from_spec 0%Z)].
    intros [j [t e]] [Hj Hn]. cbn [fst snd] in *.
    rewrite Z.sub_0_r in Hn.
    assert (Hlt : Z.to_nat j < length batch).
    { assert (Hs : nth_error (combine batch embs) (Z.to_nat j) <> None)
        by congruence.
      apply nth_error_Some in Hs.
      pose proof (length_combine_le batch embs). lia. }
    unfold row_at. cbn. repeat split; try lia.
    + apply nth_error_combine_fst in Hn. apply Hpos in Hn.
      replace (Z.to_nat (base + j)) with (Z.to_nat base + Z.to_nat j) by lia.
      exact Hn.
    + unfold len. lia.
  - apply StronglySorted_map.
    pose proof (enumerate_from_sorted 0%Z (combine batch embs)) as H.
    induction H as [|x l Hl IH Hx]; constructor; [exact IH|].
    eapply Forall_impl; [|exact Hx].
    intros y Hy. unfold index_lt. simpl in *. lia.
Qed.

Lemma py_slice_positions {A} (l : list A) (i w : Z) j t :
  (0 <= i)%Z -> (0 <= w)%Z ->
  nth_error (py_slice l i (i + w)) j = Some t ->
  nth_error l (Z.to_nat i + j) = Some t.
Proof.
  intros Hi Hw. rewrite py_slice_window by assumption.
  rewrite nth_error_firstn. destruct (j <? Z.to_nat w); [|discriminate].
  rewrite nth_error_skipn. auto.
Qed.

Lemma length_enumerate_from {A} (st : Z) (l : list A) :
  length (enumerate_from st l) = length l.
Proof.
  revert st. induction l as [|x l IH]; intros st; simpl; [|rewrite IH];
    reflexivity.
Qed.

Lemma len_chunk_rows id base ty (pairs : list (string * vec)) :
  len (chunk_rows id base ty pairs) = len pairs.
Proof.
  unfold len, chunk_rows, enumerate.
  rewrite length_map, length_enumerate_from. reflexivity.
Qed.

Lemma session_settled s :
  working s = committed s ->
  s = {| committed := append_document_chunks [] (committed s);
         working := append_document_chunks [] (committed s) |}.
Proof.
  intros H. rewrite append_document_chunks_nil.
  destruct s; simpl in *; subst; reflexivity.
Qed.

(** One batch: either the encoder raises and nothing changes, or the rows
    of the batch are committed. *)
Lemma embed_batch_spec encode id chunks n i s :
  working s = committed s -> (0 <= i)%Z ->
  exists rows r,
    embed_batch encode id 10 chunks n i s =
    ({| committed := append_document_chunks rows (committed s);
        working := append_document_chunks rows (committed s) |}, r) /\
    Forall (fun row => row_at id "transcript" chunks row /\
                       (i <= dc_chunk_index row < i + 10)%Z) rows /\
    StronglySorted index_lt rows /\
    (r = Ok (n + len rows)%Z \/ exists e, r = Raise e).
Proof.
  intros Hs Hi. unfold embed_batch.
  set (batch := py_slice chunks i (i + 10)).
  unfold bind at 1. unfold lift at 1.
  destruct (encode batch) as [embs|e].
  - exists (chunk_rows id i "transcript" (combine batch embs)).
    exists (Ok (n + len (chunk_rows id i "transcript" (combine batch embs)))%Z).
    unfold bind at 1. rewrite store_document_chunks_spec.
    unfold bind, db_commit, ret. cbn [committed working].
    rewrite len_chunk_rows, Hs.
    split; [reflexivity|].
    destruct (chunk_rows_spec id i "transcript" chunks batch embs Hi)
      as [HF HS].
    { intros j t. apply py_slice_positions; lia. }
    split; [|split; [exact HS|left; reflexivity]].
    eapply Forall_impl; [|exact HF].
    intros row [Hrow Hidx]. split; [exact Hrow|].
    pose proof (py_slice_length chunks i 10 Hi ltac:(lia)). fold batch in H.
    lia.
  - exists [], (Raise e). split; [f_equal; apply session_settled, Hs|].
    split; [constructor|]. split; [constructor|]. right; eauto.
Qed.

(** The loop over batch starts [10k, 10(k+1), ...]: the rows it commits
    are transcript rows at their own positions, in increasing order. *)
Lemma embed_batches_spec encode id chunks m k n s :
  working s = committed s ->
  exists rows r,
    for_each (map (fun j => (Z.of_nat j * 10)%Z) (seq k m))
             (embed_batch encode id 10 chunks) n s =
    ({| committed := append_document_chunks rows (committed s);
        working := append_document_chunks rows (committed s) |}, r) /\
    Forall (fun row => row_at id "transcript" chunks row /\
                       (Z.of_nat k * 10 <= dc_chunk_index row)%Z) rows /\
    StronglySorted index_lt rows /\
    (r = Ok (n + len rows)%Z \/ exists e, r = Raise e).
Proof.
  revert k n s. induction m as [|m IH]; intros k n s Hs.
  - exists [], (Ok (n + len (@nil (DocumentChunk vec)))%Z). simpl.
    unfold ret. split.
    + f_equal; [apply session_settled, Hs|].
      f_equal. unfold len. simpl. lia.
    + split; [constructor|]. split; [constructor|]. left. reflexivity.
  - cbn [seq map for_each].
    destruct (embed_batch_spec encode id chunks n (Z.of_nat k * 10)%Z s Hs)
      as (rows1 & r1 & E1 & F1 & S1 & R1); [lia|].
    unfold bind at 1. rewrite E1.
    destruct R1 as [->|[e ->]].
    + set (s1 := {| committed := append_document_chunks rows1 (committed s);
                    working := append_document_chunks rows1 (committed s) |}).
      destruct (IH (S k) (n + len rows1)%Z s1 eq_refl)
        as (rows2 & r2 & E2 & F2 & S2 & R2).
      exists (rows1 ++ rows2), r2. rewrite E2. subst s1. cbn [committed].
      rewrite append_document_chunks_app.
      split; [reflexivity|]. split; [|split].
      * apply Forall_app. split.
        -- eapply Forall_impl; [|exact F1].
           intros row [? ?]. split; [assumption|lia].
        -- eapply Forall_impl; [|exact F2].
           intros row [? ?]. split; [assumption|lia].
      * apply StronglySorted_app; [exact S1|exact S2|].
        intros a b Ha Hb.
        rewrite Forall_forall in F1, F2.
        destruct (F1 a Ha) as [_ ?]. destruct (F2 b Hb) as [_ ?].
        unfold index_lt. lia.
      * destruct R2 as [->|[e ->]]; [left|right; eauto].
        rewrite len_app. f_equal. lia.
    + exists rows1, (Raise e). split; [reflexivity|].
      split; [|split; [exact S1|right; eauto]].
      eapply Forall_impl; [|exact F1].
      intros row [? ?]. split; [assumption|lia].
Qed.

(** The transcript phase. *)
Lemma embed_transcript_spec encode id t n s :
  working s = committed s ->
  exists rows r,
    embed_transcript encode id t n s =
    ({| committed := append_document_chunks rows (committed s);
        working := append_document_chunks rows (committed s) |}, r) /\
    Forall (row_at id "transcript" (chunks_or_nil (chunk_text t 1000 100)))
           rows /\
    StronglySorted index_lt rows /\
    (r = Ok (n + len rows)%Z \/ exists e, r = Raise e).
Proof.
  intros Hs. unfold embed_transcript.
  unfold bind at 1, lift at 1.
  destruct (chunk_text t 1000 100) as [chunks|e].
  - unfold bind at 1, lift at 1. rewrite py_range_pos by lia.
    destruct (embed_batches_spec encode id chunks
                (Z.to_nat (range_len (len chunks) 10)) 0 n s Hs)
      as (rows & r & E & F & S & R).
    exists rows, r. rewrite E. split; [reflexivity|].
    split; [|split; assumption].
    eapply Forall_impl; [|exact F]. intros row [H _]. exact H.
  - exists [], (Raise e). split; [f_equal; apply session_settled, Hs|].
    split; [constructor|]. split; [constructor|]. right; eauto.
Qed.

(** One summary: its rows, if any, carry the summary's tag and sit at
    their positions in the summary's own chunk sequence. *)
Lemma embed_summary_spec encode id n sm s :
  working s = committed s ->
  exists rows r,
    embed_summary encode id n sm s =
    ({| committed := append_document_chunks rows (committed s);
        working := append_document_chunks rows (committed s) |}, r) /\
    Forall (row_at id (summary_chunk_type sm) (summary_chunks sm)) rows /\
    StronglySorted index_lt rows /\
    (r = Ok (n + len rows)%Z \/ exists e, r = Raise e).
Proof.
  intros Hs.
  assert (Hskip : exists rows r,
    ret n s =
    ({| committed := append_document_chunks rows (committed s);
        working := append_document_chunks rows (committed s) |}, r) /\
    Forall (row_at id (summary_chunk_type sm) (summary_chunks sm)) rows /\
    StronglySorted index_lt rows /\
    (r = Ok (n + len rows)%Z \/ exists e, r = Raise e)).
  { exists [], (Ok n). unfold ret.
    split; [f_equal; apply session_settled, Hs|].
    split; [constructor|]. split; [constructor|]. left.
    f_equal. unfold len. simpl. lia. }
  unfold embed_summary.
  destruct (sm_content sm) as [content|] eqn:Ec; [|exact Hskip].
  destruct (truthy content); [|exact Hskip].
  unfold bind at 1, lift at 1.
  destruct (chunk_text content 500 100) as [chunks|e] eqn:Ech.
  - assert (summary_chunks sm = chunks) as ->
      by (unfold summary_chunks; rewrite Ec, Ech; reflexivity).
    unfold bind at 1, lift at 1.
    destruct (encode chunks) as [embs|e].
    + unfold bind at 1. rewrite store_document_chunks_spec.
      unfold bind, db_commit, ret. cbn [committed working].
      rewrite Hs.
      exists (chunk_rows id 0 (summary_chunk_type sm) (combine chunks embs)).
      eexists. split; [reflexivity|].
      destruct (chunk_rows_spec id 0 (summary_chunk_type sm) chunks chunks embs)
        as [HF HS]; [lia|intros j t H; exact H|].
      split; [|split; [exact HS|left]].
      * eapply Forall_impl; [|exact HF]. intros row [H _]. exact H.
      * rewrite len_chunk_rows. reflexivity.
    + exists [], (Raise e). split; [f_equal; apply session_settled, Hs|].
      split; [constructor|]. split; [constructor|]. right; eauto.
  - exists [], (Raise e). split; [f_equal; apply session_settled, Hs|].
    split; [constructor|]. split; [constructor|]. right; eauto.
Qed.

(** The loop over the summaries: the summaries reached ([done]) have one
    group of rows each. *)
Lemma embed_summaries_spec encode id (L : list Summary) n s :
  working s = committed s ->
  exists done rest groups r,
    L = done ++ rest /\
    for_each L (embed_summary encode id) n s =
    ({| committed := append_document_chunks (concat groups) (committed s);
        working := append_document_chunks (concat groups) (committed s) |},
     r) /\
    Forall2 (fun sm g =>
               Forall (row_at id (summary_chunk_type sm) (summary_chunks sm))
                      g /\
               StronglySorted index_lt g) done groups /\
    (r = Ok (n + len (concat groups))%Z \/ exists e, r = Raise e).
Proof.
  revert n s. induction L as [|sm L IH]; intros n s Hs.
  - exists [], [], [], (Ok n). simpl. unfold ret.
    split; [reflexivity|]. split; [f_equal; apply session_settled, Hs|].
    split; [constructor|]. left. f_equal. unfold len. simpl. lia.
  - cbn [for_each].
    destruct (embed_summary_spec encode id n sm s Hs)
      as (g & r1 & E1 & F1 & S1 & R1).
    unfold bind at 1. rewrite E1.
    destruct R1 as [->|[e ->]].
    + set (s1 := {| committed := append_document_chunks g (committed s);
                    working := append_document_chunks g (committed s) |}).
      destruct (IH (n + len g)%Z s1 eq_refl)
        as (done & rest & groups & r2 & EL & E2 & F2 & R2).
      exists (sm :: done), rest, (g :: groups), r2.
      rewrite E2. subst s1. cbn [committed concat].
      rewrite append_document_chunks_app.
      split; [simpl; congruence|]. split; [reflexivity|].
      split; [constructor; [split; assumption|exact F2]|].
      destruct R2 as [->|[e ->]]; [left|right; eauto].
      rewrite len_app. f_equal. lia.
    + exists [], (sm :: L), [], (Raise e). simpl.
      split; [reflexivity|].
      assert (g = []) as ->.
      { (* a raising step stores nothing *)
        clear - E1 Hs.
        unfold embed_summary in E1.
        destruct (sm_content sm) as [content|]; [|discriminate].
        destruct (truthy content); [|discriminate].
        unfold bind at 1, lift at 1 in E1.
        destruct (chunk_text content 500 100) as [chunks|e0].
        - unfold bind at 1, lift at 1 in E1.
          destruct (encode chunks) as [embs|e1].
          + unfold bind at 1 in E1. rewrite store_document_chunks_spec in E1.
            unfold bind, db_commit, ret in E1. discriminate.
          + injection E1 as E1 _.
            apply (f_equal (fun x => document_chunks (committed x))) in E1.
            simpl in E1. symmetry in E1.
            rewrite <- (app_nil_r (document_chunks (committed s))) in E1 at 2.
            apply app_inv_head in E1. exact E1.
        - injection E1 as E1 _.
          apply (f_equal (fun x => document_chunks (committed x))) in E1.
          simpl in E1. symmetry in E1.
          rewrite <- (app_nil_r (document_chunks (committed s))) in E1 at 2.
          apply app_inv_head in E1. exact E1. }
      split; [reflexivity|]. split; [constructor|]. right; eauto.
Qed.

End WritePath.

(** ** The write path: replacement *)

Section Replacement.
Context {vec : Type}.
Implicit Types (d : Db vec) (s : Session vec) (encode : Embedder vec).

(** Once the call is found, the run is the embedding phase started on
    the store without the call's old chunks. *)
Lemma add_earnings_embeddings_found encode id ct cs db call :
  find (fun c => (ec_id c =? id)%Z) (earnings_calls db) = Some call ->
  add_earnings_embeddings (Some encode) id ct cs db =
  (let '(s, r) :=
     try_except (embed_earnings_call encode id ct cs call)
       (fun _ => db_rollback ;;; ret 0%Z)%session
       {| committed := purge_document_chunks id db;
          working := purge_document_chunks id db |} in
   (committed s, r)).
Proof.
  intros Hfind.
  unfold add_earnings_embeddings, run_session, add_earnings_embeddings_body.
  unfold try_except at 1.
  unfold bind at 1. unfold query_earnings_call at 1. cbn [working].
  rewrite Hfind.
  unfold bind at 1. unfold delete_document_chunks at 1, update_working at 1.
  unfold bind at 1. unfold db_commit at 1. cbn [committed working].
  reflexivity.
Qed.

Lemma add_earnings_embeddings_not_found encode id ct cs db :
  find (fun c => (ec_id c =? id)%Z) (earnings_calls db) = None ->
  add_earnings_embeddings (Some encode) id ct cs db = (db, Ok 0%Z).
Proof.
  intros Hfind.
  unfold add_earnings_embeddings, run_session, add_earnings_embeddings_body.
  unfold try_except, bind, query_earnings_call. cbn [working].
  rewrite Hfind. reflexivity.
Qed.

(** The stored rows after a run on a call that exists. *)
Lemma add_earnings_embeddings_rows encode id ct cs db call :
  find (fun c => (ec_id c =? id)%Z) (earnings_calls db) = Some call ->
  exists T done rest groups n,
    add_earnings_embeddings (Some encode) id ct cs db =
    (append_document_chunks (T ++ concat groups)
       (purge_document_chunks id db), Ok n) /\
    summaries_of id db = done ++ rest /\
    Forall (row_at id "transcript" (transcript_chunks call)) T /\
    StronglySorted index_lt T /\
    Forall2 (fun sm g =>
               Forall (row_at id (summary_chunk_type sm) (summary_chunks sm))
                      g /\
               StronglySorted index_lt g) done groups /\
    (n = len (T ++ concat groups) \/ n = 0%Z).
Proof.
  intros Hfind.
  rewrite (add_earnings_embeddings_found encode id ct cs db call Hfind).
  unfold try_except, embed_earnings_call.
  set (s0 := {| committed := purge_document_chunks id db;
                working := purge_document_chunks id db |}).
  assert (P1 : exists T r1,
    (if ct && truthy_opt (ec_raw_transcript call)
     then embed_transcript encode id
            match ec_raw_transcript call with
            | Some t => t
            | None => EmptyString
            end 0%Z
     else ret 0%Z) s0 =
    ({| committed := append_document_chunks T (committed s0);
        working := append_document_chunks T (committed s0) |}, r1) /\
    Forall (row_at id "transcript" (transcript_chunks call)) T /\
    StronglySorted index_lt T /\
    (r1 = Ok (0 + len T)%Z \/ exists e, r1 = Raise e)).
  { destruct (ct && truthy_opt (ec_raw_transcript call)) eqn:Eg.
    - apply andb_prop in Eg. destruct Eg as [_ Etr].
      unfold transcript_chunks.
      destruct (ec_raw_transcript call) as [t|]; [|discriminate].
      apply embed_transcript_spec. reflexivity.
    - exists [], (Ok 0%Z). unfold ret.
      split; [f_equal; apply session_settled; reflexivity|].
      split; [constructor|]. split; [constructor|]. left. reflexivity. }
  destruct P1 as (T & r1 & E1 & FT & ST & R1).
  unfold bind at 1. rewrite E1. cbn [committed] in *.
  destruct R1 as [->|[e ->]].
  - set (s1 := {| committed := append_document_chunks T (committed s0);
                  working := append_document_chunks T (committed s0) |}).
    destruct cs.
    + unfold bind at 1. unfold query_summaries at 1.
      change (filter (fun x => (sm_earnings_call_id x =? id)%Z)
                     (summaries (working s1)))
        with (summaries_of id db).
      destruct (embed_summaries_spec encode id (summaries_of id db)
                  (0 + len T)%Z s1 eq_refl)
        as (done & rest & groups & r2 & EL & E2 & F2 & R2).
      rewrite E2. exists T, done, rest, groups.
      subst s1 s0. cbn [committed].
      rewrite append_document_chunks_app.
      destruct R2 as [->|[e ->]].
      * eexists. split; [reflexivity|].
        repeat (split; [assumption|]). left. rewrite len_app. lia.
      * exists 0%Z. split; [reflexivity|].
        repeat (split; [assumption|]). right. reflexivity.
    + exists T, [], (summaries_of id db), [], (0 + len T)%Z.
      unfold ret. subst s1 s0. cbn [committed concat].
      rewrite app_nil_r.
      split; [reflexivity|]. split; [reflexivity|].
      repeat (split; [assumption|]). split; [constructor|].
      left. lia.
  - exists T, [], (summaries_of id db), [], 0%Z.
    unfold bind, db_rollback, ret. subst s0. cbn [committed concat].
    rewrite app_nil_r.
    split; [reflexivity|]. split; [reflexivity|].
    repeat (split; [assumption|]). split; [constructor|].
    right. reflexivity.
Qed.
Lemma filter_keep_all {A} (f : A -> bool) (l : list A) :
  Forall (fun x => f x = true) l -> filter f l = l.
Proof.
  induction 1 as [|x l Hx _ IH]; simpl; [reflexivity|].
  rewrite Hx, IH. reflexivity.
Qed.

Lemma filter_drop_all {A} (f : A -> bool) (l : list A) :
  Forall (fun x => f x = false) l -> filter f l = [].
Proof.
  induction 1 as [|x l Hx _ IH]; simpl; [reflexivity|].
  rewrite Hx, IH. reflexivity.
Qed.

Lemma filter_negb_filter {A} (f : A -> bool) (l : list A) :
  filter f (filter (fun x => negb (f x)) l) = [].
Proof.
  apply filter_drop_all, Forall_forall. intros x Hx.
  apply filter_In in Hx. destruct Hx as [_ Hx].
  destruct (f x); [discriminate|reflexivity].
Qed.

Lemma filter_idem {A} (f : A -> bool) (l : list A) :
  filter f (filter f l) = filter f l.
Proof.
  apply filter_keep_all, Forall_forall. intros x Hx.
  apply filter_In in Hx. tauto.
Qed.

Lemma purge_document_chunks_idem id d :
  purge_document_chunks id (purge_document_chunks id d) =
  purge_document_chunks id d.
Proof.
  unfold purge_document_chunks. simpl. rewrite filter_idem. reflexivity.
Qed.

Lemma purge_append_own id rows d :
  Forall (fun r => dc_earnings_call_id r = id) rows ->
  purge_document_chunks id (append_document_chunks rows d) =
  purge_document_chunks id d.
Proof.
  intros H. unfold purge_document_chunks, append_document_chunks. simpl.
  rewrite filter_app.
  rewrite (filter_drop_all _ rows), app_nil_r; [reflexivity|].
  eapply Forall_impl; [|exact H]. intros r ->.
  rewrite Z.eqb_refl. reflexivity.
Qed.

Lemma chunks_of_replaced id rows d :
  Forall (fun r => dc_earnings_call_id r = id) rows ->
  chunks_of id (append_document_chunks rows (purge_document_chunks id d)) =
  rows.
Proof.
  intros H. unfold chunks_of, purge_document_chunks, append_document_chunks.
  simpl. rewrite filter_app, filter_negb_filter. simpl.
  apply filter_keep_all.
  eapply Forall_impl; [|exact H]. intros r ->. apply Z.eqb_refl.
Qed.

Lemma groups_own_rows id (done : list Summary)
      (groups : list (list (DocumentChunk vec))) :
  Forall2 (fun sm g =>
             Forall (row_at id (summary_chunk_type sm) (summary_chunks sm)) g /\
             StronglySorted index_lt g) done groups ->
  Forall (fun r => exists sm, In sm done /\
                   row_at id (summary_chunk_type sm) (summary_chunks sm) r)
         (concat groups).
Proof.
  induction 1 as [|sm g done groups [Hg _] _ IH]; simpl; [constructor|].
  apply Forall_app. split.
  - eapply Forall_impl; [|exact Hg]. intros r Hr. exists sm.
    split; [left; reflexivity|exact Hr].
  - eapply Forall_impl; [|exact IH]. intros r (sm' & Hin & Hr).
    exists sm'. split; [right; exact Hin|exact Hr].
Qed.

(** Rows in increasing index order have pairwise distinct keys. *)
Lemma sorted_rows_distinct_keys (g : list (DocumentChunk vec)) :
  StronglySorted index_lt g -> NoDup (map partition_key g).
Proof.
  induction 1 as [|r g Hg IH Hr]; simpl; constructor; [|exact IH].
  intros Hin. apply in_map_iff in Hin. destruct Hin as (r' & Hk & Hin').
  rewrite Forall_forall in Hr. specialize (Hr r' Hin').
  unfold index_lt in Hr. unfold partition_key in Hk.
  injection Hk as _ Hk. lia.
Qed.

Lemma groups_distinct_keys id (done : list Summary)
      (groups : list (list (DocumentChunk vec))) :
  NoDup (map summary_chunk_type done) ->
  Forall2 (fun sm g =>
             Forall (row_at id (summary_chunk_type sm) (summary_chunks sm)) g /\
             StronglySorted index_lt g) done groups ->
  NoDup (map partition_key (concat groups)).
Proof.
  intros Hnd H. induction H as [|sm g done groups [Hg Sg] Hrest IH];
    simpl; [constructor|].
  inversion Hnd as [|? ? Hnotin Hnd']; subst.
  rewrite map_app. apply NoDup_app.
  - apply sorted_rows_distinct_keys, Sg.
  - apply IH, Hnd'.
  - intros key Hin1 Hin2.
    apply in_map_iff in Hin1. destruct Hin1 as (r1 & <- & Hr1).
    apply in_map_iff in Hin2. destruct Hin2 as (r2 & Hk & Hr2).
    rewrite Forall_forall in Hg. destruct (Hg r1 Hr1) as (_ & Ht1 & _).
    pose proof (groups_own_rows id done groups Hrest) as Hown.
    rewrite Forall_forall in Hown.
    destruct (Hown r2 Hr2) as (sm' & Hin' & (_ & Ht2 & _)).
    apply Hnotin. apply in_map_iff. exists sm'. split; [|exact Hin'].
    unfold partition_key in Hk. injection Hk as Hk _. congruence.
Qed.

Lemma summary_tag_not_transcript (sm : Summary) :
  summary_chunk_type sm <> "transcript".
Proof. unfold summary_chunk_type. simpl. discriminate. Qed.

End Replacement.

Lemma rows_own_call {vec} id ty chunks (rows : list (DocumentChunk vec)) :
  Forall (row_at id ty chunks) rows ->
  Forall (fun r => dc_earnings_call_id r = id) rows.
Proof.
  intros H. eapply Forall_impl; [|exact H]. intros r [Hid _]. exact Hid.
Qed.

Lemma replaced_rows_own_call {vec} id call (T : list (DocumentChunk vec))
      (done : list Summary) groups :
  Forall (row_at id "transcript" (transcript_chunks call)) T ->
  Forall2 (fun sm g =>
             Forall (row_at id (summary_chunk_type sm) (summary_chunks sm)) g /\
             StronglySorted index_lt g) done groups ->
  Forall (fun r => dc_earnings_call_id r = id) (T ++ concat groups).
Proof.
  intros FT FG. apply Forall_app. split.
  - eapply rows_own_call, FT.
  - eapply Forall_impl; [|apply (groups_own_rows id done groups FG)].
    intros r (sm & _ & Hid & _). exact Hid.
Qed.

Lemma transcript_chunks_empty (call : EarningsCall) :
  truthy_opt (ec_raw_transcript call) = false -> transcript_chunks call = [].
Proof.
  unfold transcript_chunks. destruct (ec_raw_transcript call) as [[|c t]|];
    simpl; intros H; [reflexivity|discriminate|reflexivity].
Qed.

Lemma no_row_at_nil {vec} id ty (rows : list (DocumentChunk vec)) :
  Forall (row_at id ty []) rows -> rows = [].
Proof.
  destruct rows as [|r rows]; [reflexivity|].
  intros H. inversion H as [|? ? (_ & _ & _ & Hn) _]; subst.
  destruct (Z.to_nat (dc_chunk_index r)); discriminate.
Qed.

(** C6 as stated fails on the earnings path: the call has no transcript,
    yet the run returns 1, stores a new chunk row and the chunk stored
    before is gone. *)
Lemma empty_transcript_store_changes :
  map ec_raw_transcript (earnings_calls db_without_transcript) = [None] /\
  document_chunks db_without_transcript =
  [mkDocumentChunk 1 "old text" 0 "transcript" 8%Z] /\
  snd (add_earnings_embeddings (Some sample_encode) 1 true true
         db_without_transcript) = Ok 1%Z /\
  document_chunks
    (fst (add_earnings_embeddings (Some sample_encode) 1 true true
            db_without_transcript)) =
  [mkDocumentChunk 1 "Solid quarter" 0 "summary_executive" 13%Z].
Proof. repeat split; reflexivity. Qed.

(** ** Sentiment *)

Lemma lstrip_by_head (p : ascii -> bool) (s : string) :
  lstrip_by p s = EmptyString \/
  exists c r, lstrip_by p s = String c r /\ p c = false.
Proof.
  induction s as [|c s IH]; simpl; [left; reflexivity|].
  destruct (p c) eqn:Hc; [exact IH|].
  right. exists c, s. split; [reflexivity|exact Hc].
Qed.

Lemma rstrip_by_head (p : ascii -> bool) (c : ascii) (r : string) :
  p c = false -> exists r', rstrip_by p (String c r) = String c r'.
Proof.
  intros Hc. simpl. destruct (rstrip_by p r) as [|c' r'].
  - rewrite Hc. eauto.
  - eauto.
Qed.

Lemma split_head (c : ascii) (r : string) :
  is_space c = false -> split (String c r) <> [].
Proof.
  intros Hc. simpl. rewrite Hc.
  destruct (starts_word r); [destruct (split r)|]; discriminate.
Qed.

(** A non-empty stripped reply has a first word. *)
Lemma strip_truthy_split (raw : string) :
  truthy (strip raw) = true -> split (strip raw) <> [].
Proof.
  unfold strip, strip_by.
  destruct (lstrip_by_head is_space raw) as [E|(c & r & E & Hc)]; rewrite E.
  - simpl. discriminate.
  - destruct (rstrip_by_head is_space c r Hc) as (r' & E').
    rewrite E'. intros _. apply split_head, Hc.
Qed.

(** The reply is never the cause of an exception, and what is accepted is
    in the vocabulary. *)
Lemma accepted_reply_total (raw : string) :
  exists o, accepted_reply (strip raw) = Ok o /\
            forall w, o = Some w -> In w valid_sentiments.
Proof.
  unfold accepted_reply.
  destruct (truthy (strip raw)) eqn:Ht.
  - pose proof (strip_truthy_split raw Ht) as Hne.
    destruct (split (strip raw)) as [|w ws]; [congruence|].
    destruct (existsb _ valid_sentiments) eqn:Ev.
    + eexists. split; [reflexivity|]. intros w' Hw'. inversion Hw'; subst.
      apply existsb_exists in Ev. destruct Ev as (v & Hin & Heq).
      apply String.eqb_eq in Heq. subst. exact Hin.
    + exists None. split; [reflexivity|]. discriminate.
  - exists None. split; [reflexivity|]. discriminate.
Qed.

Lemma keyword_fallback_cases (p n u : Z) :
  (keyword_fallback p n u = "Positive" <-> (p > n /\ p > u)%Z) /\
  (keyword_fallback p n u = "Negative" <-> (n > p /\ n > u)%Z) /\
  (keyword_fallback p n u = "Neutral" <->
   ~ (p > n /\ p > u)%Z /\ ~ (n > p /\ n > u)%Z).
Proof.
  unfold keyword_fallback.
  destruct (Z.gtb_spec p n), (Z.gtb_spec p u), (Z.gtb_spec n p),
    (Z.gtb_spec n u); simpl; repeat split; intros; try discriminate;
    try lia; try reflexivity.
Qed.

Lemma keyword_fallback_range (p n u : Z) :
  In (keyword_fallback p n u) ["Positive"; "Negative"; "Neutral"].
Proof.
  unfold keyword_fallback.
  destruct (_ && _); [simpl; auto|].
  destruct (_ && _); simpl; auto.
Qed.

(** When nothing is accepted: the reply is empty, or its first word,
    trimmed and title-cased, is not a valid sentiment word. *)
Lemma accepted_reply_none (r : string) :
  accepted_reply r = Ok None <->
  r = EmptyString \/
  exists w ws,
    split r = w :: ws /\
    existsb (String.eqb (title (strip_chars ".,!?" w))) valid_sentiments
    = false.
Proof.
  unfold accepted_reply. destruct r as [|c r]; simpl truthy; cbv iota.
  - split; [left; reflexivity|reflexivity].
  - destruct (split (String c r)) as [|w ws].
    + split; [discriminate|].
      intros [?|(w & ws & ? & _)]; discriminate.
    + destruct (existsb _ valid_sentiments) eqn:Ev.
      * split; [discriminate|].
        intros [?|(w' & ws' & Hs & Hv)]; [discriminate|].
        injection Hs as <- _. congruence.
      * split; [|reflexivity]. intros _. right. exists w, ws. auto.
Qed.

Lemma valid_sentiments_words :
  Forall (fun w => w <> EmptyString /\ split w = [w]) valid_sentiments.
Proof. repeat constructor; discriminate. Qed.

(** C10: whatever the LLM replies, the sentiment of a call with a
    transcript is a non-empty single word of the twelve valid sentiment
    words; the six options of the prompt are among them, [Optimistic] is
    accepted without being an option, and the keyword fallback yields
    Positive, Negative or Neutral only. *)
Theorem sentiment_in_vocabulary
        (generate : Generate) (companies : list Company)
        (id : Z) (symbol quarter : string) (year : Z) (date : option string)
        (raw_transcript : string) :
  let call :=
    mkEarningsCall id symbol quarter year date (Some raw_transcript) in
  (exists w, determine_outlook_sentiment generate companies call = Ok w /\
             In w valid_sentiments /\ w <> EmptyString /\ split w = [w]) /\
  length valid_sentiments = 12 /\
  NoDup valid_sentiments /\
  length prompt_options = 6 /\
  incl prompt_options valid_sentiments /\
  (In "Optimistic" valid_sentiments /\ ~ In "Optimistic" prompt_options /\
   determine_outlook_sentiment (fun _ _ => "optimistic.") companies call =
   Ok "Optimistic") /\
  (forall p n u : Z,
      In (keyword_fallback p n u) ["Positive"; "Negative"; "Neutral"]).
Proof.
  intros call.
  assert (Hsub : incl ["Positive"; "Negative"; "Neutral"] valid_sentiments).
  { intros w Hw. simpl in Hw. simpl. intuition. }
  split.
  - assert (Hin : exists w,
               determine_outlook_sentiment generate companies call = Ok w /\
               In w valid_sentiments).
    { unfold determine_outlook_sentiment. subst call. cbn [ec_raw_transcript].
      match goal with
      | |- context [accepted_reply (strip ?r)] =>
          destruct (accepted_reply_total r) as (o & -> & Ho)
      end.
      destruct o as [w|].
      - exists w. split; [reflexivity|]. apply Ho. reflexivity.
      - eexists. split; [reflexivity|].
        apply Hsub, keyword_fallback_range. }
    destruct Hin as (w & E & Hw). exists w.
    split; [exact E|]. split; [exact Hw|].
    pose proof valid_sentiments_words as HF. rewrite Forall_forall in HF.
    apply HF, Hw.
  - split; [reflexivity|].
    split; [repeat constructor; simpl; intuition discriminate|].
    split; [reflexivity|].
    split; [intros w Hw; simpl in Hw; simpl; intuition|].
    split; [|apply keyword_fallback_range].
    split; [simpl; auto 10|].
    split; [simpl; intuition discriminate|].
    reflexivity.
Qed.

(** ** Worked examples *)

Example py_slice_ex :
  py_slice [1; 2; 3; 4; 5]%Z 1 (-1) = [2; 3; 4]%Z /\
  py_slice [1; 2; 3; 4; 5]%Z 3 10 = [4; 5]%Z /\
  py_slice [1; 2; 3; 4; 5]%Z 4 2 = [].
Proof. repeat split; reflexivity. Qed.

Example py_range_ex :
  py_range 25 10 = Ok [0; 10; 20]%Z /\
  py_range 20 10 = Ok [0; 10]%Z /\
  py_range 0 10 = Ok [] /\
  py_range 5 (-1) = Ok [] /\
  py_range 5 0 = Raise ValueError.
Proof. repeat split; reflexivity. Qed.

Example string_methods_ex :
  title "it's a bullISH-day" = "It'S A Bullish-Day" /\
  strip "  a b  " = "a b" /\
  strip_chars ".,!?" "..Positive!?" = "Positive" /\
  split_on "," "a,,b," = ["a"; EmptyString; "b"; EmptyString] /\
  lower "ABC xyz" = "abc xyz" /\
  contains "risk" "brisk" = true /\
  contains "ab" "a" = false.
Proof. repeat split; reflexivity. Qed.

Example like_summary_ex :
  like_summary "summary_executive" = true /\
  like_summary "summary" = false /\
  like_summary "transcript" = false.
Proof. repeat split; reflexivity. Qed.

(** Eleven transcript chunks, stored in two batches, are numbered 0 to 10;
    each holds 1000 one-letter words. *)
Example add_earnings_embeddings_batches :
  snd (add_earnings_embeddings (Some sample_encode) 2 true true db_long) =
  Ok 11%Z /\
  map (fun r => (dc_chunk_type r, dc_chunk_index r, dc_embedding r))
      (chunks_of 2
         (fst (add_earnings_embeddings (Some sample_encode) 2 true true
                 db_long))) =
  map (fun k => ("transcript", Z.of_nat k, 1999%Z)) (seq 0 11).
Proof. split; vm_compute; reflexivity. Qed.

Example add_earnings_embeddings_small :
  snd (add_earnings_embeddings (Some sample_encode) 1 true true db_small) =
  Ok 3%Z /\
  map partition_key
      (chunks_of 1
         (fst (add_earnings_embeddings (Some sample_encode) 1 true true
                 db_small))) =
  [("transcript", 0%Z); ("summary_executive", 0%Z);
   ("summary_outlook_sentiment", 0%Z)].
Proof. split; vm_compute; reflexivity. Qed.

(** An encoder that fails makes the run return 0 after the old chunks
    were deleted. *)
Example add_earnings_embeddings_failing_encoder :
  add_earnings_embeddings (Some (fun _ => Raise RuntimeError)) 1 true true
    db_small =
  (purge_document_chunks 1 db_small, Ok 0%Z).
Proof. vm_compute. reflexivity. Qed.

Example semantic_search_ex :
  map (fun r => (sr_content r, sr_type r))
      (semantic_search sample_distance (Some sample_encode) db_small
         "Revenue grew x" None "all" 2 (7 # 10)) =
  [("Solid quarter", "summary_executive"); ("Revenue grew", "transcript")] /\
  map sr_content
      (semantic_search sample_distance (Some sample_encode) db_small
         "Revenue grew x" None "news" 2 (7 # 10)) =
  ["ACME beats"] /\
  semantic_search sample_distance None db_small
    "Revenue grew x" None "all" 2 (7 # 10) = [].
Proof. repeat split; vm_compute; reflexivity. Qed.

Example determine_outlook_sentiment_ex :
  let call :=
    mkEarningsCall 1 "ACME" "Q1" 2024 None (Some transcript_5_1_2) in
  determine_outlook_sentiment (fun _ _ => " bearish, we think") [] call =
  Ok "Bearish" /\
  determine_outlook_sentiment (fun _ _ => "Great!") [] call =
  Ok "Positive" /\
  determine_outlook_sentiment (fun _ _ => "Great!") []
    (mkEarningsCall 1 "ACME" "Q1" 2024 None None) = Raise AttributeError.
Proof. repeat split; vm_compute; reflexivity. Qed.

(** ** The shape of the chunk sequence *)

Lemma chunk_break_index (L M O : Z) (k : nat) :
  (0 <= O < M)%Z ->
  k <= Z.to_nat ((L - O - 1) / (M - O)) ->
  ((Z.of_nat k * (M - O) + M >=? L)%Z = true <->
   k = Z.to_nat ((L - O - 1) / (M - O))).
Proof.
  intros HO Hk.
  assert (Hs : (0 < M - O)%Z) by lia.
  pose proof (Z.mul_div_le (L - O - 1) (M - O) Hs) as Hlo.
  pose proof (Z.mul_succ_div_gt (L - O - 1) (M - O) Hs) as Hhi.
  set (q := ((L - O - 1) / (M - O))%Z) in *.
  rewrite Z.geb_le. split.
  - intros H. destruct (Z_lt_ge_dec q 0) as [Hq|Hq]; [lia|].
    assert (Z.of_nat k <= q)%Z by lia.
    destruct (Z.eq_dec (Z.of_nat k) q) as [E|E]; [lia|].
    assert (Z.of_nat k + 1 <= q)%Z by lia.
    assert ((Z.of_nat k + 1) * (M - O) <= q * (M - O))%Z
      by (apply Z.mul_le_mono_nonneg_r; lia).
    lia.
  - intros ->. destruct (Z_lt_ge_dec q 0) as [Hq|Hq].
    + replace (Z.to_nat q) with 0 by lia.
      assert ((M - O) * Z.succ q <= 0)%Z by nia. lia.
    + rewrite Z2Nat.id by lia. lia.
Qed.

(** The loop, from index [k] on, yields the windows [k .. K]. *)
Lemma window_loop_shape (words : list string) (M O : Z) (m k : nat) :
  (0 <= O < M)%Z ->
  k <= Z.to_nat ((len words - O - 1) / (M - O)) ->
  Z.to_nat ((len words - O - 1) / (M - O)) < k + m ->
  window_loop words M
    (map (fun j => (Z.of_nat j * (M - O))%Z) (seq k m)) =
  map (window words M O)
      (seq k (S (Z.to_nat ((len words - O - 1) / (M - O))) - k)).
Proof.
  intros HO. revert k. induction m as [|m IH]; intros k Hk Hm; [lia|].
  cbn [seq map window_loop].
  rewrite py_slice_window by nia.
  destruct (Z.of_nat k * (M - O) + M >=? len words)%Z eqn:E.
  - apply (chunk_break_index (len words) M O k HO Hk) in E. rewrite <- E.
    replace (S k - k) with 1 by lia. reflexivity.
  - assert (k <> Z.to_nat ((len words - O - 1) / (M - O)))
      by (intros H; apply (chunk_break_index (len words) M O k HO Hk) in H;
          congruence).
    rewrite IH by lia.
    replace (S (Z.to_nat ((len words - O - 1) / (M - O))) - k)
      with (S (S (Z.to_nat ((len words - O - 1) / (M - O))) - S k)) by lia.
    reflexivity.
Qed.

Lemma range_covers_windows (L M O : Z) :
  (0 <= O < M)%Z -> (0 < L)%Z ->
  Z.to_nat ((L - O - 1) / (M - O)) < Z.to_nat (range_len L (M - O)).
Proof.
  intros HO HL. unfold range_len.
  destruct (Z.ltb_spec 0 (M - O)) as [Hs|?]; [|lia].
  destruct (Z.ltb_spec 0 L) as [_|?]; [|lia].
  assert ((L - O - 1) / (M - O) <= (L - 1) / (M - O))%Z
    by (apply Z.div_le_mono; lia).
  pose proof (Z.div_pos (L - 1) (M - O)). lia.
Qed.

(** The token windows that [chunk_text] joins. *)
Lemma chunk_text_window_list (text : string) (M O : Z) :
  split text <> [] -> (0 <= O < M)%Z ->
  chunk_text text M O =
  Ok (map (fun k => join " " (window (split text) M O k))
          (seq 0 (chunk_count (len (split text)) M O))).
Proof.
  intros Hne HO. unfold chunk_text.
  rewrite (split_nonempty_truthy _ Hne). simpl negb. cbv iota.
  rewrite py_range_pos by lia. rewrite chunk_loop_windows.
  assert (HL : (0 < len (split text))%Z)
    by (unfold len; destruct (split text); [congruence|simpl; lia]).
  rewrite (window_loop_shape (split text) M O _ 0 HO);
    [|lia|apply range_covers_windows; assumption].
  rewrite Nat.sub_0_r, map_map. reflexivity.
Qed.

(** X1: for a text with at least one token and 0 <= O < M, [chunk_text]
    returns exactly max(0, (L - O - 1) / (M - O)) + 1 chunks, L the number
    of tokens, and chunk number k is the tokens at positions
    k(M-O) .. k(M-O)+M-1 (as far as they exist) joined by single blanks. *)
Theorem chunk_text_windows (text : string) (M O : Z) :
  split text <> [] -> (0 <= O < M)%Z ->
  exists chunks,
    chunk_text text M O = Ok chunks /\
    Z.of_nat (length chunks) =
    (Z.max 0 ((len (split text) - O - 1) / (M - O)) + 1)%Z /\
    forall k, k < length chunks ->
      nth_error chunks k =
      Some (join " "
              (py_slice (split text) (Z.of_nat k * (M - O))
                        (Z.of_nat k * (M - O) + M))).
Proof.
  intros Hne HO. eexists. split; [apply chunk_text_window_list; assumption|].
  rewrite length_map, length_seq. split.
  - unfold chunk_count. lia.
  - intros k Hk. rewrite nth_error_map, nth_error_seq.
    apply Nat.ltb_lt in Hk. rewrite Hk. cbn [option_map Nat.add].
    rewrite py_slice_window by nia. reflexivity.
Qed.

Lemma chunk_text_windows_witness :
  split "a b c d e f g" <> [] /\ (0 <= 2 < 3)%Z /\
  exists chunks,
    chunk_text "a b c d e f g" 3 2 = Ok chunks /\
    Z.of_nat (length chunks) =
    (Z.max 0 ((len (split "a b c d e f g") - 2 - 1) / (3 - 2)) + 1)%Z /\
    forall k, k < length chunks ->
      nth_error chunks k =
      Some (join " "
              (py_slice (split "a b c d e f g") (Z.of_nat k * (3 - 2))
                        (Z.of_nat k * (3 - 2) + 3))).
Proof.
  split; [simpl; discriminate|]. split; [lia|].
  apply (chunk_text_windows "a b c d e f g" 3 2); [simpl; discriminate|lia].
Defined.

Lemma window_words (words : list string) (M O : Z) (k : nat) :
  Forall is_word words -> Forall is_word (window words M O k).
Proof.
  intros H. unfold window. apply Forall_firstn_keep, Forall_skipn_keep, H.
Qed.

Lemma window_length (words : list string) (M O : Z) (k : nat) :
  length (window words M O k) =
  Nat.min (Z.to_nat M) (length words - Z.to_nat (Z.of_nat k * (M - O))).
Proof. unfold window. rewrite length_firstn, length_skipn. reflexivity. Qed.

(** Sizes of the windows: full before the last, and each later one has
    more than the overlap. *)
Lemma window_sizes (words : list string) (M O : Z) (k : nat) :
  words <> [] -> (0 <= O < M)%Z ->
  k <= Z.to_nat ((len words - O - 1) / (M - O)) ->
  (1 <= len (window words M O k))%Z /\
  (k < Z.to_nat ((len words - O - 1) / (M - O)) ->
   len (window words M O k) = M) /\
  (0 < k -> (O < len (window words M O k))%Z).
Proof.
  intros Hne HO Hk.
  assert (HL : (0 < len words)%Z)
    by (unfold len; destruct words; [congruence|simpl; lia]).
  assert (Hfull : forall j,
             j < Z.to_nat ((len words - O - 1) / (M - O)) ->
             (Z.of_nat j * (M - O) + M < len words)%Z).
  { intros j Hj.
    destruct (Z.geb_spec (Z.of_nat j * (M - O) + M) (len words)) as [E|E];
      [|exact E].
    apply Z.geb_le in E.
    apply (chunk_break_index (len words) M O j HO) in E; lia. }
  assert (Hlater : 0 < k -> (Z.of_nat k * (M - O) + O < len words)%Z).
  { intros Hpos. specialize (Hfull (k - 1) ltac:(lia)).
    replace (Z.of_nat (k - 1)) with (Z.of_nat k - 1)%Z in Hfull by lia.
    lia. }
  unfold len in *. rewrite window_length.
  assert (0 <= Z.of_nat k * (M - O))%Z by nia.
  split; [|split].
  - destruct k as [|k']; [simpl; lia|].
    specialize (Hlater ltac:(lia)). lia.
  - intros Hlt. specialize (Hfull k Hlt). lia.
  - intros Hpos. specialize (Hlater Hpos). lia.
Qed.

(** X2: for a text with at least one token and 0 <= O < M, no chunk of
    [chunk_text] is empty, every chunk but the last has exactly M tokens,
    and every chunk after the first has more than O tokens, so that it
    brings at least one token the chunk before it does not end with. *)
Theorem chunk_text_chunk_sizes (text : string) (M O : Z) :
  split text <> [] -> (0 <= O < M)%Z ->
  exists chunks,
    chunk_text text M O = Ok chunks /\
    chunks <> [] /\
    forall k c, nth_error chunks k = Some c ->
      (1 <= len (split c))%Z /\
      (S k < length chunks -> len (split c) = M) /\
      (0 < k -> (O < len (split c))%Z).
Proof.
  intros Hne HO. eexists. split; [apply chunk_text_window_list; assumption|].
  split; [unfold chunk_count; simpl; discriminate|].
  intros k c Hc. rewrite length_map, length_seq.
  rewrite nth_error_map, nth_error_seq in Hc.
  unfold chunk_count in *.
  destruct (k <? S _) eqn:Hk; [|discriminate].
  apply Nat.ltb_lt in Hk. cbn [option_map Nat.add] in Hc.
  injection Hc as <-.
  rewrite split_join by (apply window_words, split_is_word).
  destruct (window_sizes (split text) M O k Hne HO ltac:(lia))
    as (H1 & H2 & H3).
  split; [exact H1|]. split; [|exact H3].
  intros Hlt. apply H2. lia.
Qed.

Lemma chunk_text_chunk_sizes_witness :
  split "a b c d e" <> [] /\ (0 <= 1 < 3)%Z /\
  exists chunks,
    chunk_text "a b c d e" 3 1 = Ok chunks /\
    chunks <> [] /\
    forall k c, nth_error chunks k = Some c ->
      (1 <= len (split c))%Z /\
      (S k < length chunks -> len (split c) = 3%Z) /\
      (0 < k -> (1 < len (split c))%Z).
Proof.
  split; [simpl; discriminate|]. split; [lia|].
  apply (chunk_text_chunk_sizes "a b c d e" 3 1); [simpl; discriminate|lia].
Defined.

(** X3: consecutive chunks share exactly the overlap: the tokens of a
    chunk after its first M - O are the first O tokens of the next chunk. *)
Theorem chunk_text_consecutive_overlap (text : string) (M O : Z) :
  split text <> [] -> (0 <= O < M)%Z ->
  exists chunks,
    chunk_text text M O = Ok chunks /\
    forall k c c',
      nth_error chunks k = Some c ->
      nth_error chunks (S k) = Some c' ->
      skipn (Z.to_nat (M - O)) (split c) = firstn (Z.to_nat O) (split c') /\
      len (firstn (Z.to_nat O) (split c')) = O.
Proof.
  intros Hne HO. eexists. split; [apply chunk_text_window_list; assumption|].
  intros k c c' Hc Hc'.
  rewrite nth_error_map, nth_error_seq in Hc, Hc'.
  unfold chunk_count in *.
  destruct (k <? S _) eqn:Hk; [|discriminate].
  destruct (S k <? S _) eqn:Hk'; [|discriminate].
  apply Nat.ltb_lt in Hk, Hk'. cbn [option_map Nat.add] in Hc, Hc'.
  injection Hc as <-. injection Hc' as <-.
  rewrite !split_join by (apply window_words, split_is_word).
  destruct (window_sizes (split text) M O (S k) Hne HO ltac:(lia))
    as (_ & _ & H3). specialize (H3 ltac:(lia)).
  split.
  - unfold window. rewrite skipn_firstn_comm, skipn_skipn, firstn_firstn.
    assert (0 <= Z.of_nat k * (M - O))%Z by nia.
    replace (Z.to_nat (M - O) + Z.to_nat (Z.of_nat k * (M - O)))
      with (Z.to_nat (Z.of_nat (S k) * (M - O))) by lia.
    f_equal. lia.
  - unfold len in *. rewrite length_firstn. lia.
Qed.

Lemma chunk_text_consecutive_overlap_witness :
  split "a b c d e" <> [] /\ (0 <= 1 < 3)%Z /\
  exists chunks,
    chunk_text "a b c d e" 3 1 = Ok chunks /\
    forall k c c',
      nth_error chunks k = Some c ->
      nth_error chunks (S k) = Some c' ->
      skipn (Z.to_nat (3 - 1)) (split c) = firstn (Z.to_nat 1) (split c') /\
      len (firstn (Z.to_nat 1) (split c')) = 1%Z.
Proof.
  split; [simpl; discriminate|]. split; [lia|].
  apply (chunk_text_consecutive_overlap "a b c d e" 3 1);
    [simpl; discriminate|lia].
Defined.

(** A list of at most M words, joined, is its own single chunk. *)
Lemma chunk_text_single (ws : list string) (M O : Z) :
  ws <> [] -> Forall is_word ws -> (len ws <= M)%Z -> (0 <= O < M)%Z ->
  chunk_text (join " " ws) M O = Ok [join " " ws].
Proof.
  intros Hne Hw HL HO.
  assert (Hs : split (join " " ws) = ws) by (apply split_join, Hw).
  assert (Hne' : split (join " " ws) <> []) by (rewrite Hs; exact Hne).
  rewrite (chunk_text_window_list _ M O Hne' HO). rewrite Hs.
  assert (HL0 : (0 < len ws)%Z)
    by (unfold len; destruct ws; [congruence|simpl; lia]).
  assert (Hq : Z.to_nat ((len ws - O - 1) / (M - O)) = 0).
  { destruct (Z_lt_ge_dec (len ws - O - 1) 0) as [Hn|Hn].
    - assert ((len ws - O - 1) / (M - O) < 0)%Z
        by (apply Z.div_lt_upper_bound; lia). lia.
    - rewrite Z.div_small by lia. reflexivity. }
  unfold chunk_count. rewrite Hq. cbn [seq map].
  unfold window. simpl skipn.
  rewrite firstn_all2 by (unfold len in *; lia). reflexivity.
Qed.

(** X4: chunking any chunk again with the same window and overlap gives
    back that chunk alone. *)
Theorem chunk_text_rechunk (text : string) (M O : Z) :
  split text <> [] -> (0 <= O < M)%Z ->
  exists chunks,
    chunk_text text M O = Ok chunks /\
    Forall (fun c => chunk_text c M O = Ok [c]) chunks.
Proof.
  intros Hne HO. eexists. split; [apply chunk_text_window_list; assumption|].
  apply Forall_map, Forall_forall. intros k Hk. apply in_seq in Hk.
  unfold chunk_count in Hk.
  destruct (window_sizes (split text) M O k Hne HO ltac:(lia))
    as (H1 & _ & _).
  apply chunk_text_single; [| |  |exact HO].
  - intros E. rewrite E in H1. unfold len in H1. simpl in H1. lia.
  - apply window_words, split_is_word.
  - unfold len. rewrite window_length. lia.
Qed.

Lemma chunk_text_rechunk_witness :
  split "a b c d e" <> [] /\ (0 <= 1 < 3)%Z /\
  exists chunks,
    chunk_text "a b c d e" 3 1 = Ok chunks /\
    Forall (fun c => chunk_text c 3 1 = Ok [c]) chunks.
Proof.
  split; [simpl; discriminate|]. split; [lia|].
  apply (chunk_text_rechunk "a b c d e" 3 1); [simpl; discriminate|lia].
Defined.

(** ** The write path: what a run leaves alone *)

Lemma filter_filter_other {A} (f g : A -> bool) (l : list A) :
  (forall x, f x = true -> g x = true) ->
  filter f (filter g l) = filter f l.
Proof.
  intros H. induction l as [|x l IH]; simpl; [reflexivity|].
  destruct (g x) eqn:Eg; simpl.
  - rewrite IH. reflexivity.
  - destruct (f x) eqn:Ef; [|exact IH].
    apply H in Ef. congruence.
Qed.

Lemma chunks_of_other_call {vec} (id id' : Z)
      (rows : list (DocumentChunk vec)) (d : Db vec) :
  id' <> id ->
  Forall (fun r => dc_earnings_call_id r = id) rows ->
  chunks_of id' (append_document_chunks rows (purge_document_chunks id d)) =
  chunks_of id' d.
Proof.
  intros Hne H. unfold chunks_of, append_document_chunks,
    purge_document_chunks. simpl.
  rewrite filter_app, (filter_drop_all _ rows), app_nil_r.
  - apply filter_filter_other. intros x Hx.
    apply Z.eqb_eq in Hx. rewrite Hx.
    destruct (Z.eqb_spec id' id); [contradiction|reflexivity].
  - eapply Forall_impl; [|exact H]. intros r ->.
    destruct (Z.eqb_spec id id'); [congruence|reflexivity].
Qed.

(** X5: whatever the embedder does, a run of [add_earnings_embeddings] for
    one call changes no table but [document_chunks], and in it no chunk
    of another call. *)
Theorem add_earnings_embeddings_frame
        (vec : Type) (embedder : option (Embedder vec)) (id : Z)
        (ct cs : bool) (db : Db vec) :
  let db' := fst (add_earnings_embeddings embedder id ct cs db) in
  earnings_calls db' = earnings_calls db /\
  summaries db' = summaries db /\
  financial_news db' = financial_news db /\
  news_chunks db' = news_chunks db /\
  forall id', id' <> id -> chunks_of id' db' = chunks_of id' db.
Proof.
  intros db'. subst db'.
  destruct embedder as [encode|]; [|simpl; auto].
  destruct (find (fun c => (ec_id c =? id)%Z) (earnings_calls db))
    as [call|] eqn:Hfind.
  - destruct (add_earnings_embeddings_rows encode id ct cs db call Hfind)
      as (T & done & rest & groups & n & E & EL & FT & ST & FG & _).
    rewrite E. cbn [fst]. repeat (split; [reflexivity|]).
    intros id' Hne. apply chunks_of_other_call; [exact Hne|].
    eapply replaced_rows_own_call; eassumption.
  - rewrite (add_earnings_embeddings_not_found encode id ct cs db Hfind).
    simpl. auto.
Qed.

Lemma add_earnings_embeddings_frame_witness :
  2%Z <> 1%Z /\
  chunks_of 2
    (fst (add_earnings_embeddings (Some sample_encode) 1 true true
            db_small)) =
  chunks_of 2 db_small.
Proof.
  split; [discriminate|].
  apply (add_earnings_embeddings_frame Z (Some sample_encode) 1 true true
           db_small).
  discriminate.
Defined.

(** ** The write path with an embedder that answers every text *)

Lemma firstn_plus {A} (a b : nat) (l : list A) :
  firstn (a + b) l = firstn a l ++ firstn b (skipn a l).
Proof.
  revert l. induction a as [|a IH]; intros l; [reflexivity|].
  destruct l as [|x l]; simpl.
  - rewrite firstn_nil. reflexivity.
  - rewrite IH. reflexivity.
Qed.

Lemma enumerate_from_app {A} (st : Z) (l1 l2 : list A) :
  enumerate_from st (l1 ++ l2) =
  enumerate_from st l1 ++ enumerate_from (st + len l1) l2.
Proof.
  revert st. induction l1 as [|x l1 IH]; intros st; simpl.
  - unfold len. simpl. rewrite Z.add_0_r. reflexivity.
  - rewrite IH. rewrite len_cons. do 3 f_equal. lia.
Qed.

Lemma labelled_from_app ty (st : Z) (l1 l2 : list string) :
  labelled_from ty st (l1 ++ l2) =
  labelled_from ty st l1 ++ labelled_from ty (st + len l1) l2.
Proof.
  unfold labelled_from. rewrite enumerate_from_app, map_app. reflexivity.
Qed.

Lemma len_labelled_from ty st l : len (labelled_from ty st l) = len l.
Proof.
  unfold len, labelled_from. rewrite length_map, length_enumerate_from.
  reflexivity.
Qed.

(** With as many vectors as texts, the stored rows are the texts with
    their positions. *)
Lemma chunk_rows_labels {vec} id base ty (batch : list string)
      (embs : list vec) :
  length embs = length batch ->
  map row_label (chunk_rows id base ty (combine batch embs)) =
  labelled_from ty base batch.
Proof.
  intros Hlen. unfold chunk_rows, labelled_from, enumerate.
  rewrite map_map. unfold row_label. cbn [dc_chunk_type dc_chunk_index
    dc_chunk_text].
  assert (H : forall st,
    map (fun jp : Z * (string * vec) =>
           (ty, (base + fst jp)%Z, fst (snd jp)))
        (enumerate_from st (combine batch embs)) =
    map (fun jt : Z * string => (ty, fst jt, snd jt))
        (enumerate_from (base + st) batch)).
  { revert embs Hlen.
    induction batch as [|t batch IH]; intros [|e embs] Hlen st;
      simpl in *; try discriminate; [reflexivity|].
    f_equal. rewrite IH by lia. do 2 f_equal. lia. }
  rewrite H. do 2 f_equal. lia.
Qed.

Section Complete.

Context {vec : Type} (encode : Embedder vec).
Hypothesis Hencode : one_vector_per_text encode.

Lemma embed_batches_complete id chunks m k n (s : Session vec) :
  working s = committed s ->
  exists rows,
    for_each (map (fun j => (Z.of_nat j * 10)%Z) (seq k m))
             (embed_batch encode id 10 chunks) n s =
    ({| committed := append_document_chunks rows (committed s);
        working := append_document_chunks rows (committed s) |},
     Ok (n + len rows)%Z) /\
    Forall (fun r => dc_earnings_call_id r = id) rows /\
    map row_label rows =
    labelled_from "transcript" (Z.of_nat k * 10)
      (firstn (m * 10) (skipn (k * 10) chunks)).
Proof.
  revert k n s. induction m as [|m IH]; intros k n s Hs.
  - exists []. simpl. unfold ret. split.
    + f_equal; [apply session_settled, Hs|].
      f_equal. unfold len. simpl. lia.
    + split; [constructor|reflexivity].
  - cbn [seq map for_each].
    unfold bind at 1. unfold embed_batch at 1.
    unfold bind at 1, lift at 1.
    set (batch := py_slice chunks (Z.of_nat k * 10) (Z.of_nat k * 10 + 10)).
    destruct (Hencode batch) as (embs & Eenc & Hlen). rewrite Eenc.
    unfold bind at 1. rewrite store_document_chunks_spec.
    unfold bind at 1, db_commit at 1. unfold ret at 1.
    cbn [committed working]. rewrite Hs.
    set (rows1 := chunk_rows id (Z.of_nat k * 10) "transcript"
                    (combine batch embs)).
    set (s1 := {| committed := append_document_chunks rows1 (committed s);
                  working := append_document_chunks rows1 (committed s) |}).
    destruct (IH (S k) (n + len (combine batch embs))%Z s1 eq_refl)
      as (rows2 & E2 & F2 & L2).
    exists (rows1 ++ rows2). rewrite E2. subst s1. cbn [committed].
    rewrite append_document_chunks_app.
    assert (Hbatch : batch = firstn 10 (skipn (k * 10) chunks)).
    { subst batch. rewrite py_slice_window by lia.
      f_equal. f_equal. lia. }
    split; [|split].
    + f_equal. f_equal. rewrite len_app.
      subst rows1. rewrite len_chunk_rows. lia.
    + apply Forall_app. split; [|exact F2].
      subst rows1. unfold chunk_rows. apply Forall_map, Forall_forall.
      intros; reflexivity.
    + rewrite map_app, L2. subst rows1.
      rewrite chunk_rows_labels by exact Hlen.
      replace (S m * 10) with (10 + m * 10) by lia.
      rewrite firstn_plus, labelled_from_app, skipn_skipn, <- Hbatch.
      f_equal.
      replace (10 + k * 10) with (S k * 10) by lia.
      destruct (firstn (m * 10) (skipn (S k * 10) chunks)) as [|x rest] eqn:Er;
        [reflexivity|].
      f_equal.
      assert (Hlong : S k * 10 < length chunks).
      { destruct (Nat.lt_ge_cases (S k * 10) (length chunks)) as [H|H];
          [exact H|].
        rewrite skipn_all2, firstn_nil in Er by exact H. discriminate. }
      unfold len. rewrite Hbatch, length_firstn, length_skipn. lia.
Qed.

Lemma embed_transcript_complete id t n (s : Session vec) :
  working s = committed s ->
  exists rows,
    embed_transcript encode id t n s =
    ({| committed := append_document_chunks rows (committed s);
        working := append_document_chunks rows (committed s) |},
     Ok (n + len rows)%Z) /\
    Forall (fun r => dc_earnings_call_id r = id) rows /\
    map row_label rows =
    labelled_from "transcript" 0 (chunks_or_nil (chunk_text t 1000 100)).
Proof.
  intros Hs. unfold embed_transcript.
  unfold bind at 1, lift at 1.
  destruct (chunk_text t 1000 100) as [chunks|e] eqn:Ech.
  - unfold bind at 1, lift at 1. rewrite py_range_pos by lia.
    destruct (embed_batches_complete id chunks
                (Z.to_nat (range_len (len chunks) 10)) 0 n s Hs)
      as (rows & E & F & L).
    exists rows. rewrite E. split; [reflexivity|]. split; [exact F|].
    rewrite L. simpl skipn. cbn [chunks_or_nil].
    rewrite firstn_all2; [reflexivity|].
    pose proof (range_len_covers (len chunks) 10 ltac:(lia)).
    unfold len in *. lia.
  - exfalso. unfold chunk_text in Ech.
    destruct (negb (truthy t)); [discriminate|].
    rewrite py_range_pos in Ech by lia. discriminate.
Qed.

Lemma embed_summary_complete id n sm (s : Session vec) :
  working s = committed s ->
  exists rows,
    embed_summary encode id n sm s =
    ({| committed := append_document_chunks rows (committed s);
        working := append_document_chunks rows (committed s) |},
     Ok (n + len rows)%Z) /\
    Forall (fun r => dc_earnings_call_id r = id) rows /\
    map row_label rows =
    labelled_from (summary_chunk_type sm) 0 (summary_chunks sm).
Proof.
  intros Hs.
  assert (Hskip : summary_chunks sm = [] -> exists rows,
    ret n s =
    ({| committed := append_document_chunks rows (committed s);
        working := append_document_chunks rows (committed s) |},
     Ok (n + len rows)%Z) /\
    Forall (fun r => dc_earnings_call_id r = id) rows /\
    map row_label rows =
    labelled_from (summary_chunk_type sm) 0 (summary_chunks sm)).
  { intros ->. exists []. unfold ret.
    split; [f_equal; [apply session_settled, Hs|]|].
    - f_equal. unfold len. simpl. lia.
    - split; [constructor|reflexivity]. }
  unfold embed_summary.
  destruct (sm_content sm) as [content|] eqn:Ec;
    [|apply Hskip; unfold summary_chunks; rewrite Ec; reflexivity].
  destruct (truthy content) eqn:Et;
    [|apply Hskip; unfold summary_chunks; rewrite Ec;
      destruct content; [reflexivity|discriminate]].
  unfold bind at 1, lift at 1.
  destruct (chunk_text content 500 100) as [chunks|e] eqn:Ech.
  - assert (summary_chunks sm = chunks) as ->
      by (unfold summary_chunks; rewrite Ec, Ech; reflexivity).
    unfold bind at 1, lift at 1.
    destruct (Hencode chunks) as (embs & Eenc & Hlen). rewrite Eenc.
    unfold bind at 1. rewrite store_document_chunks_spec.
    unfold bind, db_commit, ret. cbn [committed working]. rewrite Hs.
    exists (chunk_rows id 0 (summary_chunk_type sm) (combine chunks embs)).
    split; [rewrite len_chunk_rows; reflexivity|].
    split; [|apply chunk_rows_labels, Hlen].
    unfold chunk_rows. apply Forall_map, Forall_forall. intros; reflexivity.
  - exfalso. unfold chunk_text in Ech.
    destruct (negb (truthy content)); [discriminate|].
    rewrite py_range_pos in Ech by lia. discriminate.
Qed.

Lemma embed_summaries_complete id (L : list Summary) n (s : Session vec) :
  working s = committed s ->
  exists rows,
    for_each L (embed_summary encode id) n s =
    ({| committed := append_document_chunks rows (committed s);
        working := append_document_chunks rows (committed s) |},
     Ok (n + len rows)%Z) /\
    Forall (fun r => dc_earnings_call_id r = id) rows /\
    map row_label rows =
    concat (map (fun sm => labelled_from (summary_chunk_type sm) 0
                             (summary_chunks sm)) L).
Proof.
  revert n s. induction L as [|sm L IH]; intros n s Hs.
  - exists []. simpl. unfold ret.
    split; [f_equal; [apply session_settled, Hs|]|].
    + f_equal. unfold len. simpl. lia.
    + split; [constructor|reflexivity].
  - cbn [for_each].
    destruct (embed_summary_complete id n sm s Hs) as (g & E1 & F1 & L1).
    unfold bind at 1. rewrite E1.
    set (s1 := {| committed := append_document_chunks g (committed s);
                  working := append_document_chunks g (committed s) |}).
    destruct (IH (n + len g)%Z s1 eq_refl) as (rows2 & E2 & F2 & L2).
    exists (g ++ rows2). rewrite E2. subst s1. cbn [committed].
    rewrite append_document_chunks_app.
    split; [f_equal; f_equal; rewrite len_app; lia|].
    split; [apply Forall_app; split; assumption|].
    rewrite map_app, L1, L2. reflexivity.
Qed.

End Complete.

(** With an embedder that returns one vector per text: the store after a
    run, the rows it added and the count it returns. *)
Lemma add_earnings_embeddings_stored
      {vec : Type} (encode : Embedder vec) (id : Z) (ct cs : bool)
      (db : Db vec) (call : EarningsCall) :
  one_vector_per_text encode ->
  find (fun c => (ec_id c =? id)%Z) (earnings_calls db) = Some call ->
  exists rows,
    add_earnings_embeddings (Some encode) id ct cs db =
    (append_document_chunks rows (purge_document_chunks id db),
     Ok (len rows)) /\
    Forall (fun r => dc_earnings_call_id r = id) rows /\
    map row_label rows =
    (if ct then labelled_from "transcript" 0 (transcript_chunks call)
     else []) ++
    (if cs
     then concat (map (fun sm => labelled_from (summary_chunk_type sm) 0
                                   (summary_chunks sm))
                      (summaries_of id db))
     else []).
Proof.
  intros Henc Hfind.
  rewrite (add_earnings_embeddings_found encode id ct cs db call Hfind).
  unfold try_except, embed_earnings_call.
  set (s0 := {| committed := purge_document_chunks id db;
                working := purge_document_chunks id db |}).
  assert (P1 : exists T,
    (if ct && truthy_opt (ec_raw_transcript call)
     then embed_transcript encode id
            match ec_raw_transcript call with
            | Some t => t
            | None => EmptyString
            end 0%Z
     else ret 0%Z) s0 =
    ({| committed := append_document_chunks T (committed s0);
        working := append_document_chunks T (committed s0) |},
     Ok (0 + len T)%Z) /\
    Forall (fun r => dc_earnings_call_id r = id) T /\
    map row_label T =
    (if ct then labelled_from "transcript" 0 (transcript_chunks call)
     else [])).
  { destruct (ct && truthy_opt (ec_raw_transcript call)) eqn:Eg.
    - apply andb_prop in Eg. destruct Eg as [-> Etr].
      unfold transcript_chunks.
      destruct (ec_raw_transcript call) as [t|]; [|discriminate].
      apply embed_transcript_complete; [exact Henc|reflexivity].
    - exists []. unfold ret.
      split; [f_equal; apply session_settled; reflexivity|].
      split; [constructor|].
      destruct ct; [|reflexivity]. simpl in Eg.
      rewrite (transcript_chunks_empty call Eg). reflexivity. }
  destruct P1 as (T & E1 & FT & LT).
  unfold bind at 1. rewrite E1. cbn [committed] in *.
  set (s1 := {| committed := append_document_chunks T (committed s0);
                working := append_document_chunks T (committed s0) |}).
  destruct cs.
  - unfold bind at 1. unfold query_summaries at 1.
    change (filter (fun x => (sm_earnings_call_id x =? id)%Z)
                   (summaries (working s1)))
      with (summaries_of id db).
    destruct (embed_summaries_complete encode Henc id (summaries_of id db)
                (0 + len T)%Z s1 eq_refl) as (S & E2 & FS & LS).
    rewrite E2. subst s1 s0. cbn [committed].
    rewrite append_document_chunks_app.
    exists (T ++ S). split; [rewrite len_app; f_equal; f_equal; lia|].
    split; [apply Forall_app; split; assumption|].
    rewrite map_app, LT, LS. reflexivity.
  - unfold ret. subst s1 s0. cbn [committed].
    exists T. split; [reflexivity|]. split; [exact FT|].
    rewrite LT, app_nil_r. reflexivity.
Qed.

(** X6: with an embedder that returns one vector per text, a run of
    [add_earnings_embeddings] on a call that exists stores every chunk of
    the transcript and then every chunk of each summary of the call, each
    once, in order and numbered from 0 within its partition, and returns
    the number of chunks stored for the call. *)
Theorem add_earnings_embeddings_complete
        (vec : Type) (encode : Embedder vec) (id : Z) (ct cs : bool)
        (db : Db vec) (call : EarningsCall) :
  one_vector_per_text encode ->
  find (fun c => (ec_id c =? id)%Z) (earnings_calls db) = Some call ->
  exists db' n,
    add_earnings_embeddings (Some encode) id ct cs db = (db', Ok n) /\
    n = len (chunks_of id db') /\
    map row_label (chunks_of id db') =
    (if ct then labelled_from "transcript" 0 (transcript_chunks call)
     else []) ++
    (if cs
     then concat (map (fun sm => labelled_from (summary_chunk_type sm) 0
                                   (summary_chunks sm))
                      (summaries_of id db))
     else []).
Proof.
  intros Henc Hfind.
  destruct (add_earnings_embeddings_stored encode id ct cs db call Henc
              Hfind) as (rows & E & Hown & Hlabels).
  exists (append_document_chunks rows (purge_document_chunks id db)),
         (len rows).
  split; [exact E|].
  rewrite (chunks_of_replaced id rows db Hown).
  split; [reflexivity|exact Hlabels].
Qed.

Lemma add_earnings_embeddings_complete_witness :
  one_vector_per_text sample_encode /\
  exists db' n,
    add_earnings_embeddings (Some sample_encode) 1 true true db_small =
    (db', Ok n) /\
    n = len (chunks_of 1 db') /\
    map row_label (chunks_of 1 db') =
    labelled_from "transcript" 0
      (transcript_chunks
         (mkEarningsCall 1 "ACME" "Q1" 2024 None
            (Some "Revenue grew and margins improved"))) ++
    concat (map (fun sm => labelled_from (summary_chunk_type sm) 0
                             (summary_chunks sm))
                (summaries_of 1 db_small)).
Proof.
  assert (H : one_vector_per_text sample_encode).
  { intros texts. eexists. split; [reflexivity|apply length_map]. }
  split; [exact H|].
  apply (add_earnings_embeddings_complete Z sample_encode 1 true true
           db_small _ H).
  reflexivity.
Defined.

(** ** The write path when the embedder fails *)

Lemma chunk_text_ok (text : string) (M O : Z) :
  (O < M)%Z -> exists chunks, chunk_text text M O = Ok chunks.
Proof.
  intros H. unfold chunk_text.
  destruct (negb (truthy text)); [eauto|].
  rewrite py_range_pos by lia. eauto.
Qed.

(** X7: when the embedder raises on every call, a run of
    [add_earnings_embeddings] on a call whose transcript has at least one
    token returns 0, and the chunks stored for the call before the run are
    gone: the deletion was committed before the failure. *)
Theorem add_earnings_embeddings_failure_loses_chunks
        (vec : Type) (encode : Embedder vec) (id : Z) (cs : bool)
        (db : Db vec) (call : EarningsCall) (t : string) :
  always_raises encode ->
  find (fun c => (ec_id c =? id)%Z) (earnings_calls db) = Some call ->
  ec_raw_transcript call = Some t ->
  split t <> [] ->
  add_earnings_embeddings (Some encode) id true cs db =
  (purge_document_chunks id db, Ok 0%Z) /\
  chunks_of id (fst (add_earnings_embeddings (Some encode) id true cs db)) =
  [].
Proof.
  intros Hfail Hfind Ht Hne.
  assert (E : add_earnings_embeddings (Some encode) id true cs db =
              (purge_document_chunks id db, Ok 0%Z)).
  { rewrite (add_earnings_embeddings_found encode id true cs db call Hfind).
    unfold try_except, embed_earnings_call. rewrite Ht.
    cbn [truthy_opt]. rewrite (split_nonempty_truthy t Hne). cbn [andb].
    unfold bind at 1. unfold embed_transcript.
    unfold bind at 1, lift at 1.
    rewrite (chunk_text_window_list t 1000 100 Hne) by lia.
    unfold bind at 1, lift at 1. rewrite py_range_pos by lia.
    set (chunks := map _ (seq 0 (chunk_count _ 1000 100))).
    assert (HL : (0 < len chunks)%Z).
    { subst chunks. unfold len, chunk_count.
      rewrite length_map, length_seq. lia. }
    pose proof (range_len_pos (len chunks) 10 ltac:(lia) HL) as Hn.
    destruct (Z.to_nat (range_len (len chunks) 10)) as [|m] eqn:Em; [lia|].
    cbn [seq map for_each].
    unfold bind at 1. unfold embed_batch at 1.
    unfold bind at 1, lift at 1.
    match goal with
    | |- context [encode ?b] => destruct (Hfail b) as (e & ->)
    end.
    unfold bind, db_rollback, ret. reflexivity. }
  split; [exact E|]. rewrite E. cbn [fst].
  unfold chunks_of, purge_document_chunks. simpl.
  apply filter_negb_filter.
Qed.

Lemma add_earnings_embeddings_failure_loses_chunks_witness :
  always_raises (fun _ : list string => @Raise (list Z) RuntimeError) /\
  split "Revenue grew and margins improved" <> [] /\
  add_earnings_embeddings (Some (fun _ => Raise RuntimeError)) 1 true true
    db_small =
  (purge_document_chunks 1 db_small, Ok 0%Z) /\
  chunks_of 1
    (fst (add_earnings_embeddings (Some (fun _ => Raise RuntimeError)) 1
            true true db_small)) = [].
Proof.
  assert (H : always_raises
                (fun _ : list string => @Raise (list Z) RuntimeError)).
  { intros texts. eexists. reflexivity. }
  split; [exact H|]. split; [simpl; discriminate|].
  apply (add_earnings_embeddings_failure_loses_chunks Z _ 1 true db_small
           (mkEarningsCall 1 "ACME" "Q1" 2024 None
              (Some "Revenue grew and margins improved"))
           "Revenue grew and margins improved" H);
    [reflexivity|reflexivity|simpl; discriminate].
Defined.

(** ** [add_news_embeddings] *)

Lemma append_news_chunks_nil {vec} (d : Db vec) : append_news_chunks [] d = d.
Proof.
  destruct d. unfold append_news_chunks. simpl.
  rewrite app_nil_r. reflexivity.
Qed.

Lemma append_news_chunks_app {vec} (rows1 rows2 : list (NewsChunk vec)) d :
  append_news_chunks rows2 (append_news_chunks rows1 d) =
  append_news_chunks (rows1 ++ rows2) d.
Proof.
  unfold append_news_chunks. simpl. rewrite app_assoc. reflexivity.
Qed.

(** The loop of [add_news_embeddings] adds exactly [news_rows]. *)
Lemma store_news_chunks_spec {vec} id (pairs : list (string * vec)) n
      (s : Session vec) :
  store_news_chunks id pairs n s =
  ({| committed := committed s;
      working := append_news_chunks (news_rows id pairs) (working s) |},
   Ok (n + len pairs)%Z).
Proof.
  unfold store_news_chunks, news_rows, enumerate.
  generalize 0%Z as st. revert n s.
  induction pairs as [|[t e] ps IH]; intros n s st.
  - simpl. unfold ret. rewrite append_news_chunks_nil.
    destruct s; simpl. f_equal. f_equal. unfold len. simpl. lia.
  - cbn [enumerate_from for_each map].
    unfold bind at 1. unfold bind at 1.
    unfold add_news_chunk, update_working. cbn [fst snd].
    unfold ret at 1. rewrite IH. cbn [committed working].
    change {| earnings_calls := earnings_calls (working s);
              summaries := summaries (working s);
              financial_news := financial_news (working s);
              document_chunks := document_chunks (working s);
              news_chunks := news_chunks (working s) ++
                [{| nc_news_id := id; nc_chunk_text := t;
                    nc_chunk_index := st; nc_embedding := e |}] |}
      with (append_news_chunks
              [{| nc_news_id := id; nc_chunk_text := t;
                  nc_chunk_index := st; nc_embedding := e |}] (working s)).
    rewrite append_news_chunks_app. cbn [app].
    rewrite len_cons. do 2 f_equal. lia.
Qed.

(** The whole run on an article with content, by what the embedder
    answers on the article's chunks. *)
Lemma add_news_embeddings_run {vec} (encode : Embedder vec) (id : Z)
      (db : Db vec) (article : FinancialNews) (content : string)
      (chunks : list string) :
  find (fun n => (fn_id n =? id)%Z) (financial_news db) = Some article ->
  fn_content article = Some content ->
  truthy content = true ->
  chunk_text content 800 100 = Ok chunks ->
  add_news_embeddings (Some encode) id db =
  match encode chunks with
  | Raise _ => (db, Ok 0%Z)
  | Ok embeddings =>
      (append_news_chunks (news_rows id (combine chunks embeddings))
         (purge_news_chunks id db),
       Ok (len (combine chunks embeddings)))
  end.
Proof.
  intros Hfind Hc Ht Hch.
  unfold add_news_embeddings, run_session, try_except,
    add_news_embeddings_body.
  unfold bind at 1. unfold query_news at 1. cbn [working].
  rewrite Hfind, Hc, Ht. cbn [negb].
  unfold bind at 1. unfold delete_news_chunks at 1, update_working at 1.
  cbn [committed working].
  unfold bind at 1, lift at 1. rewrite Hch.
  unfold bind at 1, lift at 1.
  destruct (encode chunks) as [embs|e].
  - unfold bind at 1. rewrite store_news_chunks_spec.
    unfold bind, db_commit, ret. cbn [committed working].
    rewrite Z.add_0_l. reflexivity.
  - unfold bind, db_rollback, ret. reflexivity.
Qed.

Lemma add_news_embeddings_skip {vec} (encode : Embedder vec) (id : Z)
      (db : Db vec) :
  match find (fun n => (fn_id n =? id)%Z) (financial_news db) with
  | Some article => truthy_opt (fn_content article) = false
  | None => True
  end ->
  add_news_embeddings (Some encode) id db = (db, Ok 0%Z).
Proof.
  intros H.
  unfold add_news_embeddings, run_session, try_except,
    add_news_embeddings_body, bind, query_news. cbn [working].
  destruct (find _ (financial_news db)) as [article|]; [|reflexivity].
  destruct (fn_content article) as [[|c t]|]; simpl in *;
    [reflexivity|discriminate|reflexivity].
Qed.

Lemma news_rows_own {vec} id (pairs : list (string * vec)) :
  Forall (fun r => nc_news_id r = id) (news_rows id pairs).
Proof.
  unfold news_rows. apply Forall_map, Forall_forall. intros; reflexivity.
Qed.

Lemma news_rows_labels {vec} id (chunks : list string) (embs : list vec) :
  length embs = length chunks ->
  map news_label (news_rows id (combine chunks embs)) = enumerate chunks.
Proof.
  intros Hlen. unfold news_rows, enumerate. rewrite map_map.
  unfold news_label. cbn [nc_chunk_index nc_chunk_text].
  generalize 0%Z as st. revert embs Hlen.
  induction chunks as [|t chunks IH]; intros [|e embs] Hlen st;
    simpl in *; try discriminate; [reflexivity|].
  f_equal. apply IH. lia.
Qed.

Lemma news_chunks_of_replaced {vec} id (rows : list (NewsChunk vec)) d :
  Forall (fun r => nc_news_id r = id) rows ->
  news_chunks_of id (append_news_chunks rows (purge_news_chunks id d)) = rows.
Proof.
  intros H. unfold news_chunks_of, purge_news_chunks, append_news_chunks.
  simpl. rewrite filter_app, filter_negb_filter. simpl.
  apply filter_keep_all.
  eapply Forall_impl; [|exact H]. intros r ->. apply Z.eqb_refl.
Qed.

Lemma news_chunks_of_other {vec} (id id' : Z) (rows : list (NewsChunk vec)) d :
  id' <> id ->
  Forall (fun r => nc_news_id r = id) rows ->
  news_chunks_of id' (append_news_chunks rows (purge_news_chunks id d)) =
  news_chunks_of id' d.
Proof.
  intros Hne H. unfold news_chunks_of, append_news_chunks,
    purge_news_chunks. simpl.
  rewrite filter_app, (filter_drop_all _ rows), app_nil_r.
  - apply filter_filter_other. intros x Hx.
    apply Z.eqb_eq in Hx. rewrite Hx.
    destruct (Z.eqb_spec id' id); [contradiction|reflexivity].
  - eapply Forall_impl; [|exact H]. intros r ->.
    destruct (Z.eqb_spec id id'); [congruence|reflexivity].
Qed.

Lemma purge_news_append_own {vec} id (rows : list (NewsChunk vec)) d :
  Forall (fun r => nc_news_id r = id) rows ->
  purge_news_chunks id (append_news_chunks rows (purge_news_chunks id d)) =
  purge_news_chunks id d.
Proof.
  intros H. unfold purge_news_chunks, append_news_chunks. simpl.
  rewrite filter_app, filter_idem.
  rewrite (filter_drop_all _ rows), app_nil_r; [reflexivity|].
  eapply Forall_impl; [|exact H]. intros r ->.
  rewrite Z.eqb_refl. reflexivity.
Qed.

(** X8: when the embedder raises on the chunks of a news article that has
    content, [add_news_embeddings] returns 0 and the store is exactly as
    before: the deletion of the article's old chunks was not committed
    and the rollback undoes it. *)
Theorem add_news_embeddings_failure_keeps_store
        (vec : Type) (encode : Embedder vec) (id : Z) (db : Db vec)
        (article : FinancialNews) (content : string) (e : exn) :
  find (fun n => (fn_id n =? id)%Z) (financial_news db) = Some article ->
  fn_content article = Some content ->
  truthy content = true ->
  encode (chunks_or_nil (chunk_text content 800 100)) = Raise e ->
  add_news_embeddings (Some encode) id db = (db, Ok 0%Z).
Proof.
  intros Hfind Hc Ht He.
  destruct (chunk_text_ok content 800 100 ltac:(lia)) as (chunks & Hch).
  rewrite Hch in He. cbn [chunks_or_nil] in He.
  rewrite (add_news_embeddings_run encode id db article content chunks
             Hfind Hc Ht Hch).
  rewrite He. reflexivity.
Qed.

Lemma add_news_embeddings_failure_keeps_store_witness :
  add_news_embeddings (Some (fun _ => Raise RuntimeError)) 7 db_small =
  (db_small, Ok 0%Z).
Proof.
  apply (add_news_embeddings_failure_keeps_store Z _ 7 db_small
           (mkFinancialNews 7 "ACME" "Results" (Some "ACME beats")
              None None None)
           "ACME beats" RuntimeError); reflexivity.
Defined.

(** X9: when the embedder returns one vector for each chunk of the
    article's content, [add_news_embeddings] returns the number of chunks,
    the chunks stored for the article are then exactly the chunks of its
    content numbered from 0, and the chunks of every other article and all
    other tables are as before. *)
Theorem add_news_embeddings_replaces
        (vec : Type) (encode : Embedder vec) (id : Z) (db : Db vec)
        (article : FinancialNews) (content : string)
        (embeddings : list vec) :
  find (fun n => (fn_id n =? id)%Z) (financial_news db) = Some article ->
  fn_content article = Some content ->
  truthy content = true ->
  encode (chunks_or_nil (chunk_text content 800 100)) = Ok embeddings ->
  length embeddings = length (chunks_or_nil (chunk_text content 800 100)) ->
  let chunks := chunks_or_nil (chunk_text content 800 100) in
  let db' := fst (add_news_embeddings (Some encode) id db) in
  snd (add_news_embeddings (Some encode) id db) = Ok (len chunks) /\
  map news_label (news_chunks_of id db') = enumerate chunks /\
  (forall id', id' <> id -> news_chunks_of id' db' = news_chunks_of id' db) /\
  earnings_calls db' = earnings_calls db /\
  summaries db' = summaries db /\
  financial_news db' = financial_news db /\
  document_chunks db' = document_chunks db.
Proof.
  intros Hfind Hc Ht He Hlen chunks db'. subst chunks db'.
  destruct (chunk_text_ok content 800 100 ltac:(lia)) as (chunks & Hch).
  rewrite Hch in *. cbn [chunks_or_nil] in *.
  rewrite (add_news_embeddings_run encode id db article content chunks
             Hfind Hc Ht Hch).
  rewrite He. cbn [fst snd].
  split; [|split; [|split]].
  - f_equal. unfold len. rewrite length_combine. lia.
  - rewrite news_chunks_of_replaced by apply news_rows_own.
    apply news_rows_labels, Hlen.
  - intros id' Hne. apply news_chunks_of_other; [exact Hne|].
    apply news_rows_own.
  - repeat split; reflexivity.
Qed.

Lemma add_news_embeddings_replaces_witness :
  let chunks := chunks_or_nil (chunk_text "ACME beats" 800 100) in
  let db' := fst (add_news_embeddings (Some sample_encode) 7 db_small) in
  snd (add_news_embeddings (Some sample_encode) 7 db_small) =
  Ok (len chunks) /\
  map news_label (news_chunks_of 7 db') = enumerate chunks /\
  (forall id', id' <> 7%Z ->
               news_chunks_of id' db' = news_chunks_of id' db_small) /\
  earnings_calls db' = earnings_calls db_small /\
  summaries db' = summaries db_small /\
  financial_news db' = financial_news db_small /\
  document_chunks db' = document_chunks db_small.
Proof.
  apply (add_news_embeddings_replaces Z sample_encode 7 db_small
           (mkFinancialNews 7 "ACME" "Results" (Some "ACME beats")
              None None None)
           "ACME beats" [10%Z]); reflexivity.
Defined.

(** X10: running [add_news_embeddings] a second time, on the store the
    first run left, returns the same count and leaves the same store. *)
Theorem add_news_embeddings_twice
        (vec : Type) (embedder : option (Embedder vec)) (id : Z)
        (db : Db vec) :
  add_news_embeddings embedder id
    (fst (add_news_embeddings embedder id db)) =
  add_news_embeddings embedder id db.
Proof.
  destruct embedder as [encode|]; [|reflexivity].
  destruct (find (fun n => (fn_id n =? id)%Z) (financial_news db))
    as [article|] eqn:Hfind.
  - destruct (fn_content article) as [content|] eqn:Hc.
    + destruct (truthy content) eqn:Ht.
      * destruct (chunk_text_ok content 800 100 ltac:(lia))
          as (chunks & Hch).
        rewrite (add_news_embeddings_run encode id db article content
                   chunks Hfind Hc Ht Hch).
        destruct (encode chunks) as [embs|e] eqn:He; cbn [fst].
        -- rewrite (add_news_embeddings_run encode id
                      (append_news_chunks _ (purge_news_chunks id db))
                      article content chunks Hfind Hc Ht Hch).
           rewrite He, purge_news_append_own by apply news_rows_own.
           reflexivity.
        -- rewrite (add_news_embeddings_run encode id db article content
                      chunks Hfind Hc Ht Hch).
           rewrite He. reflexivity.
      * assert (E : add_news_embeddings (Some encode) id db = (db, Ok 0%Z)).
        { apply add_news_embeddings_skip. rewrite Hfind.
          unfold truthy_opt. rewrite Hc. exact Ht. }
        rewrite E. cbn [fst]. exact E.
    + assert (E : add_news_embeddings (Some encode) id db = (db, Ok 0%Z)).
      { apply add_news_embeddings_skip. rewrite Hfind.
        unfold truthy_opt. rewrite Hc. reflexivity. }
      rewrite E. cbn [fst]. exact E.
  - assert (E : add_news_embeddings (Some encode) id db = (db, Ok 0%Z)).
    { apply add_news_embeddings_skip. rewrite Hfind. exact I. }
    rewrite E. cbn [fst]. exact E.
Qed.

(** ** Retrieval: the result is a global top-[limit] *)

Section TopK.

Context {A : Type} (key : A -> Q).

Lemma sorted_app_order (l1 l2 : list A) :
  StronglySorted (desc key) (l1 ++ l2) ->
  forall a b, In a l1 -> In b l2 -> (key b <= key a)%Q.
Proof.
  induction l1 as [|x l1 IH]; simpl; intros H a b Ha Hb; [contradiction|].
  inversion H as [|? ? Hs Hx]; subst.
  destruct Ha as [->|Ha].
  - rewrite Forall_forall in Hx. apply Hx, in_or_app. right. exact Hb.
  - apply IH; assumption.
Qed.

(** In a sorted list, an element is in the first [L] or is dominated by
    all [L] of them. *)
Lemma sorted_prefix_top (S : list A) (L : nat) (x : A) :
  StronglySorted (desc key) S -> In x S ->
  In x (firstn L S) \/
  (length (firstn L S) = L /\
   forall r, In r (firstn L S) -> (key x <= key r)%Q).
Proof.
  intros HS Hx. rewrite <- (firstn_skipn L S) in Hx, HS.
  apply in_app_or in Hx. destruct Hx as [Hx|Hx]; [left; exact Hx|].
  right. split.
  - rewrite length_firstn. apply Nat.min_l.
    destruct (Nat.le_gt_cases L (length S)) as [H|H]; [exact H|].
    rewrite skipn_all2 in Hx by lia. contradiction.
  - intros r Hr. eapply sorted_app_order; eassumption.
Qed.

Variable p : A -> bool.

Lemma filter_insert_desc_length (x : A) (l : list A) :
  length (filter p (insert_desc key x l)) = length (filter p (x :: l)).
Proof.
  induction l as [|y l IH]; [reflexivity|].
  simpl insert_desc. destruct (Qle_bool (key y) (key x)); [reflexivity|].
  simpl in *. destruct (p y), (p x); simpl in *; lia.
Qed.

Lemma filter_sort_desc_length (l : list A) :
  length (filter p (sort_desc key l)) = length (filter p l).
Proof.
  induction l as [|x l IH]; [reflexivity|].
  simpl sort_desc. rewrite filter_insert_desc_length.
  simpl. destruct (p x); simpl; lia.
Qed.

(** [p] holds of everything above something it holds of. *)
Hypothesis p_upward :
  forall a b, p b = true -> (key b <= key a)%Q -> p a = true.

Lemma sorted_prefix_all (S : list A) (L : nat) :
  StronglySorted (desc key) S ->
  L <= length (filter p S) ->
  Forall (fun y => p y = true) (firstn L S).
Proof.
  intros HS. revert L. induction HS as [|h t Ht IH Hh]; intros L HL.
  - simpl in HL. replace L with 0 by lia. constructor.
  - destruct L as [|L]; [constructor|]. simpl in *.
    destruct (p h) eqn:Eh.
    + constructor; [exact Eh|]. apply IH. simpl in HL. lia.
    + exfalso.
      assert (filter p t = []) as E.
      { apply filter_drop_all, Forall_forall. intros y Hy.
        destruct (p y) eqn:Ey; [|reflexivity].
        rewrite Forall_forall in Hh.
        rewrite (p_upward h y Ey (Hh y Hy)) in Eh. discriminate. }
      rewrite E in HL. simpl in HL. lia.
Qed.

End TopK.

(** A sorted candidate list [D] cut to [L] and merged with other rows,
    the merge sorted and cut to [L] again: no candidate of [D] beats a
    member of a full result. *)
Lemma merge_top_side {A} (key : A -> Q) (D pre post : list A) (L : nat)
      (x : A) :
  StronglySorted (desc key) D -> In x D ->
  let R := firstn L (sort_desc key (pre ++ firstn L D ++ post)) in
  In x R \/ (length R = L /\ forall r, In r R -> (key x <= key r)%Q).
Proof.
  intros HD Hx R.
  destruct (sorted_prefix_top key D L x HD Hx) as [Hin|[Hlen Hdom]].
  - apply sorted_prefix_top; [apply sort_desc_sorted|].
    apply sort_desc_In, in_or_app. right. apply in_or_app. left. exact Hin.
  - right. split.
    + subst R. rewrite length_firstn, sort_desc_length, !length_app.
      lia.
    + intros r Hr.
      destruct (Qlt_le_dec (key r) (key x)) as [Hlt|Hle]; [|exact Hle].
      exfalso.
      set (q := fun y => negb (Qle_bool (key y) (key r))).
      assert (Hq : Forall (fun y => q y = true) R).
      { subst R. apply (sorted_prefix_all key q).
        - intros a b Hb Hab. unfold q in *.
          apply negb_true_iff in Hb. apply negb_true_iff.
          destruct (Qle_bool (key a) (key r)) eqn:E; [|reflexivity].
          apply Qle_bool_iff in E.
          assert (Qle_bool (key b) (key r) = true); [|congruence].
          apply Qle_bool_iff. eapply Qle_trans; eassumption.
        - apply sort_desc_sorted.
        - rewrite filter_sort_desc_length, !filter_app, !length_app.
          rewrite (filter_keep_all q (firstn L D)); [lia|].
          apply Forall_forall. intros y Hy. unfold q.
          apply negb_true_iff.
          destruct (Qle_bool (key y) (key r)) eqn:E; [|reflexivity].
          apply Qle_bool_iff in E. exfalso.
          apply (Qlt_irrefl (key r)).
          eapply Qlt_le_trans; [exact Hlt|].
          eapply Qle_trans; [apply Hdom, Hy|exact E]. }
      rewrite Forall_forall in Hq. specialize (Hq r Hr).
      unfold q in Hq. apply negb_true_iff in Hq.
      assert (Qle_bool (key r) (key r) = true); [|congruence].
      apply Qle_bool_iff, Qle_refl.
Qed.

Section RetrievalFacts.

Context {vec : Type} (cosine_distance : vec -> vec -> Q).

(** The rows a query returns under the limits 0, 1, 2, ... are the
    prefixes of one list sorted by decreasing similarity. *)
Lemma document_results_prefixes db v cs st thr :
  exists D,
    StronglySorted (desc sr_similarity) D /\
    forall L, document_results cosine_distance db v cs st L thr = firstn L D.
Proof.
  unfold document_results. cbv zeta.
  eexists. split; [|intros L; rewrite <- firstn_map; reflexivity].
  apply StronglySorted_map.
  match goal with
  | |- StronglySorted _ (sort_desc snd ?rows) =>
      pose proof (sort_desc_sorted snd rows) as H; revert H;
      generalize (sort_desc snd rows)
  end.
  intros l H. induction H as [|r l Hl IH Hr]; constructor; [exact IH|].
  eapply Forall_impl; [|exact Hr].
  intros [[c' e'] sim'] Hd. destruct r as [[c e] sim]. exact Hd.
Qed.

Lemma news_results_prefixes db v cs thr :
  exists D,
    StronglySorted (desc sr_similarity) D /\
    forall L, news_results cosine_distance db v cs L thr = firstn L D.
Proof.
  unfold news_results. cbv zeta.
  eexists. split; [|intros L; rewrite <- firstn_map; reflexivity].
  apply StronglySorted_map.
  match goal with
  | |- StronglySorted _ (sort_desc snd ?rows) =>
      pose proof (sort_desc_sorted snd rows) as H; revert H;
      generalize (sort_desc snd rows)
  end.
  intros l H. induction H as [|r l Hl IH Hr]; constructor; [exact IH|].
  eapply Forall_impl; [|exact Hr].
  intros [[c' e'] sim'] Hd. destruct r as [[c e] sim]. exact Hd.
Qed.

End RetrievalFacts.

(** X11: the result of [semantic_search] is a global top-[limit]: a row
    that one of the selected queries returns under any limit, however
    large, is in the result, or else the result has [limit] elements and
    each of them is at least as similar to the query as that row.  Cutting
    each query to [limit] rows before the merge loses nothing. *)
Theorem semantic_search_global_top
        (vec : Type) (cosine_distance : vec -> vec -> Q)
        (encode : Embedder vec) (db : Db vec) (query : string)
        (query_embedding : vec)
        (company_symbol : option string) (search_type : string)
        (limit : nat) (similarity_threshold : Q)
        (any_limit : nat) (x : SearchResult) :
  query_embedding_of encode query = Ok query_embedding ->
  In x (partition_results cosine_distance db query_embedding company_symbol
          search_type any_limit similarity_threshold) ->
  let results :=
    semantic_search cosine_distance (Some encode) db query company_symbol
      search_type limit similarity_threshold in
  In x results \/
  (length results = limit /\
   Forall (fun r => (sr_similarity x <= sr_similarity r)%Q) results).
Proof.
  intros Hv Hx results. subst results.
  unfold semantic_search. rewrite Hv.
  unfold partition_results in *.
  destruct (document_results_prefixes cosine_distance db query_embedding
              company_symbol search_type similarity_threshold)
    as (DA & SA & EA).
  destruct (news_results_prefixes cosine_distance db query_embedding
              company_symbol similarity_threshold) as (DB & SB & EB).
  rewrite !EA, !EB in *.
  set (DA' := if search_type_in search_type ["all"; "transcript"; "summary"]
              then DA else []).
  set (DB' := if search_type_in search_type ["all"; "news"]
              then DB else []).
  assert (HA : forall L,
             (if search_type_in search_type ["all"; "transcript"; "summary"]
              then firstn L DA else []) = firstn L DA')
    by (intros L; subst DA';
        destruct (search_type_in search_type ["all"; "transcript"; "summary"]);
        [reflexivity|rewrite firstn_nil; reflexivity]).
  assert (HB : forall L,
             (if search_type_in search_type ["all"; "news"]
              then firstn L DB else []) = firstn L DB')
    by (intros L; subst DB';
        destruct (search_type_in search_type ["all"; "news"]);
        [reflexivity|rewrite firstn_nil; reflexivity]).
  rewrite HA, HB in *.
  assert (SA' : StronglySorted (desc sr_similarity) DA')
    by (subst DA';
        destruct (search_type_in search_type ["all"; "transcript"; "summary"]);
        [exact SA|constructor]).
  assert (SB' : StronglySorted (desc sr_similarity) DB')
    by (subst DB'; destruct (search_type_in search_type ["all"; "news"]);
        [exact SB|constructor]).
  assert (H : let R := firstn limit
                (sort_desc sr_similarity
                   (firstn limit DA' ++ firstn limit DB')) in
              In x R \/
              (length R = limit /\
               forall r, In r R -> (sr_similarity x <= sr_similarity r)%Q)).
  { apply in_app_or in Hx. destruct Hx as [Hx|Hx];
      apply firstn_In_keep in Hx.
    - apply (merge_top_side sr_similarity DA' [] (firstn limit DB') limit x
               SA' Hx).
    - pose proof (merge_top_side sr_similarity DB' (firstn limit DA') []
                    limit x SB' Hx) as H.
      rewrite app_nil_r in H. exact H. }
  cbv zeta in H. destruct H as [H|[H1 H2]]; [left; exact H|].
  right. split; [exact H1|]. apply Forall_forall. exact H2.
Qed.

Lemma semantic_search_global_top_witness :
  let x :=
    mkSearchResult "ACME beats" "news" "financial_news" "ACME" (96 # 100)
      (FromFinancialNews "Results" None None None) in
  let results :=
    semantic_search sample_distance (Some sample_encode) db_small
      "Revenue grew x" None "all" 2 (7 # 10) in
  In x results \/
  (length results = 2 /\
   Forall (fun r => (sr_similarity x <= sr_similarity r)%Q) results).
Proof.
  apply (semantic_search_global_top Z sample_distance sample_encode db_small
           "Revenue grew x" 14%Z None "all" 2 (7 # 10) 5).
  - reflexivity.
  - vm_compute. right. right. left. reflexivity.
Defined.

(** ** Retrieval: where results come from *)

Section ResultOrigin.

Context {vec : Type} (cosine_distance : vec -> vec -> Q).

(** A result of the document query is built from a stored chunk and the
    earnings call that owns it, and passed the filters. *)
Lemma document_results_In db v cs st L thr x :
  In x (document_results cosine_distance db v cs st L thr) ->
  exists c e,
    In c (document_chunks db) /\
    find (fun e => (ec_id e =? dc_earnings_call_id c)%Z) (earnings_calls db)
    = Some e /\
    company_matches cs (ec_company_symbol e) = true /\
    (st = "transcript" -> dc_chunk_type c = "transcript") /\
    (st = "summary" -> like_summary (dc_chunk_type c) = true) /\
    x = {| sr_content := dc_chunk_text c;
           sr_type := dc_chunk_type c;
           sr_source := "earnings_call";
           sr_company_symbol := ec_company_symbol e;
           sr_similarity := similarity cosine_distance (dc_embedding c) v;
           sr_origin := FromEarningsCall (ec_quarter e) (ec_year e)
                          (ec_call_date e) (dc_earnings_call_id c) |}.
Proof.
  unfold document_results. cbv zeta. intros H.
  apply in_map_iff in H. destruct H as ([[c e] sim] & <- & H).
  apply firstn_In_keep, sort_desc_In, filter_In in H. destruct H as [H _].
  assert (Hbase :
    In (c, e, sim)
       (filter (fun r => company_matches cs (ec_company_symbol (snd (fst r))))
          (map (fun ce : DocumentChunk vec * EarningsCall =>
                  (ce, similarity cosine_distance (dc_embedding (fst ce)) v))
               (join_earnings_calls db))) /\
    (st = "transcript" -> dc_chunk_type c = "transcript") /\
    (st = "summary" -> like_summary (dc_chunk_type c) = true)).
  { destruct (String.eqb_spec st "transcript") as [Et|Et].
    - apply filter_In in H. destruct H as [H Hty]. cbn in Hty.
      apply String.eqb_eq in Hty.
      split; [exact H|]. split; [intros _; exact Hty|].
      intros Es. rewrite Es in Et. discriminate.
    - destruct (String.eqb_spec st "summary") as [Es|Es].
      + apply filter_In in H. destruct H as [H Hty]. cbn in Hty.
        split; [exact H|]. split; [intros; contradiction|intros _; exact Hty].
      + split; [exact H|]. split; intros; contradiction. }
  destruct Hbase as (Hb & Ht & Hs).
  apply filter_In in Hb. destruct Hb as [Hb Hco]. cbn in Hco.
  apply in_map_iff in Hb. destruct Hb as ([c0 e0] & Heq & Hj).
  injection Heq as -> -> <-. cbn [fst].
  unfold join_earnings_calls in Hj. apply in_flat_map in Hj.
  destruct Hj as (c1 & Hc1 & Hj).
  destruct (find _ (earnings_calls db)) as [e1|] eqn:Ef; [|contradiction].
  destruct Hj as [Hj|[]]. injection Hj as -> ->.
  exists c, e. repeat (split; [assumption|]). reflexivity.
Qed.

(** A result of the news query is built from a stored news chunk and the
    article that owns it. *)
Lemma news_results_In db v cs L thr x :
  In x (news_results cosine_distance db v cs L thr) ->
  exists c n,
    In c (news_chunks db) /\
    find (fun n => (fn_id n =? nc_news_id c)%Z) (financial_news db)
    = Some n /\
    company_matches cs (fn_symbol n) = true /\
    x = {| sr_content := nc_chunk_text c;
           sr_type := "news";
           sr_source := "financial_news";
           sr_company_symbol := fn_symbol n;
           sr_similarity := similarity cosine_distance (nc_embedding c) v;
           sr_origin := FromFinancialNews (fn_title n) (fn_publisher n)
                          (fn_published_date n) (fn_url n) |}.
Proof.
  unfold news_results. cbv zeta. intros H.
  apply in_map_iff in H. destruct H as ([[c n] sim] & <- & H).
  apply firstn_In_keep, sort_desc_In, filter_In in H. destruct H as [H _].
  apply filter_In in H. destruct H as [Hb Hco]. cbn in Hco.
  apply in_map_iff in Hb. destruct Hb as ([c0 n0] & Heq & Hj).
  injection Heq as -> -> <-. cbn [fst].
  unfold join_financial_news in Hj. apply in_flat_map in Hj.
  destruct Hj as (c1 & Hc1 & Hj).
  destruct (find _ (financial_news db)) as [n1|] eqn:Ef; [|contradiction].
  destruct Hj as [Hj|[]]. injection Hj as -> ->.
  exists c, n. repeat (split; [assumption|]). reflexivity.
Qed.

(** Every element of the result comes from one of the two queries. *)
Lemma semantic_search_In embedder db q cs st L thr x :
  In x (semantic_search cosine_distance embedder db q cs st L thr) ->
  exists v,
    (search_type_in st ["all"; "transcript"; "summary"] = true /\
     In x (document_results cosine_distance db v cs st L thr)) \/
    (search_type_in st ["all"; "news"] = true /\
     In x (news_results cosine_distance db v cs L thr)).
Proof.
  unfold semantic_search. intros H.
  destruct embedder as [encode|]; [|contradiction].
  destruct (query_embedding_of encode q) as [v|]; [|contradiction].
  apply firstn_In_keep, sort_desc_In in H.
  unfold partition_results in H. exists v.
  apply in_app_or in H. destruct H as [H|H].
  - left. destruct (search_type_in st ["all"; "transcript"; "summary"]);
      [split; [reflexivity|exact H]|contradiction].
  - right. destruct (search_type_in st ["all"; "news"]);
      [split; [reflexivity|exact H]|contradiction].
Qed.

(** The same, with the embedding of the query. *)
Lemma semantic_search_In_query embedder db q cs st L thr x :
  In x (semantic_search cosine_distance embedder db q cs st L thr) ->
  exists encode v,
    embedder = Some encode /\
    query_embedding_of encode q = Ok v /\
    ((search_type_in st ["all"; "transcript"; "summary"] = true /\
      In x (document_results cosine_distance db v cs st L thr)) \/
     (search_type_in st ["all"; "news"] = true /\
      In x (news_results cosine_distance db v cs L thr))).
Proof.
  unfold semantic_search. intros H.
  destruct embedder as [encode|]; [|contradiction].
  destruct (query_embedding_of encode q) as [v|] eqn:Hq; [|contradiction].
  apply firstn_In_keep, sort_desc_In in H.
  unfold partition_results in H. exists encode, v.
  split; [reflexivity|]. split; [exact Hq|].
  apply in_app_or in H. destruct H as [H|H].
  - left. destruct (search_type_in st ["all"; "transcript"; "summary"]);
      [split; [reflexivity|exact H]|contradiction].
  - right. destruct (search_type_in st ["all"; "news"]);
      [split; [reflexivity|exact H]|contradiction].
Qed.

End ResultOrigin.

(** X12: [search_type] selects what is searched: with transcript every
    result is a chunk of type transcript, with summary every result has a
    type that matches summary_%, with news every result is a news chunk,
    and with a search type other than all, transcript, summary and news
    the result is empty. *)
Theorem semantic_search_type_filter
        (vec : Type) (cosine_distance : vec -> vec -> Q)
        (embedder : option (Embedder vec)) (db : Db vec) (query : string)
        (company_symbol : option string) (search_type : string)
        (limit : nat) (similarity_threshold : Q) :
  let results :=
    semantic_search cosine_distance embedder db query company_symbol
      search_type limit similarity_threshold in
  (search_type = "transcript" ->
   Forall (fun r => sr_type r = "transcript" /\
                    sr_source r = "earnings_call") results) /\
  (search_type = "summary" ->
   Forall (fun r => like_summary (sr_type r) = true /\
                    sr_source r = "earnings_call") results) /\
  (search_type = "news" ->
   Forall (fun r => sr_type r = "news" /\
                    sr_source r = "financial_news") results) /\
  (search_type_in search_type ["all"; "transcript"; "summary"; "news"]
   = false -> results = []).
Proof.
  intros results. subst results.
  split; [|split; [|split]].
  - intros ->. apply Forall_forall. intros x Hx.
    apply semantic_search_In in Hx. destruct Hx as (v & [[_ H]|[H _]]);
      [|discriminate].
    apply document_results_In in H.
    destruct H as (c & e & _ & _ & _ & Ht & _ & ->). cbn.
    split; [apply Ht; reflexivity|reflexivity].
  - intros ->. apply Forall_forall. intros x Hx.
    apply semantic_search_In in Hx. destruct Hx as (v & [[_ H]|[H _]]);
      [|discriminate].
    apply document_results_In in H.
    destruct H as (c & e & _ & _ & _ & _ & Hs & ->). cbn.
    split; [apply Hs; reflexivity|reflexivity].
  - intros ->. apply Forall_forall. intros x Hx.
    apply semantic_search_In in Hx. destruct Hx as (v & [[H _]|[_ H]]);
      [discriminate|].
    apply news_results_In in H.
    destruct H as (c & n & _ & _ & _ & ->). cbn. split; reflexivity.
  - intros Hno.
    destruct (semantic_search cosine_distance embedder db query
                company_symbol search_type limit similarity_threshold)
      as [|x rest] eqn:E; [reflexivity|].
    exfalso.
    assert (Hx : In x (semantic_search cosine_distance embedder db query
                         company_symbol search_type limit
                         similarity_threshold))
      by (rewrite E; left; reflexivity).
    apply semantic_search_In in Hx.
    unfold search_type_in in *. simpl in *.
    destruct (String.eqb search_type "all"),
      (String.eqb search_type "transcript"),
      (String.eqb search_type "summary"),
      (String.eqb search_type "news");
      simpl in *; try discriminate;
      destruct Hx as (v & [[H _]|[H _]]); discriminate.
Qed.

Lemma semantic_search_type_filter_witness :
  Forall (fun r => sr_type r = "transcript" /\
                   sr_source r = "earnings_call")
    (semantic_search sample_distance (Some sample_encode) db_small
       "Revenue grew x" None "transcript" 2 (7 # 10)) /\
  semantic_search sample_distance (Some sample_encode) db_small
    "Revenue grew x" None "filings" 2 (7 # 10) = [].
Proof.
  destruct (semantic_search_type_filter Z sample_distance
              (Some sample_encode) db_small "Revenue grew x" None
              "transcript" 2 (7 # 10)) as (H & _).
  destruct (semantic_search_type_filter Z sample_distance
              (Some sample_encode) db_small "Revenue grew x" None
              "filings" 2 (7 # 10)) as (_ & _ & _ & H').
  split; [apply H; reflexivity|apply H'; reflexivity].
Defined.

(** X13: every result is built from a stored chunk whose owner row
    exists (an earnings call for a document chunk, an article for a news
    chunk): the embedder is loaded and has embedded the query, the result
    carries that chunk's text and its owner's symbol, and its similarity
    is one minus the cosine distance between the chunk's embedding and
    the embedding of the query; with a non-empty company symbol every
    result belongs to that company. *)
Theorem semantic_search_results_from_store
        (vec : Type) (cosine_distance : vec -> vec -> Q)
        (embedder : option (Embedder vec)) (db : Db vec) (query : string)
        (company_symbol : option string) (search_type : string)
        (limit : nat) (similarity_threshold : Q) :
  let results :=
    semantic_search cosine_distance embedder db query company_symbol
      search_type limit similarity_threshold in
  Forall
    (fun r =>
       exists encode query_embedding,
         embedder = Some encode /\
         query_embedding_of encode query = Ok query_embedding /\
         ((exists c e,
              In c (document_chunks db) /\ In e (earnings_calls db) /\
              ec_id e = dc_earnings_call_id c /\
              sr_content r = dc_chunk_text c /\
              sr_type r = dc_chunk_type c /\
              sr_company_symbol r = ec_company_symbol e /\
              sr_similarity r =
              (1 - cosine_distance (dc_embedding c) query_embedding)%Q) \/
          (exists c n,
              In c (news_chunks db) /\ In n (financial_news db) /\
              fn_id n = nc_news_id c /\
              sr_content r = nc_chunk_text c /\
              sr_type r = "news" /\
              sr_company_symbol r = fn_symbol n /\
              sr_similarity r =
              (1 - cosine_distance (nc_embedding c) query_embedding)%Q)))
    results /\
  (forall s, company_symbol = Some s -> truthy s = true ->
             Forall (fun r => sr_company_symbol r = s) results).
Proof.
  intros results. subst results. split.
  - apply Forall_forall. intros x Hx.
    apply semantic_search_In_query in Hx.
    destruct Hx as (encode & v & He & Hv & [[_ H]|[_ H]]);
      exists encode, v; (split; [exact He|]); (split; [exact Hv|]).
    + apply document_results_In in H.
      destruct H as (c & e & Hc & Hf & _ & _ & _ & ->).
      apply find_some in Hf. destruct Hf as [Hin Hid].
      apply Z.eqb_eq in Hid.
      left. exists c, e. cbn. repeat (split; [assumption|]).
      repeat split; reflexivity.
    + apply news_results_In in H.
      destruct H as (c & n & Hc & Hf & _ & ->).
      apply find_some in Hf. destruct Hf as [Hn Hid].
      apply Z.eqb_eq in Hid.
      right. exists c, n. cbn. repeat (split; [assumption|]).
      repeat split; reflexivity.
  - intros s -> Hs. apply Forall_forall. intros x Hx.
    apply semantic_search_In in Hx. destruct Hx as (v & [[_ H]|[_ H]]).
    + apply document_results_In in H.
      destruct H as (c & e & _ & _ & Hco & _ & _ & ->). cbn.
      unfold company_matches in Hco. rewrite Hs in Hco.
      apply String.eqb_eq, Hco.
    + apply news_results_In in H.
      destruct H as (c & n & _ & _ & Hco & ->). cbn.
      unfold company_matches in Hco. rewrite Hs in Hco.
      apply String.eqb_eq, Hco.
Qed.

Lemma semantic_search_results_from_store_witness :
  let results :=
    semantic_search sample_distance (Some sample_encode) db_small
      "Revenue grew x" (Some "ACME") "all" 2 (7 # 10) in
  query_embedding_of sample_encode "Revenue grew x" = Ok 14%Z /\
  length results = 2 /\
  Forall
    (fun r =>
       (exists c e,
           In c (document_chunks db_small) /\
           In e (earnings_calls db_small) /\
           ec_id e = dc_earnings_call_id c /\
           sr_content r = dc_chunk_text c /\
           sr_type r = dc_chunk_type c /\
           sr_company_symbol r = ec_company_symbol e /\
           sr_similarity r =
           (1 - sample_distance (dc_embedding c) 14%Z)%Q) \/
       (exists c n,
           In c (news_chunks db_small) /\
           In n (financial_news db_small) /\
           fn_id n = nc_news_id c /\
           sr_content r = nc_chunk_text c /\
           sr_type r = "news" /\
           sr_company_symbol r = fn_symbol n /\
           sr_similarity r =
           (1 - sample_distance (nc_embedding c) 14%Z)%Q))
    results /\
  Forall (fun r => sr_company_symbol r = "ACME") results.
Proof.
  intros results.
  destruct (semantic_search_results_from_store Z sample_distance
              (Some sample_encode) db_small "Revenue grew x" (Some "ACME")
              "all" 2 (7 # 10)) as (H1 & H2).
  split; [reflexivity|]. split; [reflexivity|]. split.
  - eapply Forall_impl; [|exact H1].
    intros r (encode & v & He & Hv & H).
    injection He as <-. injection Hv as <-. exact H.
  - apply (H2 "ACME"); reflexivity.
Defined.

(** ** [get_embedding_stats] *)

Lemma sum_Z_cons (x : Z) (l : list Z) : sum_Z (x :: l) = (x + sum_Z l)%Z.
Proof. reflexivity. Qed.

Lemma sum_Z_map_add {A} (g h : A -> Z) (l : list A) :
  (sum_Z (map g l) + sum_Z (map h l))%Z = sum_Z (map (fun k => g k + h k)%Z l).
Proof.
  induction l as [|x l IH]; [reflexivity|].
  cbn [map]. rewrite !sum_Z_cons. lia.
Qed.

Lemma sum_indicator {A} (eqb : A -> A -> bool)
      (eqb_eq : forall a b, eqb a b = true <-> a = b)
      (x : A) (ks : list A) :
  NoDup ks -> In x ks ->
  sum_Z (map (fun k => if eqb x k then 1%Z else 0%Z) ks) = 1%Z.
Proof.
  induction 1 as [|k ks Hk Hnd IH]; simpl; [contradiction|].
  intros [->|Hin].
  - assert (eqb x x = true) as -> by (apply eqb_eq; reflexivity).
    assert (sum_Z (map (fun k => if eqb x k then 1%Z else 0%Z) ks) = 0%Z)
      as ->; [|reflexivity].
    clear IH Hnd. induction ks as [|k ks IH]; [reflexivity|]. simpl.
    destruct (eqb x k) eqn:E.
    + apply eqb_eq in E. subst. exfalso. apply Hk. left. reflexivity.
    + rewrite IH; [reflexivity|]. intros H. apply Hk. right. exact H.
  - destruct (eqb x k) eqn:E.
    + apply eqb_eq in E. subst. contradiction.
    + rewrite IH by exact Hin. reflexivity.
Qed.

(** Counting the rows of each key of a duplicate-free key list that
    covers the rows counts every row once. *)
Lemma sum_counts_by_key {A} (f : A -> string) (rows : list A)
      (ks : list string) :
  NoDup ks -> (forall r, In r rows -> In (f r) ks) ->
  sum_Z (map (fun k => len (filter (fun r => String.eqb (f r) k) rows)) ks)
  = len rows.
Proof.
  intros Hnd. induction rows as [|r rows IH]; intros Hcov.
  - clear. induction ks as [|k ks IHk]; [reflexivity|].
    simpl in *. rewrite IHk. reflexivity.
  - rewrite len_cons.
    rewrite <- IH by (intros r' Hr'; apply Hcov; right; exact Hr').
    rewrite <- (sum_indicator String.eqb String.eqb_eq (f r) ks Hnd)
      by (apply Hcov; left; reflexivity).
    rewrite sum_Z_map_add. f_equal. apply map_ext. intros k.
    cbn [filter]. destruct (String.eqb (f r) k); rewrite ?len_cons; lia.
Qed.

Lemma len_nodup_bounds {A} (dec : forall a b : A, {a = b} + {a <> b})
      (l : list A) :
  (len (nodup dec l) <= len l)%Z /\
  (len (nodup dec l) = 0%Z <-> l = []).
Proof.
  unfold len. split.
  - induction l as [|x l IH]; simpl; [lia|].
    destruct (in_dec dec x l); simpl; lia.
  - split.
    + intros H. destruct l as [|x l]; [reflexivity|]. exfalso.
      assert (Hin : In x (nodup dec (x :: l)))
        by (apply nodup_In; left; reflexivity).
      destruct (nodup dec (x :: l)); [contradiction|simpl in H; lia].
    + intros ->. reflexivity.
Qed.

(** X14: in the statistics of [get_embedding_stats] the per-type counts
    list every chunk type once, each with a positive count, and add up to
    the total number of document chunks; the number of earnings calls with
    embeddings is at most that total and is 0 only when there is no
    document chunk. *)
Theorem get_embedding_stats_consistent
        (vec : Type) (model_name : string) (db : Db vec) :
  let stats := get_embedding_stats model_name db in
  sum_Z (map snd (chunk_types stats)) = total_document_chunks stats /\
  NoDup (map fst (chunk_types stats)) /\
  Forall (fun tc => (1 <= snd tc)%Z) (chunk_types stats) /\
  (forall ty, In ty (map fst (chunk_types stats)) <->
              exists c, In c (document_chunks db) /\ dc_chunk_type c = ty) /\
  (earnings_calls_with_embeddings stats <= total_document_chunks stats)%Z /\
  (earnings_calls_with_embeddings stats = 0%Z <->
   total_document_chunks stats = 0%Z).
Proof.
  intros stats. subst stats. unfold get_embedding_stats.
  cbn [chunk_types total_document_chunks earnings_calls_with_embeddings].
  unfold count_by_chunk_type. rewrite !map_map. cbn [fst snd].
  rewrite map_id.
  split; [|split; [|split; [|split; [|split]]]].
  - apply (sum_counts_by_key dc_chunk_type).
    + apply NoDup_nodup.
    + intros r Hr. apply nodup_In, in_map, Hr.
  - apply NoDup_nodup.
  - apply Forall_map, Forall_forall. intros ty Hty. cbn [snd].
    apply nodup_In, in_map_iff in Hty. destruct Hty as (c & <- & Hc).
    assert (Hin : In c (filter (fun c0 => String.eqb (dc_chunk_type c0)
                                            (dc_chunk_type c))
                          (document_chunks db)))
      by (apply filter_In; split; [exact Hc|apply String.eqb_refl]).
    unfold len. destruct (filter _ _); [contradiction|simpl; lia].
  - intros ty. rewrite nodup_In, in_map_iff. split.
    + intros (c & <- & Hc). eauto.
    + intros (c & Hc & <-). eauto.
  - pose proof (len_nodup_bounds Z.eq_dec
                  (map dc_earnings_call_id (document_chunks db))) as [H _].
    unfold len in *. rewrite length_map in H. exact H.
  - pose proof (len_nodup_bounds Z.eq_dec
                  (map dc_earnings_call_id (document_chunks db))) as [_ H].
    rewrite H. unfold len. split.
    + intros E. apply map_eq_nil in E. rewrite E. reflexivity.
    + intros E. destruct (document_chunks db); [reflexivity|simpl in E; lia].
Qed.

(* ------------------------------------------------------------------ *)
(** ** [chunk_transcript]: the loop and its chunks *)
(* ------------------------------------------------------------------ *)

Lemma sum_Z_app (a b : list Z) : sum_Z (a ++ b) = (sum_Z a + sum_Z b)%Z.
Proof.
  induction a as [|x a IH]; [reflexivity|].
  cbn [app]. rewrite !sum_Z_cons, IH. lia.
Qed.

Lemma budget_app (a b : list string) :
  budget (a ++ b) = (budget a + budget b)%Z.
Proof. unfold budget. rewrite map_app. apply sum_Z_app. Qed.

Lemma budget_cons (w : string) (a : list string) :
  budget (w :: a) = (Z.of_nat (String.length w) + 1 + budget a)%Z.
Proof. reflexivity. Qed.

Lemma budget_single (w : string) :
  budget [w] = (Z.of_nat (String.length w) + 1)%Z.
Proof. rewrite budget_cons. unfold budget. simpl. lia. Qed.

Lemma budget_nonneg (a : list string) : (0 <= budget a)%Z.
Proof.
  induction a as [|w a IH]; [unfold budget; simpl; lia|].
  rewrite budget_cons. lia.
Qed.

Lemma string_length_append (s1 s2 : string) :
  String.length (s1 ++ s2)%string = String.length s1 + String.length s2.
Proof.
  induction s1 as [|c s1 IH]; simpl; [reflexivity|].
  rewrite IH. reflexivity.
Qed.

(** The joined chunk is one character shorter than its budget. *)
Lemma join_length (ws : list string) :
  ws <> [] ->
  Z.of_nat (String.length (join " " ws)) = (budget ws - 1)%Z.
Proof.
  induction ws as [|w ws IH]; [congruence|]. intros _.
  destruct ws as [|w' ws'].
  - rewrite budget_single. simpl. lia.
  - rewrite budget_cons. unfold join in *.
    change (String.concat " " (w :: w' :: ws'))
      with (w ++ " " ++ String.concat " " (w' :: ws'))%string.
    rewrite !string_length_append.
    specialize (IH ltac:(discriminate)). simpl String.length at 2. lia.
Qed.

(** What is carried over is the whole chunk when it has fewer than four
    words, and its last [min(100, len // 4)] words otherwise. *)
Lemma carried_over_cases (p : list string) :
  ((len p < 4)%Z /\ carried_over p = p) \/
  ((4 <= len p)%Z /\
   carried_over p =
   skipn (Z.to_nat (len p - Z.min 100 (len p / 4))) p /\
   len (carried_over p) = Z.min 100 (len p / 4)).
Proof.
  unfold carried_over, py_slice, clamp_index. fold (len p).
  set (k := Z.min 100 (len p / 4)).
  assert (Hn : (0 <= len p)%Z) by (unfold len; lia).
  assert (Hq : (0 <= len p / 4 /\ 4 * (len p / 4) <= len p <
                4 * (len p / 4) + 4)%Z).
  { pose proof (Z.div_mod (len p) 4 ltac:(lia)).
    pose proof (Z.mod_pos_bound (len p) 4 ltac:(lia)). lia. }
  destruct (Z.ltb_spec (len p) 0) as [?|_]; [lia|].
  rewrite Z.min_id.
  destruct (Z.ltb_spec (- k) 0) as [Hk|Hk].
  - right. assert (Hk' : (0 < k <= len p)%Z) by (subst k; lia).
    split; [subst k; lia|].
    replace (Z.max 0 (- k + len p)) with (len p - k)%Z by lia.
    replace (len p - (len p - k))%Z with k by lia.
    assert (E : firstn (Z.to_nat k) (skipn (Z.to_nat (len p - k)) p) =
                skipn (Z.to_nat (len p - k)) p).
    { apply firstn_all2. rewrite length_skipn. unfold len in *. lia. }
    rewrite E. split; [reflexivity|].
    unfold len at 1. rewrite length_skipn. unfold len in *. lia.
  - left. assert (Hk' : k = 0%Z) by (subst k; lia).
    split; [subst k; lia|]. rewrite Hk'.
    replace (Z.min (- 0) (len p)) with 0%Z by lia.
    rewrite Z.sub_0_r. cbn [Z.to_nat skipn].
    apply firstn_all2. unfold len. lia.
Qed.

Lemma carried_over_suffix (p : list string) :
  exists before, p = before ++ carried_over p.
Proof.
  destruct (carried_over_cases p) as [(_ & E)|(_ & E & _)].
  - exists []. rewrite E. reflexivity.
  - exists (firstn (Z.to_nat (len p - Z.min 100 (len p / 4))) p).
    rewrite E. symmetry. apply firstn_skipn.
Qed.

Lemma follows_length (max : Z) (p a : list string) :
  follows max p a -> length (carried_over p) <= length a.
Proof.
  intros (w & more & E & _). rewrite E, length_app. lia.
Qed.

Lemma linked_snoc (max : Z) (l : list (list string)) :
  forall previous a b,
    linked max previous (l ++ [a]) -> follows max a b ->
    linked max previous ((l ++ [a]) ++ [b]).
Proof.
  induction l as [|x l IH]; intros previous a b H Hab.
  - cbn [app linked] in *. destruct H as (H & _). auto.
  - cbn [app linked] in *. destruct H as (H & H'). split; [exact H|].
    apply IH; assumption.
Qed.

Lemma linked_last (max : Z) (l : list (list string)) :
  forall previous a a',
    linked max previous (l ++ [a]) ->
    (forall p, follows max p a -> follows max p a') ->
    linked max previous (l ++ [a']).
Proof.
  induction l as [|x l IH]; intros previous a a' H Hext.
  - cbn [app linked] in *. destruct H as (H & _). split; [|exact I].
    destruct previous; [apply Hext, H|exact I].
  - cbn [app linked] in *. destruct H as (H & H'). split; [exact H|].
    apply (IH _ a); assumption.
Qed.

Lemma linked_nth (max : Z) (l : list (list string)) :
  forall previous k p c,
    linked max previous l ->
    nth_error l k = Some p -> nth_error l (S k) = Some c ->
    follows max p c.
Proof.
  induction l as [|x l IH]; intros previous k p c H Hp Hc.
  - destruct k; discriminate.
  - cbn [linked] in H. destruct H as (_ & H). destruct k as [|k].
    + cbn [nth_error] in Hp, Hc. injection Hp as ->.
      destruct l as [|y l]; [discriminate|].
      cbn [nth_error] in Hc. injection Hc as ->.
      cbn [linked] in H. apply H.
    + cbn [nth_error] in Hp. apply (IH (Some x) k p c H Hp).
      exact Hc.
Qed.

Lemma sized_snoc (max : Z) (l : list (list string)) :
  forall previous a b,
    sized max previous (l ++ [a]) ->
    ((budget b <= max)%Z \/ exists word, b = carried_over a ++ [word]) ->
    sized max previous ((l ++ [a]) ++ [b]).
Proof.
  induction l as [|x l IH]; intros previous a b H Hb.
  - cbn [app sized] in *. destruct H as (H & _).
    split; [exact H|]. split; [exact Hb|exact I].
  - cbn [app sized] in *. destruct H as (H & H'). split; [exact H|].
    apply IH; assumption.
Qed.

Lemma sized_last (max : Z) (l : list (list string)) :
  forall previous a a',
    sized max previous (l ++ [a]) -> (budget a' <= max)%Z ->
    sized max previous (l ++ [a']).
Proof.
  induction l as [|x l IH]; intros previous a a' H Ha.
  - cbn [app sized] in *. split; [left; exact Ha|exact I].
  - cbn [app sized] in *. destruct H as (H & H'). split; [exact H|].
    apply (IH _ a); assumption.
Qed.

Lemma sized_nth (max : Z) (l : list (list string)) :
  forall previous k c,
    sized max previous l -> nth_error l k = Some c ->
    (budget c <= max)%Z \/
    exists word,
      c = carried_from match k with
                       | O => previous
                       | S j => nth_error l j
                       end ++ [word].
Proof.
  induction l as [|x l IH]; intros previous k c H Hc.
  - destruct k; discriminate.
  - cbn [sized] in H. destruct H as (H & H'). destruct k as [|k].
    + cbn [nth_error] in Hc. injection Hc as <-. exact H.
    + cbn [nth_error] in Hc.
      destruct (IH (Some x) k c H' Hc) as [Hb|Hw]; [left; exact Hb|].
      right. destruct k as [|j]; exact Hw.
Qed.

Lemma fresh_words_snoc (l : list (list string)) :
  forall previous a b,
    fresh_words previous ((l ++ [a]) ++ [b]) =
    fresh_words previous (l ++ [a]) ++ skipn (length (carried_over a)) b.
Proof.
  induction l as [|x l IH]; intros previous a b.
  - cbn [app fresh_words carried_from]. rewrite !app_nil_r. reflexivity.
  - cbn [app fresh_words]. rewrite IH, app_assoc. reflexivity.
Qed.

Lemma fresh_words_last (max : Z) (l : list (list string)) :
  forall previous a w,
    linked max previous (l ++ [a]) ->
    (l = [] -> length (carried_from previous) <= length a) ->
    fresh_words previous (l ++ [a ++ [w]]) =
    fresh_words previous (l ++ [a]) ++ [w].
Proof.
  induction l as [|x l IH]; intros previous a w H Hlen.
  - cbn [app fresh_words]. rewrite !app_nil_r, skipn_app.
    specialize (Hlen eq_refl).
    replace (length (carried_from previous) - length a) with 0 by lia.
    reflexivity.
  - cbn [app fresh_words linked] in *. destruct H as (_ & H).
    rewrite (IH (Some x) a w H).
    + rewrite app_assoc. reflexivity.
    + intros ->. cbn [app linked] in H. destruct H as (H & _).
      cbn [carried_from]. apply (follows_length max), H.
Qed.

(** One round of the loop keeps the invariant. *)
Lemma chunk_transcript_step_inv (max : Z) (processed : list string)
      (st : ChunkerState) (closed : list (list string)) (word : string) :
  chunker_inv max processed st closed ->
  exists closed',
    chunker_inv max (processed ++ [word])
                (chunk_transcript_step max st word) closed'.
Proof.
  intros H. destruct st as [chunks current clen].
  unfold chunker_inv in *.
  cbn [st_chunks st_current_chunk st_current_length] in H.
  destruct H as (Hc & Hl & Hne & (before & Hb) & Hin & Hfresh & Hlink
                 & Hsize).
  unfold chunk_transcript_step.
  cbn [st_chunks st_current_chunk st_current_length].
  assert (Hm : match current with [] => false | _ :: _ => true end = true)
    by (destruct current; [congruence|reflexivity]).
  rewrite Hm, andb_true_r. clear Hm.
  destruct (Z.gtb_spec (clen + (Z.of_nat (String.length word) + 1)) max)
    as [Hgt|Hle].
  - exists (closed ++ [current]).
    cbn [st_chunks st_current_chunk st_current_length].
    split; [|split; [|split; [|split; [|split; [|split; [|split]]]]]].
    + rewrite map_app, Hc. reflexivity.
    + rewrite budget_app, budget_single. reflexivity.
    + intros E. apply app_eq_nil in E. destruct E; discriminate.
    + destruct (carried_over_suffix current) as (pre & Hpre).
      exists (before ++ pre).
      assert (E : before ++ current =
                  (before ++ pre) ++ carried_over current)
        by (rewrite <- app_assoc, <- Hpre; reflexivity).
      rewrite Hb, E, <- !app_assoc. reflexivity.
    + apply Forall_app. split.
      * eapply Forall_impl; [|exact Hin].
        intros c (Hcne & b & a & E). split; [exact Hcne|].
        exists b, (a ++ [word]). rewrite E, <- !app_assoc. reflexivity.
      * constructor; [|constructor]. split; [exact Hne|].
        exists before, [word]. rewrite Hb, <- app_assoc. reflexivity.
    + rewrite fresh_words_snoc, Hfresh. f_equal.
      rewrite skipn_app, skipn_all, Nat.sub_diag. reflexivity.
    + apply linked_snoc; [exact Hlink|].
      exists word, []. split; [reflexivity|]. rewrite <- Hl. lia.
    + apply sized_snoc; [exact Hsize|]. right. exists word. reflexivity.
  - exists closed.
    cbn [st_chunks st_current_chunk st_current_length].
    split; [|split; [|split; [|split; [|split; [|split; [|split]]]]]].
    + exact Hc.
    + rewrite budget_app, budget_single, Hl. reflexivity.
    + intros E. apply app_eq_nil in E. destruct E; discriminate.
    + exists before. rewrite Hb, app_assoc. reflexivity.
    + eapply Forall_impl; [|exact Hin].
      intros c (Hcne & b & a & E). split; [exact Hcne|].
      exists b, (a ++ [word]). rewrite E, <- !app_assoc. reflexivity.
    + rewrite (fresh_words_last max closed None current word Hlink).
      * rewrite Hfresh. reflexivity.
      * intros _. cbn [carried_from length]. lia.
    + apply (linked_last max closed None current); [exact Hlink|].
      intros p (w & more & E & Hw). exists w, (more ++ [word]).
      split; [|exact Hw]. rewrite E, <- app_assoc. reflexivity.
    + apply (sized_last max closed None current); [exact Hsize|].
      rewrite budget_app, budget_single, <- Hl. exact Hle.
Qed.

Lemma chunk_transcript_loop_inv (max : Z) (rest : list string) :
  forall processed st closed,
    chunker_inv max processed st closed ->
    exists closed',
      chunker_inv max (processed ++ rest)
                  (fold_left (chunk_transcript_step max) rest st) closed'.
Proof.
  induction rest as [|w rest IH]; intros processed st closed H.
  - exists closed. rewrite app_nil_r. exact H.
  - cbn [fold_left].
    destruct (chunk_transcript_step_inv max processed st closed w H)
      as (c1 & H1).
    destruct (IH _ _ _ H1) as (c2 & H2). exists c2.
    rewrite <- app_assoc in H2. exact H2.
Qed.

(** After the first word the state is a single open chunk. *)
Lemma chunk_transcript_first_inv (max : Z) (word : string) :
  chunker_inv max [word]
    (chunk_transcript_step max
       {| st_chunks := []; st_current_chunk := []; st_current_length := 0 |}
       word) [].
Proof.
  unfold chunk_transcript_step.
  cbn [st_chunks st_current_chunk st_current_length].
  rewrite andb_false_r.
  unfold chunker_inv. cbn [st_chunks st_current_chunk st_current_length app].
  split; [reflexivity|]. split; [rewrite budget_single; lia|].
  split; [discriminate|]. split; [exists []; reflexivity|].
  split; [constructor|]. split; [reflexivity|].
  split; [cbn [linked]; auto|].
  cbn [sized]. split; [|exact I]. right. exists word. reflexivity.
Qed.

Lemma infix_words (l before c after : list string) :
  Forall is_word l -> l = before ++ c ++ after -> Forall is_word c.
Proof.
  intros H ->. apply Forall_app in H. destruct H as (_ & H).
  apply Forall_app in H. apply H.
Qed.

(** The chunks of a transcript with at least one word, as token lists. *)
Lemma chunk_transcript_tokens (transcript : string) (max : Z) :
  split transcript <> [] ->
  exists tokens,
    chunk_transcript transcript max = map (join " ") tokens /\
    map split (chunk_transcript transcript max) = tokens /\
    tokens <> [] /\
    Forall (fun c => c <> [] /\
                     exists before after,
                       split transcript = before ++ c ++ after) tokens /\
    fresh_words None tokens = split transcript /\
    linked max None tokens /\
    sized max None tokens.
Proof.
  intros Hne. unfold chunk_transcript.
  pose proof (split_is_word transcript) as Hw.
  destruct (split transcript) as [|w ws] eqn:Es; [congruence|].
  cbn [fold_left].
  destruct (chunk_transcript_loop_inv max ws [w] _ []
              (chunk_transcript_first_inv max w)) as (closed & H).
  cbn [app] in H.
  set (st := fold_left _ ws _) in *.
  destruct H as (Hc & _ & Hcur & (before & Hb) & Hin & Hfresh & Hlink
                 & Hsize).
  assert (Hall : Forall (fun c => c <> [] /\
                                  exists before after,
                                    w :: ws = before ++ c ++ after)
                        (closed ++ [st_current_chunk st])).
  { apply Forall_app. split; [exact Hin|]. constructor; [|constructor].
    split; [exact Hcur|]. exists before, []. rewrite app_nil_r. exact Hb. }
  assert (E : match st_current_chunk st with
              | [] => st_chunks st
              | _ :: _ => st_chunks st ++ [join " " (st_current_chunk st)]
              end = map (join " ") (closed ++ [st_current_chunk st])).
  { rewrite map_app, <- Hc. destruct (st_current_chunk st); [congruence|].
    reflexivity. }
  exists (closed ++ [st_current_chunk st]). rewrite E.
  split; [reflexivity|]. split.
  - rewrite map_map. rewrite <- (map_id (closed ++ _)) at 2.
    apply map_ext_in. intros c Hc'.
    rewrite Forall_forall in Hall. destruct (Hall c Hc') as (_ & b & a & Ec).
    apply split_join. apply (infix_words (w :: ws) b c a Hw Ec).
  - split; [intros E'; apply app_eq_nil in E'; destruct E'; discriminate|].
    repeat split; assumption.
Qed.

Lemma chunk_transcript_no_word (transcript : string) (max : Z) :
  split transcript = [] -> chunk_transcript transcript max = [].
Proof. intros H. unfold chunk_transcript. rewrite H. reflexivity. Qed.

(** X15: the chunks of [chunk_transcript] give the words of the transcript
    back: the first chunk followed by what every later chunk has after the
    words it repeats from the chunk before it is the word sequence of the
    transcript.  Every chunk is a non-empty run of consecutive words of
    the transcript, and there is no chunk only when there is no word. *)
Theorem chunk_transcript_reconstructs (transcript : string) (max : Z) :
  let chunks := chunk_transcript transcript max in
  fresh_words None (map split chunks) = split transcript /\
  Forall (fun c => split c <> [] /\
                   exists before after,
                     split transcript = before ++ split c ++ after)
         chunks /\
  (chunks = [] <-> split transcript = []).
Proof.
  intros chunks. subst chunks.
  destruct (split transcript) as [|w ws] eqn:Es.
  - rewrite (chunk_transcript_no_word transcript max Es).
    split; [reflexivity|]. split; [constructor|]. split; reflexivity.
  - assert (Hne : split transcript <> []) by (rewrite Es; discriminate).
    destruct (chunk_transcript_tokens transcript max Hne)
      as (tokens & E & Et & Hn & Hall & Hfresh & _ & _).
    rewrite Et, <- Es. split; [exact Hfresh|]. split.
    + rewrite <- Et in Hall. apply Forall_map in Hall. exact Hall.
    + rewrite E. split; [|intros H; congruence].
      intros H. apply map_eq_nil in H. congruence.
Qed.

(** X16: a chunk after another starts with the words carried over from
    that chunk, which are the whole chunk when it has fewer than four
    words and its last min(100, n // 4) words when it has n >= 4 words,
    and goes on with at least one further word; that word did not fit:
    the chunk before, a blank and the word are more than
    [max_chunk_size] - 1 characters. *)
Theorem chunk_transcript_carry (transcript : string) (max : Z) (k : nat)
        (p c : string) :
  nth_error (chunk_transcript transcript max) k = Some p ->
  nth_error (chunk_transcript transcript max) (S k) = Some c ->
  (exists word more,
      split c = carried_over (split p) ++ word :: more /\
      (Z.of_nat (String.length p) + 1 + Z.of_nat (String.length word) + 1 >
       max)%Z) /\
  ((len (split p) < 4)%Z -> carried_over (split p) = split p) /\
  ((4 <= len (split p))%Z ->
   carried_over (split p) =
   skipn (Z.to_nat (len (split p) - Z.min 100 (len (split p) / 4)))
         (split p) /\
   len (carried_over (split p)) = Z.min 100 (len (split p) / 4)).
Proof.
  intros Hp Hc. split.
  - destruct (split transcript) as [|w ws] eqn:Es.
    { rewrite (chunk_transcript_no_word transcript max Es) in Hp.
      destruct k; discriminate. }
    assert (Hne : split transcript <> []) by (rewrite Es; discriminate).
    destruct (chunk_transcript_tokens transcript max Hne)
      as (tokens & E & Et & _ & Hall & _ & Hlink & _).
    assert (Hp' : nth_error tokens k = Some (split p))
      by (rewrite <- Et, nth_error_map, Hp; reflexivity).
    assert (Hc' : nth_error tokens (S k) = Some (split c))
      by (rewrite <- Et, nth_error_map, Hc; reflexivity).
    destruct (linked_nth max tokens None k _ _ Hlink Hp' Hc')
      as (word & more & Ec & Hb).
    exists word, more. split; [exact Ec|].
    rewrite E, nth_error_map, Hp' in Hp. cbn [option_map] in Hp.
    injection Hp as Hp.
    rewrite Forall_forall in Hall.
    destruct (Hall _ (nth_error_In _ _ Hp')) as (Hpne & _).
    pose proof (join_length (split p) Hpne) as HL. rewrite Hp in HL. lia.
  - destruct (carried_over_cases (split p)) as [(H1 & H2)|(H1 & H2 & H3)].
    + split; [intros _; exact H2|lia].
    + split; [lia|]. intros _. split; assumption.
Qed.

Lemma chunk_transcript_carry_witness :
  (exists word more,
      split "e f g h i" =
      carried_over (split "a b c d e") ++ word :: more /\
      (Z.of_nat (String.length "a b c d e") + 1 +
       Z.of_nat (String.length word) + 1 > 10)%Z) /\
  ((len (split "a b c d e") < 4)%Z ->
   carried_over (split "a b c d e") = split "a b c d e") /\
  ((4 <= len (split "a b c d e"))%Z ->
   carried_over (split "a b c d e") =
   skipn (Z.to_nat (len (split "a b c d e") -
                    Z.min 100 (len (split "a b c d e") / 4)))
         (split "a b c d e") /\
   len (carried_over (split "a b c d e")) =
   Z.min 100 (len (split "a b c d e") / 4)).
Proof.
  apply (chunk_transcript_carry "a b c d e f g h i j k l" 10 0
           "a b c d e" "e f g h i"); reflexivity.
Defined.

(** X17: a chunk is shorter than [max_chunk_size] characters unless it is
    what was carried over from the chunk before it and one more word (for
    the first chunk: a single word). *)
Theorem chunk_transcript_size (transcript : string) (max : Z) (k : nat)
        (c : string) :
  nth_error (chunk_transcript transcript max) k = Some c ->
  (Z.of_nat (String.length c) < max)%Z \/
  exists word,
    split c =
    carried_from
      (chunk_before (map split (chunk_transcript transcript max)) k) ++
    [word].
Proof.
  intros Hc.
  destruct (split transcript) as [|w ws] eqn:Es.
  { rewrite (chunk_transcript_no_word transcript max Es) in Hc.
    destruct k; discriminate. }
  assert (Hne : split transcript <> []) by (rewrite Es; discriminate).
  destruct (chunk_transcript_tokens transcript max Hne)
    as (tokens & E & Et & _ & Hall & _ & _ & Hsize).
  assert (Hc' : nth_error tokens k = Some (split c))
    by (rewrite <- Et, nth_error_map, Hc; reflexivity).
  rewrite Et.
  destruct (sized_nth max tokens None k _ Hsize Hc') as [Hb|Hw].
  - left. rewrite E, nth_error_map, Hc' in Hc. cbn [option_map] in Hc.
    injection Hc as Hc.
    rewrite Forall_forall in Hall.
    destruct (Hall _ (nth_error_In _ _ Hc')) as (Hcne & _).
    pose proof (join_length (split c) Hcne) as HL. rewrite Hc in HL. lia.
  - right. exact Hw.
Qed.

Lemma chunk_transcript_size_witness :
  (Z.of_nat (String.length "e f g h i") < 10)%Z \/
  exists word,
    split "e f g h i" =
    carried_from
      (chunk_before
         (map split (chunk_transcript "a b c d e f g h i j k l" 10)) 1) ++
    [word].
Proof.
  apply (chunk_transcript_size "a b c d e f g h i j k l" 10 1 "e f g h i").
  reflexivity.
Defined.

(** X18: a transcript with at least one word whose words, each counted
    with one separator, fit into [max_chunk_size] gives exactly one chunk:
    its words joined by single blanks. *)
Theorem chunk_transcript_fits (transcript : string) (max : Z) :
  split transcript <> [] ->
  (budget (split transcript) <= max)%Z ->
  chunk_transcript transcript max = [join " " (split transcript)].
Proof.
  intros Hne Hfit.
  destruct (chunk_transcript_tokens transcript max Hne)
    as (tokens & E & _ & Hn & _ & Hfresh & Hlink & _).
  rewrite E. destruct tokens as [|p [|c rest]]; [congruence| |].
  - cbn [fresh_words carried_from length skipn] in Hfresh.
    rewrite app_nil_r in Hfresh. rewrite Hfresh. reflexivity.
  - exfalso. cbn [linked] in Hlink.
    destruct Hlink as (_ & (word & more & Ec & Hb) & _).
    cbn [fresh_words carried_from length skipn] in Hfresh.
    rewrite Ec, skipn_app, skipn_all, Nat.sub_diag in Hfresh.
    cbn [skipn app] in Hfresh. rewrite <- Hfresh in Hfit.
    rewrite budget_app, budget_cons, budget_app in Hfit.
    pose proof (budget_nonneg more).
    pose proof (budget_nonneg
                  (fresh_words (Some (carried_over p ++ word :: more))
                               rest)).
    lia.
Qed.

Lemma chunk_transcript_fits_witness :
  chunk_transcript "Revenue  grew again" 4000 =
  [join " " (split "Revenue  grew again")].
Proof.
  apply (chunk_transcript_fits "Revenue  grew again" 4000);
    [simpl; discriminate|vm_compute; discriminate].
Defined.

(* ------------------------------------------------------------------ *)
(** ** [extract_forward_guidance]: the text sent to the model *)
(* ------------------------------------------------------------------ *)

Lemma fold_left_app_flat {A B} (f : A -> list B)
      (step : list B -> A -> list B) (l : list A) :
  (forall acc x, step acc x = acc ++ f x) ->
  forall acc, fold_left step l acc = acc ++ flat_map f l.
Proof.
  intros Hs. induction l as [|x l IH]; intros acc; cbn [fold_left flat_map].
  - rewrite app_nil_r. reflexivity.
  - rewrite IH, Hs, app_assoc. reflexivity.
Qed.

(** The loop over the lines, as one window per line with a keyword. *)
Lemma guidance_sections_flat (lines : list string) :
  guidance_sections lines =
  flat_map
    (fun il =>
       if has_forward_keyword (snd il)
       then py_slice lines (Z.max 0 (fst il - 2))
                     (Z.min (len lines) (fst il + 3))
       else [])
    (enumerate lines).
Proof.
  unfold guidance_sections.
  rewrite (fold_left_app_flat
             (fun il =>
                if has_forward_keyword (snd il)
                then py_slice lines (Z.max 0 (fst il - 2))
                              (Z.min (len lines) (fst il + 3))
                else [])); [reflexivity|].
  intros acc [i line]. cbn [fst snd].
  destruct (has_forward_keyword line); [reflexivity|].
  rewrite app_nil_r. reflexivity.
Qed.

Lemma In_enumerate_from {A} (l : list A) :
  forall start z x,
    In (z, x) (enumerate_from start l) <->
    exists i, z = (start + Z.of_nat i)%Z /\ nth_error l i = Some x.
Proof.
  induction l as [|y l IH]; intros start z x; cbn [enumerate_from In].
  - split; [tauto|]. intros (i & _ & H). destruct i; discriminate.
  - rewrite IH. split.
    + intros [E|(i & -> & H)].
      * injection E as <- <-. exists 0. split; [lia|reflexivity].
      * exists (S i). split; [lia|exact H].
    + intros ([|i] & -> & H).
      * left. cbn [nth_error] in H. injection H as ->.
        f_equal. lia.
      * right. exists i. split; [lia|exact H].
Qed.

(** The slice taken around line [i]. *)
Lemma In_window (lines : list string) (i : nat) (x : string) :
  i < length lines ->
  In x (py_slice lines (Z.max 0 (Z.of_nat i - 2))
                 (Z.min (len lines) (Z.of_nat i + 3))) <->
  exists j, nth_error lines j = Some x /\ i <= j + 2 /\ j <= i + 2.
Proof.
  intros Hi.
  set (a := Z.max 0 (Z.of_nat i - 2)).
  set (b := Z.min (len lines) (Z.of_nat i + 3)).
  assert (Ha : (0 <= a)%Z) by (subst a; lia).
  assert (Hab : (0 <= b - a)%Z) by (subst a b; unfold len; lia).
  replace b with (a + (b - a))%Z by lia.
  rewrite py_slice_window by assumption.
  split.
  - intros H. apply In_nth_error in H. destruct H as (k & H).
    rewrite nth_error_firstn in H.
    destruct (Nat.ltb_spec k (Z.to_nat (b - a))) as [Hk|_]; [|discriminate].
    rewrite nth_error_skipn in H.
    exists (Z.to_nat a + k). split; [exact H|].
    subst a b. unfold len in *. lia.
  - intros (j & H & H1 & H2).
    assert (Hj : j < length lines)
      by (apply nth_error_Some; rewrite H; discriminate).
    apply (nth_error_In _ (j - Z.to_nat a)).
    rewrite nth_error_firstn.
    destruct (Nat.ltb_spec (j - Z.to_nat a) (Z.to_nat (b - a))) as [_|Hk].
    + rewrite nth_error_skipn.
      replace (Z.to_nat a + (j - Z.to_nat a)) with j
        by (subst a; lia).
      exact H.
    + subst a b. unfold len in *. lia.
Qed.

Lemma prefix_nil (s : string) : prefix EmptyString s = true.
Proof. destruct s; reflexivity. Qed.

Lemma prefix_append (k : string) :
  forall x b, prefix k x = true -> prefix k (x ++ b) = true.
Proof.
  induction k as [|a k IH]; intros x b H; [apply prefix_nil|].
  destruct x as [|c x]; [discriminate|].
  cbn [append prefix] in *.
  destruct (ascii_dec a c); [apply IH, H|discriminate].
Qed.

Lemma contains_of_prefix (k s : string) :
  prefix k s = true -> contains k s = true.
Proof. intros H. destruct s; cbn [contains]; rewrite H; reflexivity. Qed.

Lemma contains_append_r (k x b : string) :
  contains k x = true -> contains k (x ++ b) = true.
Proof.
  induction x as [|c x IH]; intros H.
  - cbn [contains] in H. rewrite orb_false_r in H.
    apply contains_of_prefix. apply (prefix_append k EmptyString b H).
  - cbn [contains] in H. apply orb_true_iff in H. destruct H as [H|H].
    + apply contains_of_prefix, prefix_append, H.
    + cbn [append contains]. rewrite (IH H). apply orb_true_r.
Qed.

Lemma contains_append_l (k a x : string) :
  contains k x = true -> contains k (a ++ x) = true.
Proof.
  intros H. induction a as [|c a IH]; [exact H|].
  cbn [append contains]. rewrite IH. apply orb_true_r.
Qed.

Lemma lower_append (a b : string) :
  lower (a ++ b) = (lower a ++ lower b)%string.
Proof.
  induction a as [|c a IH]; [reflexivity|].
  cbn [append lower]. rewrite IH. reflexivity.
Qed.

(** The pieces of [split_on] are pieces of the string. *)
Lemma split_on_head (sep : ascii) (s : string) :
  exists p ps b, split_on sep s = p :: ps /\ s = (p ++ b)%string.
Proof.
  induction s as [|c s (p & ps & b & E & Hb)].
  - exists EmptyString, [], EmptyString. split; reflexivity.
  - cbn [split_on]. destruct (Ascii.eqb c sep).
    + exists EmptyString, (split_on sep s), (String c s).
      split; reflexivity.
    + rewrite E. exists (String c p), ps, b. split; [reflexivity|].
      cbn [append]. rewrite <- Hb. reflexivity.
Qed.

Lemma split_on_infix (sep : ascii) (s piece : string) :
  In piece (split_on sep s) ->
  exists a b, s = (a ++ piece ++ b)%string.
Proof.
  revert piece. induction s as [|c s IH]; intros piece H.
  - cbn [split_on In] in H. destruct H as [<-|[]].
    exists EmptyString, EmptyString. reflexivity.
  - cbn [split_on] in H. destruct (Ascii.eqb c sep).
    + destruct H as [<-|H].
      * exists EmptyString, (String c s). reflexivity.
      * destruct (IH piece H) as (a & b & E).
        exists (String c a), b. cbn [append]. rewrite <- E. reflexivity.
    + destruct (split_on_head sep s) as (p & ps & b & E & Hb).
      rewrite E in H, IH. destruct H as [<-|H].
      * exists EmptyString, b. cbn [append]. rewrite <- Hb. reflexivity.
      * destruct (IH piece (or_intror H)) as (a & b' & E').
        exists (String c a), b'. cbn [append]. rewrite <- E'.
        reflexivity.
Qed.

(** A keyword found in a line is found in the whole text. *)
Lemma has_forward_keyword_line (transcript line : string) :
  In line (split_on (ascii_of_nat 10) transcript) ->
  has_forward_keyword line = true ->
  has_forward_keyword transcript = true.
Proof.
  intros Hin H. unfold has_forward_keyword in *.
  apply existsb_exists in H. destruct H as (k & Hk & Hc).
  apply existsb_exists. exists k. split; [exact Hk|].
  destruct (split_on_infix _ _ _ Hin) as (a & b & ->).
  rewrite !lower_append. apply contains_append_l, contains_append_r, Hc.
Qed.

Lemma substring_length (n : nat) :
  forall s, String.length (substring 0 n s) <= n.
Proof.
  induction n as [|n IH]; intros [|c s]; cbn [substring String.length];
    try lia.
  specialize (IH s). lia.
Qed.

Lemma split_on_single (t : string) :
  contains newline t = false -> split_on (ascii_of_nat 10) t = [t].
Proof.
  induction t as [|c t IH]; intros H; [reflexivity|].
  cbn [contains] in H. apply orb_false_iff in H. destruct H as (Hp & Hc).
  cbn [split_on]. rewrite (IH Hc).
  destruct (Ascii.eqb_spec c (ascii_of_nat 10)) as [->|_]; [|reflexivity].
  unfold newline in Hp. cbn [prefix] in Hp.
  destruct (ascii_dec (ascii_of_nat 10) (ascii_of_nat 10)); [|congruence].
  rewrite prefix_nil in Hp. discriminate.
Qed.

(** The selected lines, by their positions. *)
Lemma guidance_sections_In (lines : list string) (x : string) :
  In x (guidance_sections lines) <->
  exists i j line,
    nth_error lines i = Some line /\
    has_forward_keyword line = true /\
    nth_error lines j = Some x /\ i <= j + 2 /\ j <= i + 2.
Proof.
  rewrite guidance_sections_flat, in_flat_map. split.
  - intros ([z line] & Hil & Hx). cbn [fst snd] in Hx.
    apply In_enumerate_from in Hil. destruct Hil as (i & -> & Hi).
    destruct (has_forward_keyword line) eqn:Hk; [|destruct Hx].
    assert (Hlt : i < length lines)
      by (apply nth_error_Some; rewrite Hi; discriminate).
    rewrite Z.add_0_l in Hx. apply (In_window lines i x Hlt) in Hx.
    destruct Hx as (j & Hj & H1 & H2).
    exists i, j, line. repeat split; assumption.
  - intros (i & j & line & Hi & Hk & Hj & H1 & H2).
    exists (Z.of_nat i, line). split.
    + apply In_enumerate_from. exists i. split; [lia|exact Hi].
    + cbn [fst snd]. rewrite Hk.
      assert (Hlt : i < length lines)
        by (apply nth_error_Some; rewrite Hi; discriminate).
      apply (In_window lines i x Hlt). exists j.
      repeat split; assumption.
Qed.

(** X19: the lines selected for the forward guidance are exactly the
    lines of the transcript at most two lines away from a line that
    contains a forward-guidance keyword (in any letter case); none is
    selected exactly when no line contains a keyword. *)
Theorem guidance_sections_window (lines : list string) :
  (forall x,
      In x (guidance_sections lines) <->
      exists i j line,
        nth_error lines i = Some line /\
        has_forward_keyword line = true /\
        nth_error lines j = Some x /\ i <= j + 2 /\ j <= i + 2) /\
  (guidance_sections lines = [] <->
   Forall (fun line => has_forward_keyword line = false) lines).
Proof.
  split; [intros x; apply guidance_sections_In|]. split.
  - intros E. apply Forall_forall. intros line Hl.
    destruct (has_forward_keyword line) eqn:Hk; [|reflexivity].
    exfalso. apply In_nth_error in Hl. destruct Hl as (i & Hi).
    assert (H : In line (guidance_sections lines)).
    { apply guidance_sections_In. exists i, i, line.
      repeat split; try assumption; lia. }
    rewrite E in H. destruct H.
  - intros HF. rewrite Forall_forall in HF.
    destruct (guidance_sections lines) as [|x rest] eqn:E; [reflexivity|].
    assert (H : In x (guidance_sections lines))
      by (rewrite E; left; reflexivity).
    apply guidance_sections_In in H.
    destruct H as (i & j & line & Hi & Hk & _).
    rewrite (HF line (nth_error_In _ _ Hi)) in Hk. discriminate.
Qed.

(** X20: when the transcript, lower-cased, contains none of the
    forward-guidance keywords, the guidance text is the first 3000
    characters of the transcript. *)
Theorem guidance_text_fallback (transcript : string) :
  has_forward_keyword transcript = false ->
  guidance_text transcript = substring 0 3000 transcript /\
  String.length (guidance_text transcript) <= 3000.
Proof.
  intros H.
  assert (E : guidance_text transcript = substring 0 3000 transcript).
  { unfold guidance_text.
    destruct (guidance_sections (split_on (ascii_of_nat 10) transcript))
      as [|x rest] eqn:Es; [reflexivity|].
    exfalso.
    assert (Hx : In x (guidance_sections
                         (split_on (ascii_of_nat 10) transcript)))
      by (rewrite Es; left; reflexivity).
    apply guidance_sections_In in Hx.
    destruct Hx as (i & j & line & Hi & Hk & _).
    apply nth_error_In in Hi.
    rewrite (has_forward_keyword_line transcript line Hi Hk) in H.
    discriminate. }
  split; [exact E|]. rewrite E. apply substring_length.
Qed.

Lemma guidance_text_fallback_witness :
  guidance_text "Revenue grew" = substring 0 3000 "Revenue grew" /\
  String.length (guidance_text "Revenue grew") <= 3000.
Proof.
  apply (guidance_text_fallback "Revenue grew"). reflexivity.
Defined.

(** X21: the limit of 3000 is a number of lines, not of characters: for a
    transcript without a line break that contains a forward-guidance
    keyword the guidance text is the whole transcript, whatever its
    length. *)
Theorem guidance_text_single_line (transcript : string) :
  contains newline transcript = false ->
  has_forward_keyword transcript = true ->
  guidance_text transcript = transcript.
Proof.
  intros Hnl Hk. unfold guidance_text.
  rewrite (split_on_single transcript Hnl).
  unfold guidance_sections, enumerate.
  cbn [enumerate_from fold_left]. rewrite Hk. reflexivity.
Qed.

Lemma guidance_text_single_line_witness :
  guidance_text "We expect growth" = "We expect growth".
Proof.
  apply (guidance_text_single_line "We expect growth"); reflexivity.
Defined.

(* ------------------------------------------------------------------ *)
(** ** [summarize_earnings_call], [save_summaries] and the processing
       loop *)
(* ------------------------------------------------------------------ *)

Section SummaryStoreFacts.

Variable vec : Type.

Lemma append_summaries_nil (d : Db vec) : append_summaries [] d = d.
Proof.
  destruct d. unfold append_summaries. simpl. rewrite app_nil_r.
  reflexivity.
Qed.

Lemma append_summaries_app (r1 r2 : list Summary) (d : Db vec) :
  append_summaries r2 (append_summaries r1 d) =
  append_summaries (r1 ++ r2) d.
Proof. unfold append_summaries. simpl. rewrite app_assoc. reflexivity. Qed.

Lemma saved_rows_own (id : Z) (items : list (string * string)) :
  Forall (fun r => sm_earnings_call_id r = id) (saved_rows id items).
Proof.
  unfold saved_rows. apply Forall_map, Forall_forall. intros; reflexivity.
Qed.

Lemma summaries_of_replaced (id : Z) (rows : list Summary) (d : Db vec) :
  Forall (fun r => sm_earnings_call_id r = id) rows ->
  summaries_of id (append_summaries rows (purge_summaries id d)) = rows.
Proof.
  intros H. unfold summaries_of, append_summaries, purge_summaries.
  cbn [summaries]. rewrite filter_app, filter_negb_filter. cbn [app].
  apply filter_keep_all. eapply Forall_impl; [|exact H].
  intros r Hr. cbn beta. rewrite Hr. apply Z.eqb_refl.
Qed.

Lemma summaries_of_other (id id' : Z) (rows : list Summary) (d : Db vec) :
  id' <> id ->
  Forall (fun r => sm_earnings_call_id r = id) rows ->
  summaries_of id' (append_summaries rows (purge_summaries id d)) =
  summaries_of id' d.
Proof.
  intros Hne H. unfold summaries_of, append_summaries, purge_summaries.
  cbn [summaries]. rewrite filter_app.
  rewrite (filter_drop_all _ rows).
  - rewrite app_nil_r. apply filter_filter_other.
    intros x Hx. apply Z.eqb_eq in Hx. apply negb_true_iff, Z.eqb_neq.
    lia.
  - eapply Forall_impl; [|exact H]. intros r Hr. cbn beta.
    rewrite Hr. apply Z.eqb_neq. lia.
Qed.

Lemma purge_summaries_append_own (id : Z) (rows : list Summary)
      (d : Db vec) :
  Forall (fun r => sm_earnings_call_id r = id) rows ->
  purge_summaries id (append_summaries rows (purge_summaries id d)) =
  purge_summaries id d.
Proof.
  intros H. unfold purge_summaries, append_summaries. cbn. f_equal.
  rewrite filter_app, filter_idem, (filter_drop_all _ rows).
  - apply app_nil_r.
  - eapply Forall_impl; [|exact H]. intros r Hr. cbn beta.
    rewrite Hr, Z.eqb_refl. reflexivity.
Qed.

Lemma purge_summaries_none (id : Z) (d : Db vec) :
  summaries_of id d = [] -> purge_summaries id d = d.
Proof.
  intros H. destruct d as [ec sm fn dc nc].
  unfold purge_summaries, summaries_of in *. cbn in *. f_equal.
  induction sm as [|x sm IH]; [reflexivity|]. cbn [filter] in *.
  destruct (sm_earnings_call_id x =? id)%Z; [discriminate|].
  cbn [negb]. rewrite (IH H). reflexivity.
Qed.

(** The loop of [save_summaries] adds the rows of the non-blank items. *)
Lemma save_loop_spec (id : Z) (items : list (string * string)) :
  forall s : Session vec,
    for_each items
      (fun _ item =>
         let '(summary_type, content) := item in
         if truthy content && truthy (strip content)
         then add_summary
                (mkSummary id (Some summary_type) (Some (strip content)))
         else ret tt)
      tt s =
    ({| committed := committed s;
        working := append_summaries (saved_rows id items) (working s) |},
     Ok tt).
Proof.
  induction items as [|[t c] items IH]; intros s.
  - cbn [for_each]. unfold ret, saved_rows. cbn [filter map].
    rewrite append_summaries_nil. destruct s; reflexivity.
  - cbn [for_each]. unfold bind at 1. unfold saved_rows.
    cbn [filter map fst snd].
    destruct (truthy c && truthy (strip c)).
    + unfold add_summary, update_working. rewrite IH.
      cbn [committed working map]. rewrite append_summaries_app.
      reflexivity.
    + unfold ret at 1. rewrite IH. reflexivity.
Qed.

(** [save_summaries] as one step on the store. *)
Lemma save_summaries_run (call : EarningsCall)
      (items : list (string * string)) (s : Session vec) :
  save_summaries call items s =
  ({| committed :=
        append_summaries (saved_rows (ec_id call) items)
                         (purge_summaries (ec_id call) (working s));
      working :=
        append_summaries (saved_rows (ec_id call) items)
                         (purge_summaries (ec_id call) (working s)) |},
   Ok tt).
Proof.
  unfold save_summaries, try_except, delete_summaries.
  unfold bind at 1. unfold update_working at 1.
  unfold bind at 1. rewrite save_loop_spec. reflexivity.
Qed.

End SummaryStoreFacts.

Lemma append_inj_l (a x y : string) :
  (a ++ x)%string = (a ++ y)%string -> x = y.
Proof.
  induction a as [|c a IH]; intros H; [exact H|].
  cbn [append] in H. injection H as H. apply IH, H.
Qed.

Lemma NoDup_map_fst_filter {A B} (p : A * B -> bool) (l : list (A * B)) :
  NoDup (map fst l) -> NoDup (map fst (filter p l)).
Proof.
  induction l as [|x l IH]; intros H; [constructor|].
  cbn [map] in H. inversion H as [|? ? Hx Hl]; subst.
  cbn [filter]. destruct (p x); [|apply IH, Hl].
  cbn [map]. constructor; [|apply IH, Hl].
  intros Hin. apply Hx. apply in_map_iff in Hin.
  destruct Hin as (y & Ey & Hy). apply filter_In in Hy.
  apply in_map_iff. exists y. split; [exact Ey|apply Hy].
Qed.

Lemma NoDup_map_injective {A B} (f : A -> B) (l : list A) :
  (forall x y, f x = f y -> x = y) -> NoDup l -> NoDup (map f l).
Proof.
  intros Hf. induction 1 as [|x l Hx _ IH]; cbn [map]; constructor.
  - intros Hin. apply in_map_iff in Hin. destruct Hin as (y & Ey & Hy).
    apply Hf in Ey. subst y. exact (Hx Hy).
  - exact IH.
Qed.

Lemma saved_rows_kinds (id : Z) (items : list (string * string)) :
  map summary_chunk_type (saved_rows id items) =
  map (fun t => ("summary_" ++ t)%string)
      (map fst
           (filter (fun item => truthy (snd item) && truthy (strip (snd item)))
                   items)).
Proof. unfold saved_rows. rewrite !map_map. reflexivity. Qed.

(** Every valid sentiment word is stored as it is. *)
Lemma valid_sentiments_saved :
  Forall (fun w => truthy w && truthy (strip w) = true /\ strip w = w)
         valid_sentiments.
Proof. repeat constructor. Qed.

(** The sentiment of a call with a transcript. *)
Lemma determine_outlook_sentiment_valid (generate : Generate)
      (companies : list Company) (call : EarningsCall) (t : string) :
  ec_raw_transcript call = Some t ->
  exists w, determine_outlook_sentiment generate companies call = Ok w /\
            In w valid_sentiments.
Proof.
  intros Ht. unfold determine_outlook_sentiment. rewrite Ht.
  match goal with
  | |- context [accepted_reply (strip ?r)] =>
      destruct (accepted_reply_total r) as (o & -> & Ho)
  end.
  destruct o as [w|].
  - exists w. split; [reflexivity|]. apply Ho. reflexivity.
  - eexists. split; [reflexivity|].
    destruct (keyword_fallback_range
                (keyword_count SENTIMENT_KEYWORDS_positive (lower t))
                (keyword_count SENTIMENT_KEYWORDS_negative (lower t))
                (keyword_count SENTIMENT_KEYWORDS_neutral (lower t)))
      as [<-|[<-|[<-|[]]]]; simpl; auto.
Qed.

(** The three items of a call with a transcript. *)
Lemma summarize_earnings_call_run (generate : Generate)
      (companies : list Company) (call : EarningsCall) :
  truthy_opt (ec_raw_transcript call) = true ->
  exists executive forward_guidance sentiment,
    generate_executive_summary generate companies call = Ok executive /\
    extract_forward_guidance generate companies call = Ok forward_guidance /\
    determine_outlook_sentiment generate companies call = Ok sentiment /\
    In sentiment valid_sentiments /\
    summarize_earnings_call generate companies call =
    Ok [("executive", executive); ("forward_guidance", forward_guidance);
        ("outlook_sentiment", sentiment)].
Proof.
  intros Ht. unfold summarize_earnings_call. rewrite Ht. cbn [negb].
  destruct (ec_raw_transcript call) as [t|] eqn:Et; [|discriminate].
  destruct (determine_outlook_sentiment_valid generate companies call t Et)
    as (w & Ew & Hw).
  rewrite Ew.
  unfold generate_executive_summary, extract_forward_guidance.
  rewrite Et. eexists _, _, w.
  repeat split; try reflexivity. exact Hw.
Qed.

(** X22: [save_summaries] replaces the summaries of the call by the items
    whose content is not blank, in the order of the dictionary, with the
    content stripped; it commits, raises nothing, changes no summary of
    another call and no other table, and saving the same items again
    changes nothing. *)
Theorem save_summaries_replaces
        (vec : Type) (call : EarningsCall) (items : list (string * string))
        (s : Session vec) :
  let s' := fst (save_summaries call items s) in
  snd (save_summaries call items s) = Ok tt /\
  settled s' /\
  summaries_of (ec_id call) (working s') = saved_rows (ec_id call) items /\
  Forall (fun row =>
            exists summary_type content,
              In (summary_type, content) items /\
              strip content <> EmptyString /\
              row = mkSummary (ec_id call) (Some summary_type)
                              (Some (strip content)))
         (summaries_of (ec_id call) (working s')) /\
  (forall id, id <> ec_id call ->
              summaries_of id (working s') = summaries_of id (working s)) /\
  earnings_calls (working s') = earnings_calls (working s) /\
  financial_news (working s') = financial_news (working s) /\
  document_chunks (working s') = document_chunks (working s) /\
  news_chunks (working s') = news_chunks (working s) /\
  save_summaries call items s' = (s', Ok tt).
Proof.
  intros s'. subst s'. rewrite !save_summaries_run. cbn [fst snd working].
  pose proof (saved_rows_own (ec_id call) items) as Hown.
  assert (E : summaries_of (ec_id call)
                (append_summaries (saved_rows (ec_id call) items)
                   (purge_summaries (ec_id call) (working s))) =
              saved_rows (ec_id call) items)
    by (apply summaries_of_replaced, Hown).
  split; [reflexivity|]. split; [reflexivity|]. split; [exact E|].
  split.
  { rewrite E. unfold saved_rows. apply Forall_map, Forall_forall.
    intros [t c] Hin. apply filter_In in Hin. destruct Hin as (Hin & Hc).
    cbn [fst snd] in *. apply andb_prop in Hc. destruct Hc as (_ & Hc).
    exists t, c. split; [exact Hin|]. split; [|reflexivity].
    intros E0. rewrite E0 in Hc. discriminate. }
  split.
  { intros id Hne. apply summaries_of_other; [exact Hne|exact Hown]. }
  repeat (split; [reflexivity|]).
  rewrite purge_summaries_append_own by exact Hown. reflexivity.
Qed.

(** X23: when the kinds of the saved items are pairwise distinct, as the
    keys of a dictionary are, the summaries stored for the call after
    [save_summaries] have pairwise distinct chunk types: at most one
    summary of each kind. *)
Theorem save_summaries_distinct_kinds
        (vec : Type) (call : EarningsCall) (items : list (string * string))
        (s : Session vec) :
  NoDup (map fst items) ->
  let db' := working (fst (save_summaries call items s)) in
  NoDup (map summary_chunk_type (summaries_of (ec_id call) db')) /\
  NoDup (map sm_summary_type (summaries_of (ec_id call) db')).
Proof.
  intros Hnd db'. subst db'. rewrite save_summaries_run. cbn [fst working].
  rewrite summaries_of_replaced by apply saved_rows_own.
  split.
  - rewrite saved_rows_kinds. apply NoDup_map_injective.
    + intros x y. apply append_inj_l.
    + apply NoDup_map_fst_filter, Hnd.
  - unfold saved_rows. rewrite map_map. cbn [sm_summary_type].
    rewrite <- (map_map fst Some). apply NoDup_map_injective.
    + intros x y E. injection E as E. exact E.
    + apply NoDup_map_fst_filter, Hnd.
Qed.

Lemma save_summaries_distinct_kinds_witness :
  let db' :=
    working
      (fst (save_summaries
              (mkEarningsCall 1 "ACME" "Q1" 2024 None (Some "Revenue grew"))
              [("executive", " Solid quarter "); ("forward_guidance", "  ");
               ("outlook_sentiment", "Positive")]
              {| committed := db_small; working := db_small |})) in
  NoDup (map summary_chunk_type (summaries_of 1 db')) /\
  NoDup (map sm_summary_type (summaries_of 1 db')).
Proof.
  apply (save_summaries_distinct_kinds Z
           (mkEarningsCall 1 "ACME" "Q1" 2024 None (Some "Revenue grew"))
           [("executive", " Solid quarter "); ("forward_guidance", "  ");
            ("outlook_sentiment", "Positive")]).
  repeat constructor; simpl; intuition discriminate.
Defined.

(** X24: [summarize_earnings_call] returns the empty dictionary for a call
    without transcript (null or empty) and calls no model; for a call with
    a transcript it returns exactly the entries executive,
    forward_guidance and outlook_sentiment, in this order, whatever the
    model replies, and the sentiment is one of the valid sentiment
    words. *)
Theorem summarize_earnings_call_items
        (generate : Generate) (companies : list Company)
        (call : EarningsCall) :
  (truthy_opt (ec_raw_transcript call) = false ->
   summarize_earnings_call generate companies call = Ok []) /\
  (truthy_opt (ec_raw_transcript call) = true ->
   exists items,
     summarize_earnings_call generate companies call = Ok items /\
     map fst items = ["executive"; "forward_guidance"; "outlook_sentiment"] /\
     NoDup (map fst items) /\
     exists sentiment,
       In ("outlook_sentiment", sentiment) items /\
       In sentiment valid_sentiments).
Proof.
  split.
  - intros H. unfold summarize_earnings_call. rewrite H. reflexivity.
  - intros H.
    destruct (summarize_earnings_call_run generate companies call H)
      as (ex & fg & w & _ & _ & _ & Hw & E).
    rewrite E. eexists. split; [reflexivity|].
    split; [reflexivity|]. split.
    + repeat constructor; simpl; intuition discriminate.
    + exists w. split; [simpl; auto|exact Hw].
Qed.

Section ProcessFacts.

Variable vec : Type.
Variable generate : Generate.
Variable companies : list Company.

Lemma len_pos_nonempty {A} (l : list A) :
  l <> [] -> (len l >? 0)%Z = true.
Proof.
  intros H. destruct l; [congruence|]. rewrite len_cons.
  apply Z.gtb_lt. unfold len. lia.
Qed.

(** A call that has summaries is skipped. *)
Lemma process_existing (call : EarningsCall) (s : Session vec) :
  summaries_of (ec_id call) (working s) <> [] ->
  process_earnings_call generate companies call s = (s, Ok tt).
Proof.
  intros H. unfold process_earnings_call, count_summaries.
  unfold bind at 1. rewrite (len_pos_nonempty _ H). reflexivity.
Qed.

(** A call without summaries and without transcript is left alone. *)
Lemma process_no_transcript (call : EarningsCall) (s : Session vec) :
  summaries_of (ec_id call) (working s) = [] ->
  truthy_opt (ec_raw_transcript call) = false ->
  process_earnings_call generate companies call s = (s, Ok tt).
Proof.
  intros H Ht. unfold process_earnings_call, count_summaries.
  unfold bind at 1. rewrite H. cbn [len length Z.of_nat Z.gtb Z.compare].
  unfold try_except, bind, lift, summarize_earnings_call.
  rewrite Ht. reflexivity.
Qed.

(** A call without summaries and with a transcript gets its items. *)
Lemma process_new (call : EarningsCall) (s : Session vec)
      (items : list (string * string)) :
  summaries_of (ec_id call) (working s) = [] ->
  summarize_earnings_call generate companies call = Ok items ->
  items <> [] ->
  process_earnings_call generate companies call s =
  ({| committed := append_summaries (saved_rows (ec_id call) items)
                                    (working s);
      working := append_summaries (saved_rows (ec_id call) items)
                                  (working s) |},
   Ok tt).
Proof.
  intros H E Hne. unfold process_earnings_call, count_summaries.
  unfold bind at 1. rewrite H. cbn [len length Z.of_nat Z.gtb Z.compare].
  unfold try_except, bind, lift. rewrite E.
  destruct items as [|item items]; [congruence|].
  rewrite save_summaries_run, (purge_summaries_none vec _ _ H).
  reflexivity.
Qed.

Lemma summaries_of_appended (id id' : Z) (rows : list Summary)
      (d : Db vec) :
  Forall (fun r => sm_earnings_call_id r = id) rows ->
  summaries_of id' (append_summaries rows d) =
  summaries_of id' d ++ (if (id =? id')%Z then rows else []).
Proof.
  intros H. unfold summaries_of, append_summaries. cbn [summaries].
  rewrite filter_app. f_equal.
  destruct (Z.eqb_spec id id') as [<-|Hne].
  - apply filter_keep_all. eapply Forall_impl; [|exact H].
    intros r Hr. cbn beta. rewrite Hr. apply Z.eqb_refl.
  - apply filter_drop_all. eapply Forall_impl; [|exact H].
    intros r Hr. cbn beta. rewrite Hr. apply Z.eqb_neq. exact Hne.
Qed.

(** The sentiment item is always stored. *)
Lemma saved_rows_sentiment (id : Z) (executive forward_guidance w : string) :
  In w valid_sentiments ->
  In (mkSummary id (Some "outlook_sentiment") (Some w))
     (saved_rows id [("executive", executive);
                     ("forward_guidance", forward_guidance);
                     ("outlook_sentiment", w)]).
Proof.
  intros Hw. pose proof valid_sentiments_saved as HF.
  rewrite Forall_forall in HF. destruct (HF w Hw) as (Hc & Hs).
  unfold saved_rows. apply in_map_iff.
  exists ("outlook_sentiment", w). cbn [fst snd]. rewrite Hs.
  split; [reflexivity|]. apply filter_In. cbn [snd].
  split; [simpl; auto|exact Hc].
Qed.

(** One round of the processing loop. *)
Lemma process_earnings_call_step (call : EarningsCall) (s : Session vec) :
  exists s',
    process_earnings_call generate companies call s = (s', Ok tt) /\
    (forall id, summaries_of id (working s) <> [] ->
                summaries_of id (working s') = summaries_of id (working s)) /\
    (forall id, id <> ec_id call ->
                summaries_of id (working s') = summaries_of id (working s)) /\
    (truthy_opt (ec_raw_transcript call) = true ->
     summaries_of (ec_id call) (working s') <> []) /\
    earnings_calls (working s') = earnings_calls (working s) /\
    financial_news (working s') = financial_news (working s) /\
    document_chunks (working s') = document_chunks (working s) /\
    news_chunks (working s') = news_chunks (working s).
Proof.
  destruct (summaries_of (ec_id call) (working s)) as [|x l] eqn:Hex.
  - destruct (truthy_opt (ec_raw_transcript call)) eqn:Ht.
    + destruct (summarize_earnings_call_run generate companies call Ht)
        as (ex & fg & w & _ & _ & _ & Hw & E).
      eexists. split.
      { apply (process_new call s _ Hex E). discriminate. }
      cbn [working].
      pose proof (saved_rows_own (ec_id call)
                    [("executive", ex); ("forward_guidance", fg);
                     ("outlook_sentiment", w)]) as Hown.
      split; [|split; [|split]].
      * intros id Hid.
        rewrite (summaries_of_appended _ id _ _ Hown).
        destruct (Z.eqb_spec (ec_id call) id) as [<-|_];
          [congruence|apply app_nil_r].
      * intros id Hid.
        rewrite (summaries_of_appended _ id _ _ Hown).
        destruct (Z.eqb_spec (ec_id call) id) as [<-|_];
          [congruence|apply app_nil_r].
      * intros _. rewrite (summaries_of_appended _ _ _ _ Hown).
        rewrite Z.eqb_refl, Hex. cbn [app]. intros E0.
        pose proof (saved_rows_sentiment (ec_id call) ex fg w Hw) as Hin.
        rewrite E0 in Hin. destruct Hin.
      * repeat split; reflexivity.
    + exists s. split; [apply process_no_transcript; assumption|].
      split; [reflexivity|]. split; [reflexivity|].
      split; [discriminate|]. repeat split; reflexivity.
  - exists s. split.
    + apply process_existing. rewrite Hex. discriminate.
    + split; [reflexivity|]. split; [reflexivity|].
      split; [intros _; rewrite Hex; discriminate|].
      repeat split; reflexivity.
Qed.

End ProcessFacts.

(** X25: when the model is unavailable (every reply is empty), processing
    a call that has a non-empty transcript and no summaries yet stores
    exactly one summary for it: the outlook sentiment computed from the
    keyword counts of the transcript. *)
Theorem process_earnings_call_model_down
        (vec : Type) (generate : Generate) (companies : list Company)
        (call : EarningsCall) (t : string) (s : Session vec) :
  (forall prompt max_tokens, generate prompt max_tokens = EmptyString) ->
  ec_raw_transcript call = Some t ->
  truthy t = true ->
  summaries_of (ec_id call) (working s) = [] ->
  let s' := fst (process_earnings_call generate companies call s) in
  settled s' /\
  summaries_of (ec_id call) (working s') =
  [mkSummary (ec_id call) (Some "outlook_sentiment")
     (Some (keyword_fallback
              (keyword_count SENTIMENT_KEYWORDS_positive (lower t))
              (keyword_count SENTIMENT_KEYWORDS_negative (lower t))
              (keyword_count SENTIMENT_KEYWORDS_neutral (lower t))))].
Proof.
  intros Hgen Ht Htr Hex s'. subst s'.
  set (w := keyword_fallback
              (keyword_count SENTIMENT_KEYWORDS_positive (lower t))
              (keyword_count SENTIMENT_KEYWORDS_negative (lower t))
              (keyword_count SENTIMENT_KEYWORDS_neutral (lower t))).
  assert (E : summarize_earnings_call generate companies call =
              Ok [("executive", EmptyString);
                  ("forward_guidance", EmptyString);
                  ("outlook_sentiment", w)]).
  { unfold summarize_earnings_call, generate_executive_summary,
      extract_forward_guidance, determine_outlook_sentiment.
    rewrite Ht. cbn [truthy_opt]. rewrite Htr. cbn [negb].
    rewrite !Hgen. reflexivity. }
  rewrite (process_new vec generate companies call s _ Hex E)
    by discriminate.
  cbn [fst working]. split; [reflexivity|].
  rewrite (summaries_of_appended vec (ec_id call) (ec_id call))
    by apply saved_rows_own.
  rewrite Hex, Z.eqb_refl. cbn [app].
  assert (Hw : In w valid_sentiments).
  { subst w.
    destruct (keyword_fallback_range
                (keyword_count SENTIMENT_KEYWORDS_positive (lower t))
                (keyword_count SENTIMENT_KEYWORDS_negative (lower t))
                (keyword_count SENTIMENT_KEYWORDS_neutral (lower t)))
      as [<-|[<-|[<-|[]]]]; simpl; auto. }
  pose proof valid_sentiments_saved as HF. rewrite Forall_forall in HF.
  destruct (HF w Hw) as (Hc & Hs).
  unfold saved_rows. cbn [filter snd fst truthy andb].
  rewrite Hc. cbn [map fst snd]. rewrite Hs. reflexivity.
Qed.

Lemma process_earnings_call_model_down_witness :
  let call :=
    mkEarningsCall 2 "ACME" "Q2" 2024 None
      (Some "We are confident: strong growth and momentum") in
  let s' :=
    fst (process_earnings_call (fun _ _ => EmptyString) [] call
           {| committed := db_small; working := db_small |}) in
  settled s' /\
  summaries_of 2 (working s') =
  [mkSummary 2 (Some "outlook_sentiment")
     (Some (keyword_fallback
              (keyword_count SENTIMENT_KEYWORDS_positive
                 (lower "We are confident: strong growth and momentum"))
              (keyword_count SENTIMENT_KEYWORDS_negative
                 (lower "We are confident: strong growth and momentum"))
              (keyword_count SENTIMENT_KEYWORDS_neutral
                 (lower "We are confident: strong growth and momentum"))))].
Proof.
  apply (process_earnings_call_model_down Z (fun _ _ => EmptyString) []
           (mkEarningsCall 2 "ACME" "Q2" 2024 None
              (Some "We are confident: strong growth and momentum"))
           "We are confident: strong growth and momentum"
           {| committed := db_small; working := db_small |});
    reflexivity.
Defined.

(** X26: the processing loop raises nothing and only adds summaries: a
    call that already has summaries keeps them as they are, calls that
    are not in the list are not touched, every listed call with a
    non-empty transcript has at least one summary afterwards, whatever
    the model replies, and no other table changes. *)
Theorem process_calls_progress
        (vec : Type) (generate : Generate) (companies : list Company)
        (earnings_calls_found : list EarningsCall) (s : Session vec) :
  let s' := fst (process_calls generate companies earnings_calls_found s) in
  snd (process_calls generate companies earnings_calls_found s) = Ok tt /\
  (forall id, summaries_of id (working s) <> [] ->
              summaries_of id (working s') = summaries_of id (working s)) /\
  (forall id, (forall call, In call earnings_calls_found ->
                            ec_id call <> id) ->
              summaries_of id (working s') = summaries_of id (working s)) /\
  Forall (fun call =>
            truthy_opt (ec_raw_transcript call) = true ->
            summaries_of (ec_id call) (working s') <> [])
         earnings_calls_found /\
  earnings_calls (working s') = earnings_calls (working s) /\
  financial_news (working s') = financial_news (working s) /\
  document_chunks (working s') = document_chunks (working s) /\
  news_chunks (working s') = news_chunks (working s).
Proof.
  intros s'. subst s'. revert s.
  induction earnings_calls_found as [|call calls IH]; intros s.
  - unfold process_calls. cbn [for_each]. unfold ret. cbn [fst snd].
    split; [reflexivity|]. split; [reflexivity|]. split; [reflexivity|].
    split; [constructor|]. repeat split; reflexivity.
  - destruct (process_earnings_call_step vec generate companies call s)
      as (s1 & E & Hkeep & Hother & Hnew & T1 & T2 & T3 & T4).
    assert (Ecall : process_calls generate companies (call :: calls) s =
                    process_calls generate companies calls s1).
    { unfold process_calls. cbn [for_each]. unfold bind at 1.
      rewrite E. reflexivity. }
    rewrite Ecall.
    destruct (IH s1) as (R & Hkeep' & Hother' & Hall & U1 & U2 & U3 & U4).
    split; [exact R|]. split; [|split; [|split]].
    + intros id Hid. rewrite Hkeep'; [apply Hkeep, Hid|].
      rewrite (Hkeep id Hid). exact Hid.
    + intros id Hid. rewrite Hother'.
      * apply Hother. intros E0. apply (Hid call); [left; reflexivity|].
        symmetry. exact E0.
      * intros c Hc. apply Hid. right. exact Hc.
    + constructor; [|exact Hall].
      intros Ht. specialize (Hnew Ht). rewrite (Hkeep' _ Hnew). exact Hnew.
    + rewrite U1, U2, U3, U4. repeat split; assumption.
Qed.

(* ------------------------------------------------------------------ *)
(** ** What a run stores does not depend on the chunks already there *)
(* ------------------------------------------------------------------ *)

Section IgnoresChunks.

Variable vec : Type.

Lemma ignores_ret {A} (a : A) :
  ignores_stored_chunks (ret a : M vec A).
Proof. intros rows s. reflexivity. Qed.

Lemma ignores_lift {A} (r : result A) :
  ignores_stored_chunks (lift r : M vec A).
Proof. intros rows s. reflexivity. Qed.

Lemma ignores_bind {A B} (m : M vec A) (f : A -> M vec B) :
  ignores_stored_chunks m ->
  (forall a, ignores_stored_chunks (f a)) ->
  ignores_stored_chunks (bind m f).
Proof.
  intros Hm Hf rows s. unfold bind. rewrite Hm.
  destruct (m s) as [s' [a|e]]; cbn [fst snd]; [apply Hf|reflexivity].
Qed.

Lemma ignores_try_except {A} (m : M vec A) (h : exn -> M vec A) :
  ignores_stored_chunks m ->
  (forall e, ignores_stored_chunks (h e)) ->
  ignores_stored_chunks (try_except m h).
Proof.
  intros Hm Hh rows s. unfold try_except. rewrite Hm.
  destruct (m s) as [s' [a|e]]; cbn [fst snd]; [reflexivity|apply Hh].
Qed.

Lemma ignores_for_each {A B} (l : list A) (body : B -> A -> M vec B) :
  (forall acc x, ignores_stored_chunks (body acc x)) ->
  forall acc, ignores_stored_chunks (for_each l body acc).
Proof.
  intros Hb. induction l as [|x l IH]; intros acc; cbn [for_each].
  - apply ignores_ret.
  - apply ignores_bind; [apply Hb|exact IH].
Qed.

Lemma ignores_db_commit : ignores_stored_chunks (db_commit : M vec unit).
Proof. intros rows s. reflexivity. Qed.

Lemma ignores_db_rollback : ignores_stored_chunks (db_rollback : M vec unit).
Proof. intros rows s. reflexivity. Qed.

Lemma ignores_query_summaries (id : Z) :
  ignores_stored_chunks (query_summaries id : M vec (list Summary)).
Proof. intros rows s. reflexivity. Qed.

Lemma ignores_add_document_chunk (c : DocumentChunk vec) :
  ignores_stored_chunks (add_document_chunk c).
Proof.
  intros rows s.
  unfold add_document_chunk, update_working, session_with_chunks_before,
    with_chunks_before, append_document_chunks.
  cbn. rewrite app_assoc. reflexivity.
Qed.

Lemma ignores_store_document_chunks (id base : Z) (ty : string)
      (pairs : list (string * vec)) (n : Z) :
  ignores_stored_chunks (store_document_chunks id base ty pairs n).
Proof.
  unfold store_document_chunks. apply ignores_for_each.
  intros acc [j [t e]]. apply ignores_bind.
  - apply ignores_add_document_chunk.
  - intros _. apply ignores_ret.
Qed.

Lemma ignores_embed_batch (encode : Embedder vec) (id size : Z)
      (chunks : list string) (n i : Z) :
  ignores_stored_chunks (embed_batch encode id size chunks n i).
Proof.
  unfold embed_batch. apply ignores_bind; [apply ignores_lift|].
  intros embs. apply ignores_bind; [apply ignores_store_document_chunks|].
  intros added. apply ignores_bind; [apply ignores_db_commit|].
  intros _. apply ignores_ret.
Qed.

Lemma ignores_embed_transcript (encode : Embedder vec) (id : Z)
      (t : string) (n : Z) :
  ignores_stored_chunks (embed_transcript encode id t n).
Proof.
  unfold embed_transcript. apply ignores_bind; [apply ignores_lift|].
  intros chunks. apply ignores_bind; [apply ignores_lift|].
  intros indices. apply ignores_for_each.
  intros acc i. apply ignores_embed_batch.
Qed.

Lemma ignores_embed_summary (encode : Embedder vec) (id n : Z)
      (sm : Summary) :
  ignores_stored_chunks (embed_summary encode id n sm).
Proof.
  unfold embed_summary.
  destruct (sm_content sm) as [content|]; [|apply ignores_ret].
  destruct (truthy content); [|apply ignores_ret].
  apply ignores_bind; [apply ignores_lift|].
  intros chunks. apply ignores_bind; [apply ignores_lift|].
  intros embs. apply ignores_bind; [apply ignores_store_document_chunks|].
  intros added. apply ignores_bind; [apply ignores_db_commit|].
  intros _. apply ignores_ret.
Qed.

Lemma ignores_embed_earnings_call (encode : Embedder vec) (id : Z)
      (ct cs : bool) (call : EarningsCall) :
  ignores_stored_chunks
    (try_except (embed_earnings_call encode id ct cs call)
                (fun _ => db_rollback ;;; ret 0%Z)%session).
Proof.
  apply ignores_try_except.
  - unfold embed_earnings_call. apply ignores_bind.
    + destruct (ct && truthy_opt (ec_raw_transcript call));
        [apply ignores_embed_transcript|apply ignores_ret].
    + intros added. destruct cs; [|apply ignores_ret].
      apply ignores_bind; [apply ignores_query_summaries|].
      intros sms. apply ignores_for_each.
      intros acc sm. apply ignores_embed_summary.
  - intros _. apply ignores_bind; [apply ignores_db_rollback|].
    intros _. apply ignores_ret.
Qed.

(** A run on any store, from the run on the store without chunks. *)
Lemma add_earnings_embeddings_chunkless (encode : Embedder vec) (id : Z)
      (ct cs : bool) (db : Db vec) (call : EarningsCall) :
  find (fun c => (ec_id c =? id)%Z) (earnings_calls db) = Some call ->
  exists rows n,
    add_earnings_embeddings (Some encode) id ct cs (chunkless db) =
    (append_document_chunks rows (chunkless db), Ok n) /\
    add_earnings_embeddings (Some encode) id ct cs db =
    (append_document_chunks rows (purge_document_chunks id db), Ok n) /\
    Forall (fun r => dc_earnings_call_id r = id) rows /\
    (n = len rows \/ n = 0%Z).
Proof.
  intros Hfind.
  assert (Hfind' : find (fun c => (ec_id c =? id)%Z)
                        (earnings_calls (chunkless db)) = Some call)
    by exact Hfind.
  destruct (add_earnings_embeddings_rows encode id ct cs (chunkless db)
              call Hfind')
    as (T & done & rest & groups & n & E & _ & FT & _ & FG & Hn).
  assert (Hp : purge_document_chunks id (chunkless db) = chunkless db)
    by reflexivity.
  rewrite Hp in E.
  exists (T ++ concat groups), n. split; [exact E|].
  split; [|split; [eapply replaced_rows_own_call; eassumption|exact Hn]].
  rewrite (add_earnings_embeddings_found encode id ct cs _ call Hfind') in E.
  rewrite (add_earnings_embeddings_found encode id ct cs db call Hfind).
  rewrite Hp in E.
  assert (Es : {| committed := purge_document_chunks id db;
                  working := purge_document_chunks id db |} =
               session_with_chunks_before
                 (document_chunks (purge_document_chunks id db))
                 {| committed := chunkless db; working := chunkless db |}).
  { unfold session_with_chunks_before, with_chunks_before, chunkless,
      purge_document_chunks. cbn. rewrite app_nil_r. reflexivity. }
  rewrite Es, ignores_embed_earnings_call.
  destruct (try_except _ _ {| committed := chunkless db;
                              working := chunkless db |}) as [s' r].
  cbn [fst snd] in *. injection E as Ec Er. subst r.
  cbn [committed session_with_chunks_before]. rewrite Ec.
  reflexivity.
Qed.

End IgnoresChunks.

(** X27: what a run of [add_earnings_embeddings] stores and returns for a
    call does not depend on the chunks already stored, for this call or
    any other: on two stores with the same earnings calls, summaries and
    news it returns the same count and leaves the same chunks for the
    call. *)
Theorem add_earnings_embeddings_ignores_stored_chunks
        (vec : Type) (encode : Embedder vec) (id : Z) (ct cs : bool)
        (db1 db2 : Db vec) (call : EarningsCall) :
  find (fun c => (ec_id c =? id)%Z) (earnings_calls db1) = Some call ->
  chunkless db1 = chunkless db2 ->
  snd (add_earnings_embeddings (Some encode) id ct cs db1) =
  snd (add_earnings_embeddings (Some encode) id ct cs db2) /\
  chunks_of id (fst (add_earnings_embeddings (Some encode) id ct cs db1)) =
  chunks_of id (fst (add_earnings_embeddings (Some encode) id ct cs db2)).
Proof.
  intros Hfind Heq.
  assert (Hfind2 : find (fun c => (ec_id c =? id)%Z) (earnings_calls db2) =
                   Some call).
  { apply (f_equal (@earnings_calls vec)) in Heq. cbn in Heq.
    rewrite <- Heq. exact Hfind. }
  destruct (add_earnings_embeddings_chunkless vec encode id ct cs db1 call
              Hfind) as (rows1 & n1 & E0 & E1 & Hown1 & _).
  destruct (add_earnings_embeddings_chunkless vec encode id ct cs db2 call
              Hfind2) as (rows2 & n2 & E0' & E2 & Hown2 & _).
  rewrite Heq, E0' in E0. injection E0 as Er En.
  subst rows2 n2. rewrite E1, E2. cbn [fst snd].
  split; [reflexivity|].
  rewrite !chunks_of_replaced by assumption. reflexivity.
Qed.

Lemma add_earnings_embeddings_ignores_stored_chunks_witness :
  snd (add_earnings_embeddings (Some sample_encode) 1 true true db_small) =
  snd (add_earnings_embeddings (Some sample_encode) 1 true true
         (chunkless db_small)) /\
  chunks_of 1
    (fst (add_earnings_embeddings (Some sample_encode) 1 true true
            db_small)) =
  chunks_of 1
    (fst (add_earnings_embeddings (Some sample_encode) 1 true true
            (chunkless db_small))).
Proof.
  apply (add_earnings_embeddings_ignores_stored_chunks Z sample_encode 1
           true true db_small (chunkless db_small)
           (mkEarningsCall 1 "ACME" "Q1" 2024 None
              (Some "Revenue grew and margins improved")));
    reflexivity.
Defined.

(* ------------------------------------------------------------------ *)
(** ** The backfill loops *)
(* ------------------------------------------------------------------ *)

(** A loop whose rounds settle their item, keep settled items settled and
    do nothing on a settled item does nothing when it is run again. *)
Section RerunLoop.

Variables State Item : Type.
Variable step : State * Z -> Item -> State * Z.
Variable ok : State -> Prop.
Variable good : Item -> Prop.
Variable settled : State -> Item -> Prop.

Hypothesis step_ok :
  forall s p x, ok s -> good x -> ok (fst (step (s, p) x)).
Hypothesis step_settles :
  forall s p x, ok s -> good x -> settled (fst (step (s, p) x)) x.
Hypothesis step_keeps :
  forall s p x y,
    ok s -> good x -> good y -> settled s y ->
    settled (fst (step (s, p) x)) y.
Hypothesis step_idle :
  forall s p x, ok s -> good x -> settled s x -> step (s, p) x = (s, p).

Lemma loop_settles (l : list Item) :
  forall s p,
    ok s -> Forall good l ->
    ok (fst (fold_left step l (s, p))) /\
    Forall (settled (fst (fold_left step l (s, p)))) l /\
    (forall y, good y -> settled s y ->
               settled (fst (fold_left step l (s, p))) y).
Proof.
  induction l as [|x l IH]; intros s p Hs Hl.
  - cbn [fold_left fst]. split; [exact Hs|]. split; [constructor|auto].
  - inversion Hl as [|? ? Hx Hl']; subst. cbn [fold_left].
    destruct (step (s, p) x) as [s1 p1] eqn:E.
    assert (Hs1 : ok s1)
      by (pose proof (step_ok s p x Hs Hx) as H; rewrite E in H; exact H).
    assert (Hx1 : settled s1 x)
      by (pose proof (step_settles s p x Hs Hx) as H; rewrite E in H;
          exact H).
    destruct (IH s1 p1 Hs1 Hl') as (Hok & Hall & Hkeep).
    split; [exact Hok|]. split.
    + constructor; [apply Hkeep; assumption|exact Hall].
    + intros y Hy Hsy. apply Hkeep; [exact Hy|].
      pose proof (step_keeps s p x y Hs Hx Hy Hsy) as H.
      rewrite E in H. exact H.
Qed.

Lemma loop_idle (l : list Item) :
  forall s p,
    ok s -> Forall good l -> Forall (settled s) l ->
    fold_left step l (s, p) = (s, p).
Proof.
  induction l as [|x l IH]; intros s p Hs Hl Hall; [reflexivity|].
  inversion Hl as [|? ? Hx Hl']; subst.
  inversion Hall as [|? ? Hsx Hall']; subst.
  cbn [fold_left]. rewrite (step_idle s p x Hs Hx Hsx).
  apply IH; assumption.
Qed.

Lemma loop_rerun (l : list Item) (s : State) (p q : Z) :
  ok s -> Forall good l ->
  fold_left step l (fst (fold_left step l (s, p)), q) =
  (fst (fold_left step l (s, p)), q).
Proof.
  intros Hs Hl. destruct (loop_settles l s p Hs Hl) as (Hok & Hall & _).
  apply loop_idle; assumption.
Qed.

End RerunLoop.

Lemma len_zero_nil {A} (l : list A) : (len l >? 0)%Z = false -> l = [].
Proof.
  destruct l as [|x l]; [reflexivity|]. rewrite len_cons. intros H.
  exfalso. destruct (Z.gtb_spec (len l + 1) 0) as [_|Hle]; [discriminate|].
  unfold len in Hle. lia.
Qed.

Section EarningsBackfill.

Variable vec : Type.

Lemma purge_document_chunks_none (id : Z) (d : Db vec) :
  chunks_of id d = [] -> purge_document_chunks id d = d.
Proof.
  intros H. destruct d as [ec sm fn dc nc].
  unfold purge_document_chunks, chunks_of in *. cbn in *. f_equal.
  induction dc as [|x dc IH]; [reflexivity|]. cbn [filter] in *.
  destruct (dc_earnings_call_id x =? id)%Z; [discriminate|].
  cbn [negb]. rewrite (IH H). reflexivity.
Qed.

(** What a run can do to the store. *)
Lemma add_earnings_embeddings_effect (embedder : option (Embedder vec))
      (id : Z) (ct cs : bool) (db : Db vec) :
  add_earnings_embeddings embedder id ct cs db = (db, Ok 0%Z) \/
  exists rows n,
    add_earnings_embeddings embedder id ct cs db =
    (append_document_chunks rows (purge_document_chunks id db), Ok n) /\
    Forall (fun r => dc_earnings_call_id r = id) rows /\
    (n = len rows \/ n = 0%Z).
Proof.
  destruct embedder as [encode|]; [|left; reflexivity].
  destruct (find (fun c => (ec_id c =? id)%Z) (earnings_calls db))
    as [call|] eqn:Hfind.
  - right.
    destruct (add_earnings_embeddings_rows encode id ct cs db call Hfind)
      as (T & done & rest & groups & n & E & _ & FT & _ & FG & Hn).
    exists (T ++ concat groups), n. split; [exact E|].
    split; [eapply replaced_rows_own_call; eassumption|exact Hn].
  - left. apply add_earnings_embeddings_not_found, Hfind.
Qed.

(** One round of the earnings backfill. *)
Lemma backfill_earnings_call_frame (embedder : option (Embedder vec))
      (skip : bool) (db : Db vec) (p : Z) (call : EarningsCall) :
  chunkless (fst (backfill_earnings_call embedder skip (db, p) call)) =
  chunkless db /\
  (p <= snd (backfill_earnings_call embedder skip (db, p) call) <= p + 1)%Z /\
  (forall id, id <> ec_id call ->
              chunks_of id
                (fst (backfill_earnings_call embedder skip (db, p) call)) =
              chunks_of id db) /\
  (skip = true -> chunks_of (ec_id call) db <> [] ->
   backfill_earnings_call embedder skip (db, p) call = (db, p)).
Proof.
  unfold backfill_earnings_call.
  destruct (skip && (len (chunks_of (ec_id call) db) >? 0)%Z) eqn:Hc.
  - cbn [fst snd]. split; [reflexivity|]. split; [lia|].
    split; [reflexivity|]. reflexivity.
  - assert (Hskip : skip = true -> chunks_of (ec_id call) db <> [] ->
                    False).
    { intros -> Hne. cbn [andb] in Hc.
      rewrite (len_pos_nonempty _ Hne) in Hc. discriminate. }
    destruct (add_earnings_embeddings_effect embedder (ec_id call) true true
                db) as [E|(rows & n & E & Hown & _)]; rewrite E.
    + cbn [Z.gtb Z.compare fst snd]. split; [reflexivity|].
      split; [lia|]. split; [reflexivity|].
      intros H1 H2. destruct (Hskip H1 H2).
    + destruct (n >? 0)%Z; cbn [fst snd].
      * split; [reflexivity|]. split; [lia|]. split.
        -- intros id Hid. apply chunks_of_other_call; assumption.
        -- intros H1 H2. destruct (Hskip H1 H2).
      * split; [reflexivity|]. split; [lia|]. split.
        -- intros id Hid. apply chunks_of_other_call; assumption.
        -- intros H1 H2. destruct (Hskip H1 H2).
Qed.

Lemma backfill_earnings_loop_frame (embedder : option (Embedder vec))
      (skip : bool) (calls : list EarningsCall) :
  forall db p,
    let st' :=
      fold_left (backfill_earnings_call embedder skip) calls (db, p) in
    chunkless (fst st') = chunkless db /\
    (p <= snd st' <= p + len calls)%Z /\
    (forall id, (forall call, In call calls -> ec_id call <> id) ->
                chunks_of id (fst st') = chunks_of id db) /\
    (skip = true ->
     forall id, chunks_of id db <> [] ->
                chunks_of id (fst st') = chunks_of id db).
Proof.
  induction calls as [|call calls IH]; intros db p st'; subst st'.
  - cbn [fold_left fst snd]. split; [reflexivity|].
    split; [unfold len; simpl; lia|]. split; reflexivity.
  - cbn [fold_left].
    destruct (backfill_earnings_call_frame embedder skip db p call)
      as (F1 & F2 & F3 & F4).
    destruct (backfill_earnings_call embedder skip (db, p) call)
      as [db1 p1] eqn:E.
    cbn [fst snd] in *.
    destruct (IH db1 p1) as (G1 & G2 & G3 & G4).
    split; [rewrite G1; exact F1|]. split; [rewrite len_cons; lia|].
    split.
    + intros id Hid. rewrite G3.
      * apply F3. intros E0. apply (Hid call); [left; reflexivity|].
        symmetry. exact E0.
      * intros c Hc. apply Hid. right. exact Hc.
    + intros Hs id Hne.
      assert (E1 : chunks_of id db1 = chunks_of id db).
      { destruct (Z.eq_dec id (ec_id call)) as [->|Hd].
        - specialize (F4 Hs Hne). injection F4 as -> _. reflexivity.
        - apply F3, Hd. }
      rewrite (G4 Hs id); [exact E1|]. rewrite E1. exact Hne.
Qed.

Variable encode : Embedder vec.
Variable db0 : Db vec.

Lemma same_tables_find (db : Db vec) (call : EarningsCall) :
  same_tables db0 db -> call_of_store db0 call ->
  find (fun c => (ec_id c =? ec_id call)%Z) (earnings_calls db) = Some call.
Proof.
  intros Hs Hf. apply (f_equal (@earnings_calls vec)) in Hs. cbn in Hs.
  rewrite Hs. exact Hf.
Qed.

Lemma backfill_earnings_call_settles (db : Db vec) (p : Z)
      (call : EarningsCall) :
  same_tables db0 db -> call_of_store db0 call ->
  earnings_call_settled encode db0
    (fst (backfill_earnings_call (Some encode) true (db, p) call)) call.
Proof.
  intros Hs Hf. unfold earnings_call_settled, backfill_earnings_call.
  cbn [andb].
  destruct (len (chunks_of (ec_id call) db) >? 0)%Z eqn:Hc.
  - left. cbn [fst]. intros E. rewrite E in Hc. discriminate.
  - destruct (add_earnings_embeddings_chunkless vec encode (ec_id call)
                true true db call (same_tables_find db call Hs Hf))
      as (rows & n & E0 & E1 & Hown & _).
    rewrite E1.
    assert (Efst : fst (if (n >? 0)%Z
                        then (append_document_chunks rows
                                (purge_document_chunks (ec_id call) db),
                              (p + 1)%Z)
                        else (append_document_chunks rows
                                (purge_document_chunks (ec_id call) db),
                              p)) =
                   append_document_chunks rows
                     (purge_document_chunks (ec_id call) db))
      by (destruct (n >? 0)%Z; reflexivity).
    rewrite Efst, chunks_of_replaced by exact Hown.
    destruct rows as [|r rows]; [right|left; discriminate].
    unfold same_tables in Hs. rewrite <- Hs, E0. reflexivity.
Qed.

Lemma backfill_earnings_call_idle (db : Db vec) (p : Z)
      (call : EarningsCall) :
  same_tables db0 db -> call_of_store db0 call ->
  earnings_call_settled encode db0 db call ->
  backfill_earnings_call (Some encode) true (db, p) call = (db, p).
Proof.
  intros Hs Hf Hset. unfold backfill_earnings_call. cbn [andb].
  destruct (len (chunks_of (ec_id call) db) >? 0)%Z eqn:Hc; [reflexivity|].
  apply len_zero_nil in Hc.
  destruct Hset as [Hne|Hnone]; [congruence|].
  destruct (add_earnings_embeddings_chunkless vec encode (ec_id call)
              true true db call (same_tables_find db call Hs Hf))
    as (rows & n & E0 & E1 & _ & Hn).
  unfold same_tables in Hs. rewrite Hs in E0. rewrite E0 in Hnone.
  cbn in Hnone. subst rows.
  assert (n = 0%Z) by (destruct Hn as [->| ->]; reflexivity). subst n.
  rewrite E1, append_document_chunks_nil,
    (purge_document_chunks_none _ _ Hc).
  reflexivity.
Qed.

Lemma backfill_earnings_call_keeps (db : Db vec) (p : Z)
      (call other : EarningsCall) :
  same_tables db0 db -> call_of_store db0 call -> call_of_store db0 other ->
  earnings_call_settled encode db0 db other ->
  earnings_call_settled encode db0
    (fst (backfill_earnings_call (Some encode) true (db, p) call)) other.
Proof.
  intros Hs Hf Ho Hset.
  destruct (Z.eq_dec (ec_id other) (ec_id call)) as [Heq|Hne].
  - assert (other = call).
    { unfold call_of_store in *. rewrite Heq in Ho. rewrite Hf in Ho.
      injection Ho as <-. reflexivity. }
    subst other. apply backfill_earnings_call_settles; assumption.
  - destruct (backfill_earnings_call_frame (Some encode) true db p call)
      as (_ & _ & F3 & _).
    unfold earnings_call_settled in *. rewrite (F3 _ Hne). exact Hset.
Qed.

Lemma backfill_earnings_call_same_tables (db : Db vec) (p : Z)
      (call : EarningsCall) :
  same_tables db0 db -> call_of_store db0 call ->
  same_tables db0
    (fst (backfill_earnings_call (Some encode) true (db, p) call)).
Proof.
  intros Hs _. unfold same_tables in *.
  destruct (backfill_earnings_call_frame (Some encode) true db p call)
    as (F1 & _). rewrite F1. exact Hs.
Qed.

Lemma backfill_earnings_rerun (calls : list EarningsCall) (p q : Z) :
  Forall (call_of_store db0) calls ->
  fold_left (backfill_earnings_call (Some encode) true) calls
    (fst (fold_left (backfill_earnings_call (Some encode) true) calls
            (db0, p)), q) =
  (fst (fold_left (backfill_earnings_call (Some encode) true) calls
          (db0, p)), q).
Proof.
  intros Hl.
  apply (loop_rerun _ _ (backfill_earnings_call (Some encode) true)
           (same_tables db0) (call_of_store db0)
           (earnings_call_settled encode db0)).
  - apply backfill_earnings_call_same_tables.
  - apply backfill_earnings_call_settles.
  - apply backfill_earnings_call_keeps.
  - apply backfill_earnings_call_idle.
  - reflexivity.
  - exact Hl.
Qed.

End EarningsBackfill.

(** X28: [backfill_earnings_embeddings] counts at most one per call it is
    given, changes no table but the document chunks, leaves the chunks of
    every call it is not given as they are and, with [skip_existing],
    also the chunks of every call that had chunks before. *)
Theorem backfill_earnings_embeddings_frame
        (vec : Type) (embedder : option (Embedder vec))
        (earnings_calls_found : list EarningsCall) (skip_existing : bool)
        (db : Db vec) :
  let result :=
    backfill_earnings_embeddings embedder earnings_calls_found
      skip_existing db in
  (0 <= snd result <= len earnings_calls_found)%Z /\
  chunkless (fst result) = chunkless db /\
  (forall id, (forall call, In call earnings_calls_found ->
                            ec_id call <> id) ->
              chunks_of id (fst result) = chunks_of id db) /\
  (skip_existing = true ->
   forall id, chunks_of id db <> [] ->
              chunks_of id (fst result) = chunks_of id db).
Proof.
  intros result. subst result. unfold backfill_earnings_embeddings.
  destruct embedder as [encode|].
  - destruct (backfill_earnings_loop_frame vec (Some encode) skip_existing
                earnings_calls_found db 0) as (F1 & F2 & F3 & F4).
    split; [lia|]. split; [exact F1|]. split; assumption.
  - cbn [fst snd]. split; [unfold len; lia|].
    split; [reflexivity|]. split; reflexivity.
Qed.

(** X29: with a model that is a function of its input texts, so that it
    returns or raises in the second run what it returned or raised for the
    same texts in the first, running [backfill_earnings_embeddings] with
    [skip_existing] a second time, on the store the first run left and for
    the same calls, processes nothing and changes nothing. *)
Theorem backfill_earnings_embeddings_rerun
        (vec : Type) (encode : Embedder vec)
        (earnings_calls_found : list EarningsCall) (db : Db vec) :
  calls_of_store earnings_calls_found db ->
  let db' :=
    fst (backfill_earnings_embeddings (Some encode) earnings_calls_found
           true db) in
  backfill_earnings_embeddings (Some encode) earnings_calls_found true db' =
  (db', 0%Z).
Proof.
  intros Hl db'. subst db'. unfold backfill_earnings_embeddings.
  apply backfill_earnings_rerun. exact Hl.
Qed.

Lemma backfill_earnings_embeddings_rerun_witness :
  let calls :=
    [mkEarningsCall 1 "ACME" "Q1" 2024 None
       (Some "Revenue grew and margins improved")] in
  let db' :=
    fst (backfill_earnings_embeddings (Some sample_encode) calls true
           (chunkless db_small)) in
  backfill_earnings_embeddings (Some sample_encode) calls true db' =
  (db', 0%Z).
Proof.
  apply (backfill_earnings_embeddings_rerun Z sample_encode
           [mkEarningsCall 1 "ACME" "Q1" 2024 None
              (Some "Revenue grew and margins improved")]
           (chunkless db_small)).
  repeat constructor.
Defined.

Section NewsBackfill.

Variable vec : Type.
Variable encode : Embedder vec.
Variable db0 : Db vec.

Lemma purge_news_chunks_none (id : Z) (d : Db vec) :
  news_chunks_of id d = [] -> purge_news_chunks id d = d.
Proof.
  intros H. destruct d as [ec sm fn dc nc].
  unfold purge_news_chunks, news_chunks_of in *. cbn in *. f_equal.
  induction nc as [|x nc IH]; [reflexivity|]. cbn [filter] in *.
  destruct (nc_news_id x =? id)%Z; [discriminate|].
  cbn [negb]. rewrite (IH H). reflexivity.
Qed.

(** What a run does for an article, on every store with the same
    articles. *)
Lemma add_news_embeddings_outcome (article : FinancialNews) :
  article_of_store db0 article ->
  (forall d, financial_news d = financial_news db0 ->
             add_news_embeddings (Some encode) (fn_id article) d =
             (d, Ok 0%Z)) \/
  (exists rows,
      Forall (fun r => nc_news_id r = fn_id article) rows /\
      forall d, financial_news d = financial_news db0 ->
                add_news_embeddings (Some encode) (fn_id article) d =
                (append_news_chunks rows
                   (purge_news_chunks (fn_id article) d),
                 Ok (len rows))).
Proof.
  intros Hf. unfold article_of_store in Hf.
  destruct (fn_content article) as [content|] eqn:Hc.
  - destruct (truthy content) eqn:Ht.
    + destruct (chunk_text_ok content 800 100 ltac:(lia)) as (chunks & Hch).
      destruct (encode chunks) as [embs|e] eqn:He.
      * right. exists (news_rows (fn_id article) (combine chunks embs)).
        split; [apply news_rows_own|]. intros d Hd.
        rewrite <- Hd in Hf.
        rewrite (add_news_embeddings_run encode (fn_id article) d article
                   content chunks Hf Hc Ht Hch), He.
        f_equal. f_equal. unfold len, news_rows, enumerate.
        rewrite length_map, length_enumerate_from. reflexivity.
      * left. intros d Hd. rewrite <- Hd in Hf.
        rewrite (add_news_embeddings_run encode (fn_id article) d article
                   content chunks Hf Hc Ht Hch), He.
        reflexivity.
    + left. intros d Hd. apply add_news_embeddings_skip.
      rewrite Hd, Hf. unfold truthy_opt. rewrite Hc. exact Ht.
  - left. intros d Hd. apply add_news_embeddings_skip.
    rewrite Hd, Hf. unfold truthy_opt. rewrite Hc. reflexivity.
Qed.

(** One round of the news backfill. *)
Lemma backfill_news_article_frame (db : Db vec) (p : Z)
      (article : FinancialNews) :
  same_tables_but_news db0 db -> article_of_store db0 article ->
  same_tables_but_news db0
    (fst (backfill_news_article (Some encode) true (db, p) article)) /\
  (p <= snd (backfill_news_article (Some encode) true (db, p) article)
   <= p + 1)%Z /\
  (forall id, id <> fn_id article ->
              news_chunks_of id
                (fst (backfill_news_article (Some encode) true (db, p)
                        article)) =
              news_chunks_of id db) /\
  (news_chunks_of (fn_id article) db <> [] ->
   backfill_news_article (Some encode) true (db, p) article = (db, p)).
Proof.
  intros Hs Hf. unfold backfill_news_article. cbn [andb].
  destruct (len (news_chunks_of (fn_id article) db) >? 0)%Z eqn:Hc.
  - cbn [fst snd]. split; [exact Hs|]. split; [lia|].
    split; reflexivity.
  - apply len_zero_nil in Hc.
    assert (Hfn : financial_news db = financial_news db0) by apply Hs.
    destruct (add_news_embeddings_outcome article Hf)
      as [E|(rows & Hown & E)]; rewrite (E db Hfn).
    + cbn [Z.gtb Z.compare fst snd]. split; [exact Hs|].
      split; [lia|]. split; [reflexivity|]. congruence.
    + destruct (len rows >? 0)%Z; cbn [fst snd].
      * split; [exact Hs|]. split; [lia|]. split; [|congruence].
        intros id Hid. apply news_chunks_of_other; assumption.
      * split; [exact Hs|]. split; [lia|]. split; [|congruence].
        intros id Hid. apply news_chunks_of_other; assumption.
Qed.

Lemma backfill_news_article_settles (db : Db vec) (p : Z)
      (article : FinancialNews) :
  same_tables_but_news db0 db -> article_of_store db0 article ->
  news_article_settled encode db0
    (fst (backfill_news_article (Some encode) true (db, p) article))
    article.
Proof.
  intros Hs Hf. unfold news_article_settled, backfill_news_article.
  cbn [andb].
  destruct (len (news_chunks_of (fn_id article) db) >? 0)%Z eqn:Hc.
  - left. cbn [fst]. intros E. rewrite E in Hc. discriminate.
  - assert (Hfn : financial_news db = financial_news db0) by apply Hs.
    destruct (add_news_embeddings_outcome article Hf)
      as [E|(rows & Hown & E)].
    + right. intros d Hd _. apply E, Hd.
    + rewrite (E db Hfn).
      assert (Efst : fst (if (len rows >? 0)%Z
                          then (append_news_chunks rows
                                  (purge_news_chunks (fn_id article) db),
                                (p + 1)%Z)
                          else (append_news_chunks rows
                                  (purge_news_chunks (fn_id article) db),
                                p)) =
                     append_news_chunks rows
                       (purge_news_chunks (fn_id article) db))
        by (destruct (len rows >? 0)%Z; reflexivity).
      rewrite Efst, news_chunks_of_replaced by exact Hown.
      destruct rows as [|r rows]; [right|left; discriminate].
      intros d Hd Hnone. rewrite (E d Hd), append_news_chunks_nil,
        (purge_news_chunks_none _ _ Hnone).
      reflexivity.
Qed.

Lemma backfill_news_article_idle (db : Db vec) (p : Z)
      (article : FinancialNews) :
  same_tables_but_news db0 db -> article_of_store db0 article ->
  news_article_settled encode db0 db article ->
  backfill_news_article (Some encode) true (db, p) article = (db, p).
Proof.
  intros Hs Hf Hset. unfold backfill_news_article. cbn [andb].
  destruct (len (news_chunks_of (fn_id article) db) >? 0)%Z eqn:Hc;
    [reflexivity|].
  apply len_zero_nil in Hc.
  destruct Hset as [Hne|Hnone]; [congruence|].
  assert (Hfn : financial_news db = financial_news db0) by apply Hs.
  rewrite (Hnone db Hfn Hc). reflexivity.
Qed.

Lemma backfill_news_article_keeps (db : Db vec) (p : Z)
      (article other : FinancialNews) :
  same_tables_but_news db0 db -> article_of_store db0 article ->
  article_of_store db0 other ->
  news_article_settled encode db0 db other ->
  news_article_settled encode db0
    (fst (backfill_news_article (Some encode) true (db, p) article)) other.
Proof.
  intros Hs Hf Ho Hset.
  destruct (Z.eq_dec (fn_id other) (fn_id article)) as [Heq|Hne].
  - assert (other = article).
    { unfold article_of_store in *. rewrite Heq in Ho. rewrite Hf in Ho.
      injection Ho as <-. reflexivity. }
    subst other. apply backfill_news_article_settles; assumption.
  - destruct (backfill_news_article_frame db p article Hs Hf)
      as (_ & _ & F3 & _).
    unfold news_article_settled in *. rewrite (F3 _ Hne). exact Hset.
Qed.

Lemma backfill_news_rerun (articles : list FinancialNews) (p q : Z) :
  Forall (article_of_store db0) articles ->
  fold_left (backfill_news_article (Some encode) true) articles
    (fst (fold_left (backfill_news_article (Some encode) true) articles
            (db0, p)), q) =
  (fst (fold_left (backfill_news_article (Some encode) true) articles
          (db0, p)), q).
Proof.
  intros Hl.
  apply (loop_rerun _ _ (backfill_news_article (Some encode) true)
           (same_tables_but_news db0) (article_of_store db0)
           (news_article_settled encode db0)).
  - intros s p0 x Hs Hx. apply backfill_news_article_frame; assumption.
  - apply backfill_news_article_settles.
  - apply backfill_news_article_keeps.
  - apply backfill_news_article_idle.
  - repeat split; reflexivity.
  - exact Hl.
Qed.

Lemma backfill_news_loop_frame (articles : list FinancialNews) :
  forall db p,
    same_tables_but_news db0 db ->
    Forall (article_of_store db0) articles ->
    let st' :=
      fold_left (backfill_news_article (Some encode) true) articles
                (db, p) in
    same_tables_but_news db0 (fst st') /\
    (p <= snd st' <= p + len articles)%Z /\
    (forall id, news_chunks_of id db <> [] ->
                news_chunks_of id (fst st') = news_chunks_of id db).
Proof.
  induction articles as [|a articles IH]; intros db p Hs Hl st'; subst st'.
  - cbn [fold_left fst snd]. split; [exact Hs|].
    split; [unfold len; simpl; lia|]. reflexivity.
  - inversion Hl as [|? ? Ha Hl']; subst. cbn [fold_left].
    destruct (backfill_news_article_frame db p a Hs Ha)
      as (F1 & F2 & F3 & F4).
    destruct (backfill_news_article (Some encode) true (db, p) a)
      as [db1 p1] eqn:E.
    cbn [fst snd] in *.
    destruct (IH db1 p1 F1 Hl') as (G1 & G2 & G3).
    split; [exact G1|]. split; [rewrite len_cons; lia|].
    intros id Hne.
    assert (E1 : news_chunks_of id db1 = news_chunks_of id db).
    { destruct (Z.eq_dec id (fn_id a)) as [->|Hd].
      - specialize (F4 Hne). injection F4 as -> _. reflexivity.
      - apply F3, Hd. }
    rewrite (G3 id); [exact E1|]. rewrite E1. exact Hne.
Qed.

End NewsBackfill.

(** X30: [backfill_news_embeddings] with [skip_existing] counts at most
    one per article, changes no table but the news chunks and leaves the
    chunks of every article that had chunks as they are; running it a
    second time, on the store the first run left and for the same
    articles, processes nothing and changes nothing. *)
Theorem backfill_news_embeddings_rerun
        (vec : Type) (encode : Embedder vec)
        (news_articles : list FinancialNews) (db : Db vec) :
  articles_of_store news_articles db ->
  let result :=
    backfill_news_embeddings (Some encode) news_articles true db in
  backfill_news_embeddings (Some encode) news_articles true (fst result) =
  (fst result, 0%Z) /\
  (0 <= snd result <= len news_articles)%Z /\
  same_tables_but_news db (fst result) /\
  (forall id, news_chunks_of id db <> [] ->
              news_chunks_of id (fst result) = news_chunks_of id db).
Proof.
  intros Hl result. subst result. unfold backfill_news_embeddings.
  split; [apply backfill_news_rerun; exact Hl|].
  destruct (backfill_news_loop_frame vec encode db news_articles db 0)
    as (F1 & F2 & F3); [repeat split; reflexivity|exact Hl|].
  split; [lia|]. split; assumption.
Qed.

Lemma backfill_news_embeddings_rerun_witness :
  let articles :=
    [mkFinancialNews 7 "ACME" "Results" (Some "ACME beats") None None
       None] in
  let result :=
    backfill_news_embeddings (Some sample_encode) articles true db_small in
  backfill_news_embeddings (Some sample_encode) articles true (fst result) =
  (fst result, 0%Z) /\
  (0 <= snd result <= len articles)%Z /\
  same_tables_but_news db_small (fst result) /\
  (forall id, news_chunks_of id db_small <> [] ->
              news_chunks_of id (fst result) = news_chunks_of id db_small).
Proof.
  apply (backfill_news_embeddings_rerun Z sample_encode
           [mkFinancialNews 7 "ACME" "Results" (Some "ACME beats") None
              None None]
           db_small).
  repeat constructor.
Defined.

(* ------------------------------------------------------------------ *)
(** ** Retrieval: the best rows of the selected partitions *)
(* ------------------------------------------------------------------ *)

Section BestRows.

Context {A : Type} (key : A -> Q).

Lemma insert_desc_perm (x : A) (l : list A) :
  Permutation (insert_desc key x l) (x :: l).
Proof.
  induction l as [|y l IH]; cbn [insert_desc]; [reflexivity|].
  destruct (Qle_bool (key y) (key x)); [reflexivity|].
  eapply Permutation_trans; [apply perm_skip, IH|apply perm_swap].
Qed.

Lemma sort_desc_perm (l : list A) : Permutation (sort_desc key l) l.
Proof.
  induction l as [|x l IH]; cbn [sort_desc]; [reflexivity|].
  eapply Permutation_trans; [apply insert_desc_perm|apply perm_skip, IH].
Qed.

Lemma perm_filter_length (p : A -> bool) (l l' : list A) :
  Permutation l l' -> length (filter p l) = length (filter p l').
Proof.
  induction 1 as [|x l l' _ IH|x y l|l l' l'' _ IH1 _ IH2].
  - reflexivity.
  - cbn [filter]. destruct (p x); cbn [length]; lia.
  - cbn [filter]. destruct (p x), (p y); reflexivity.
  - lia.
Qed.

Lemma filter_length_bound (p : A -> bool) (l : list A) :
  length (filter p l) <= length l.
Proof.
  induction l as [|x l IH]; [reflexivity|].
  cbn [filter]. destruct (p x); cbn [length]; lia.
Qed.

Lemma filter_length_lt (p : A -> bool) (l : list A) (r : A) :
  In r l -> p r = false -> length (filter p l) < length l.
Proof.
  induction l as [|x l IH]; intros Hin Hr; [destruct Hin|].
  cbn [filter]. destruct Hin as [->|Hin].
  - rewrite Hr. pose proof (filter_length_bound p l). cbn [length]. lia.
  - specialize (IH Hin Hr). destruct (p x); cbn [length]; lia.
Qed.

(** Sorting and cutting gives best rows. *)
Lemma best_rows_topk (k : nat) (C : list A) :
  best_rows key k C (firstn k (sort_desc key C)).
Proof.
  split; [apply firstn_sorted, sort_desc_sorted|].
  split; [rewrite length_firstn, sort_desc_length; reflexivity|].
  exists (skipn k (sort_desc key C)). split.
  - rewrite firstn_skipn. apply sort_desc_perm.
  - apply Forall_forall. intros x Hx. apply Forall_forall. intros r Hr.
    apply (sorted_app_order key (firstn k (sort_desc key C))
             (skipn k (sort_desc key C))); [|exact Hr|exact Hx].
    rewrite firstn_skipn. apply sort_desc_sorted.
Qed.

Lemma best_rows_perm (k : nat) (C C' R : list A) :
  Permutation C C' -> best_rows key k C R -> best_rows key k C' R.
Proof.
  intros HP (HS & HL & rest & P & F).
  split; [exact HS|]. split.
  - rewrite HL, (Permutation_length HP). reflexivity.
  - exists rest. split; [|exact F].
    eapply Permutation_trans; eassumption.
Qed.

(** Candidates may be replaced by their own best rows. *)
Lemma best_rows_replace (k : nat) (C1 R1 C2 R : list A) :
  best_rows key k C1 R1 -> best_rows key k (R1 ++ C2) R ->
  best_rows key k (C1 ++ C2) R.
Proof.
  intros (S1 & L1 & rest1 & P1 & F1) (HS & HL & rest & P & F).
  pose proof (Permutation_length P1) as N1. rewrite length_app in N1.
  split; [exact HS|]. split.
  - rewrite HL, !length_app. lia.
  - exists (rest ++ rest1). split.
    + rewrite app_assoc.
      eapply Permutation_trans; [apply Permutation_app_tail, P|].
      rewrite <- app_assoc.
      eapply Permutation_trans;
        [apply Permutation_app_head, Permutation_app_comm|].
      rewrite app_assoc. apply Permutation_app_tail, P1.
    + apply Forall_app. split; [exact F|].
      apply Forall_forall. intros x Hx. apply Forall_forall. intros r Hr.
      destruct (Qlt_le_dec (key r) (key x)) as [Hlt|Hle]; [|exact Hle].
      exfalso.
      assert (Hk : length R1 = k).
      { destruct rest1 as [|z rest1]; [destruct Hx|].
        cbn [length] in N1. lia. }
      set (q := fun y => negb (Qle_bool (key y) (key r))).
      assert (H1 : filter q R1 = R1).
      { apply filter_keep_all, Forall_forall. intros y Hy. unfold q.
        apply negb_true_iff.
        destruct (Qle_bool (key y) (key r)) eqn:E; [|reflexivity].
        apply Qle_bool_iff in E. exfalso.
        rewrite Forall_forall in F1. specialize (F1 x Hx).
        rewrite Forall_forall in F1. specialize (F1 y Hy).
        apply (Qlt_irrefl (key r)).
        eapply Qlt_le_trans; [exact Hlt|].
        eapply Qle_trans; eassumption. }
      assert (H2 : filter q rest = []).
      { apply filter_drop_all, Forall_forall. intros z Hz. unfold q.
        apply negb_false_iff, Qle_bool_iff.
        rewrite Forall_forall in F. specialize (F z Hz).
        rewrite Forall_forall in F. apply F, Hr. }
      pose proof (perm_filter_length q _ _ P) as Hc.
      rewrite !filter_app, !length_app, H1, H2 in Hc.
      assert (Hr' : q r = false).
      { unfold q. apply negb_false_iff, Qle_bool_iff, Qle_refl. }
      pose proof (filter_length_lt q R r Hr Hr').
      cbn [length] in Hc. lia.
Qed.

Lemma best_rows_replace_mid (k : nat) (pre C1 R1 post R : list A) :
  best_rows key k C1 R1 -> best_rows key k (pre ++ R1 ++ post) R ->
  best_rows key k (pre ++ C1 ++ post) R.
Proof.
  intros H1 H.
  apply (best_rows_perm k (C1 ++ pre ++ post));
    [apply Permutation_app_swap_app|].
  apply (best_rows_replace k C1 R1); [exact H1|].
  apply (best_rows_perm k (pre ++ R1 ++ post));
    [apply Permutation_app_swap_app|exact H].
Qed.

(** Cutting every group to its best rows before the merge loses
    nothing. *)
Lemma best_rows_groups (k : nat) (R : list A) (G : list (list A)) :
  forall pre,
    best_rows key k
      (pre ++ concat (map (fun C => firstn k (sort_desc key C)) G)) R ->
    best_rows key k (pre ++ concat G) R.
Proof.
  induction G as [|g G IH]; intros pre H; [exact H|].
  cbn [map concat] in *.
  apply (best_rows_replace_mid k pre g (firstn k (sort_desc key g)));
    [apply best_rows_topk|].
  rewrite app_assoc. apply IH. rewrite <- app_assoc. exact H.
Qed.

Lemma best_rows_merge (k : nat) (G : list (list A)) :
  best_rows key k (concat G)
    (firstn k
       (sort_desc key
          (concat (map (fun C => firstn k (sort_desc key C)) G)))).
Proof.
  apply (best_rows_groups k _ G []). apply best_rows_topk.
Qed.

(** How many of the best rows reach a bound. *)
Lemma best_rows_count (k : nat) (C R : list A) (t : Q) :
  best_rows key k C R ->
  length (filter (fun y => Qle_bool t (key y)) R) =
  Nat.min (length R) (length (filter (fun y => Qle_bool t (key y)) C)).
Proof.
  intros (_ & _ & rest & P & F).
  set (p := fun y => Qle_bool t (key y)).
  pose proof (perm_filter_length p _ _ P) as Hc.
  rewrite filter_app, length_app in Hc.
  pose proof (filter_length_bound p R) as Hb.
  destruct (filter p rest) as [|z zs] eqn:Er.
  - cbn [length] in Hc. lia.
  - assert (Hz : In z (filter p rest)) by (rewrite Er; left; reflexivity).
    apply filter_In in Hz. destruct Hz as (Hz & Hpz).
    assert (E : filter p R = R).
    { apply filter_keep_all, Forall_forall. intros r Hr. unfold p in *.
      apply Qle_bool_iff. apply Qle_bool_iff in Hpz.
      rewrite Forall_forall in F. specialize (F z Hz).
      rewrite Forall_forall in F. specialize (F r Hr).
      eapply Qle_trans; eassumption. }
    rewrite E in *. lia.
Qed.

Lemma Qle_bool_eq_r (t a b : Q) :
  (a == b)%Q -> Qle_bool t a = Qle_bool t b.
Proof.
  intros H. destruct (Qle_bool t a) eqn:Ea, (Qle_bool t b) eqn:Eb;
    try reflexivity.
  - apply Qle_bool_iff in Ea. rewrite H in Ea.
    apply Qle_bool_iff in Ea. congruence.
  - apply Qle_bool_iff in Eb. rewrite <- H in Eb.
    apply Qle_bool_iff in Eb. congruence.
Qed.

Lemma sorted_head_max (b y : A) (l : list A) :
  StronglySorted (desc key) (b :: l) -> In y (b :: l) ->
  (key y <= key b)%Q.
Proof.
  intros H [<-|Hy]; [apply Qle_refl|].
  inversion H as [|? ? _ Hb]; subst.
  rewrite Forall_forall in Hb. apply Hb, Hy.
Qed.

Lemma head_le_of_count (a b : A) (l1 l2 : list A) :
  StronglySorted (desc key) (b :: l2) ->
  length (filter (fun y => Qle_bool (key a) (key y)) (a :: l1)) =
  length (filter (fun y => Qle_bool (key a) (key y)) (b :: l2)) ->
  (key a <= key b)%Q.
Proof.
  intros Hs Hc.
  assert (Ha : Qle_bool (key a) (key a) = true)
    by apply Qle_bool_iff, Qle_refl.
  assert (E1 : length (filter (fun y => Qle_bool (key a) (key y)) (a :: l1))
               = S (length (filter (fun y => Qle_bool (key a) (key y)) l1))).
  { cbn [filter]. rewrite Ha. reflexivity. }
  rewrite E1 in Hc.
  destruct (filter (fun y => Qle_bool (key a) (key y)) (b :: l2))
    as [|y ys] eqn:E; [discriminate|].
  assert (Hy : In y (filter (fun y => Qle_bool (key a) (key y)) (b :: l2)))
    by (rewrite E; left; reflexivity).
  apply filter_In in Hy. destruct Hy as (Hy & Hp).
  apply Qle_bool_iff in Hp.
  eapply Qle_trans; [exact Hp|]. apply (sorted_head_max b y l2); assumption.
Qed.

(** Two sorted lists with the same counts above every bound have the
    same keys. *)
Lemma sorted_counts_keys (R1 : list A) :
  forall R2,
    StronglySorted (desc key) R1 -> StronglySorted (desc key) R2 ->
    length R1 = length R2 ->
    (forall t, length (filter (fun y => Qle_bool t (key y)) R1) =
               length (filter (fun y => Qle_bool t (key y)) R2)) ->
    Forall2 (fun a b => (key a == key b)%Q) R1 R2.
Proof.
  induction R1 as [|a R1 IH]; intros [|b R2] H1 H2 HL Hc;
    try discriminate; constructor.
  - apply Qle_antisym.
    + apply (head_le_of_count a b R1 R2 H2), Hc.
    + apply (head_le_of_count b a R2 R1 H1). symmetry. apply Hc.
  - assert (Hab : (key a == key b)%Q).
    { apply Qle_antisym.
      - apply (head_le_of_count a b R1 R2 H2), Hc.
      - apply (head_le_of_count b a R2 R1 H1). symmetry. apply Hc. }
    apply IH.
    + inversion H1; assumption.
    + inversion H2; assumption.
    + cbn [length] in HL. lia.
    + intros t. specialize (Hc t). cbn [filter] in Hc.
      rewrite (Qle_bool_eq_r t _ _ Hab) in Hc.
      destruct (Qle_bool t (key b)); cbn [length] in Hc; lia.
Qed.

(** Best rows of the same candidates have the same keys. *)
Lemma best_rows_keys (k : nat) (C R1 R2 : list A) :
  best_rows key k C R1 -> best_rows key k C R2 ->
  Forall2 (fun a b => (key a == key b)%Q) R1 R2.
Proof.
  intros H1 H2.
  assert (HL : length R1 = length R2).
  { destruct H1 as (_ & L1 & _), H2 as (_ & L2 & _). lia. }
  apply sorted_counts_keys; [apply H1|apply H2|exact HL|].
  intros t. rewrite (best_rows_count k C R1 t H1),
    (best_rows_count k C R2 t H2), HL. reflexivity.
Qed.

Lemma insert_desc_map {B : Type} (f : B -> A) (x : B) (l : list B) :
  insert_desc key (f x) (map f l) =
  map f (insert_desc (fun b => key (f b)) x l).
Proof.
  induction l as [|y l IH]; [reflexivity|].
  cbn [map insert_desc]. destruct (Qle_bool (key (f y)) (key (f x)));
    [reflexivity|].
  cbn [map]. rewrite IH. reflexivity.
Qed.

Lemma sort_desc_map {B : Type} (f : B -> A) (l : list B) :
  sort_desc key (map f l) = map f (sort_desc (fun b => key (f b)) l).
Proof.
  induction l as [|x l IH]; [reflexivity|].
  cbn [map sort_desc]. rewrite IH. apply insert_desc_map.
Qed.

End BestRows.

Lemma insert_desc_ext {A} (key1 key2 : A -> Q) (x : A) (l : list A) :
  (forall a, key1 a = key2 a) ->
  insert_desc key1 x l = insert_desc key2 x l.
Proof.
  intros H. induction l as [|y l IH]; [reflexivity|].
  cbn [insert_desc]. rewrite IH, !H. reflexivity.
Qed.

Lemma sort_desc_ext {A} (key1 key2 : A -> Q) (l : list A) :
  (forall a, key1 a = key2 a) -> sort_desc key1 l = sort_desc key2 l.
Proof.
  intros H. induction l as [|x l IH]; [reflexivity|].
  cbn [sort_desc]. rewrite IH. apply insert_desc_ext, H.
Qed.

(** A list split in two by what each element contributes. *)
Lemma flat_map_split {A B} (gT gS gA : A -> list B) (l : list A) :
  Forall (fun c => (gT c = gA c /\ gS c = []) \/
                   (gT c = [] /\ gS c = gA c)) l ->
  Permutation (flat_map gT l ++ flat_map gS l) (flat_map gA l).
Proof.
  induction 1 as [|c l Hc _ IH]; [reflexivity|].
  cbn [flat_map]. destruct Hc as [(-> & ->)|(-> & ->)]; cbn [app].
  - rewrite <- app_assoc. apply Permutation_app_head, IH.
  - eapply Permutation_trans; [apply Permutation_app_swap_app|].
    apply Permutation_app_head, IH.
Qed.

Section SelectedRows.

Context {vec : Type} (cosine_distance : vec -> vec -> Q).

(** The document query, from the candidates. *)
Lemma document_rows_candidates (keep : DocumentChunk vec -> bool)
      (db : Db vec) (q : vec) (cs : option string) (thr : Q) :
  map (fun r : DocumentChunk vec * EarningsCall * Q =>
         let '((c, e), sim) := r in document_result c e sim)
      (filter (fun r => Qle_bool thr (snd r))
         (filter (fun r => keep (fst (fst r)))
            (filter (fun r => company_matches cs
                                (ec_company_symbol (snd (fst r))))
               (map (fun ce : DocumentChunk vec * EarningsCall =>
                       (ce, similarity cosine_distance
                              (dc_embedding (fst ce)) q))
                    (join_earnings_calls db))))) =
  document_candidates cosine_distance keep db q cs thr.
Proof.
  unfold join_earnings_calls, document_candidates.
  induction (document_chunks db) as [|c l IH]; [reflexivity|].
  cbn [flat_map]. rewrite map_app, !filter_app, map_app, IH. f_equal.
  destruct (find (fun e => (ec_id e =? dc_earnings_call_id c)%Z)
                 (earnings_calls db)) as [e|]; [|reflexivity].
  cbn [map filter fst snd].
  destruct (company_matches cs (ec_company_symbol e)); cbn [filter fst snd];
    [|rewrite andb_false_r; reflexivity].
  destruct (keep c); cbn [filter fst snd andb]; [|reflexivity].
  destruct (Qle_bool thr (similarity cosine_distance (dc_embedding c) q));
    reflexivity.
Qed.

Lemma filter_true {B} (l : list B) : filter (fun _ => true) l = l.
Proof.
  induction l as [|x l IH]; [reflexivity|]. cbn. rewrite IH. reflexivity.
Qed.

Lemma document_results_candidates (db : Db vec) (q : vec)
      (cs : option string) (st : string) (L : nat) (thr : Q) :
  document_results cosine_distance db q cs st L thr =
  firstn L
    (sort_desc sr_similarity
       (document_candidates cosine_distance (type_filter st) db q cs thr)).
Proof.
  rewrite <- (document_rows_candidates (type_filter st)).
  rewrite (sort_desc_map sr_similarity), firstn_map.
  rewrite (sort_desc_ext _ snd) by (intros [[c e] sim]; reflexivity).
  unfold document_results. cbv zeta.
  apply f_equal. apply f_equal. apply f_equal. apply f_equal.
  unfold type_filter.
  destruct (String.eqb st "transcript"); [reflexivity|].
  destruct (String.eqb st "summary"); [reflexivity|].
  rewrite filter_true. reflexivity.
Qed.

Lemma news_results_candidates (db : Db vec) (q : vec) (cs : option string)
      (L : nat) (thr : Q) :
  news_results cosine_distance db q cs L thr =
  firstn L (sort_desc sr_similarity
              (news_candidates cosine_distance db q cs thr)).
Proof.
  assert (E : map (fun r : NewsChunk vec * FinancialNews * Q =>
                     let '((c, n), sim) := r in news_result c n sim)
                (filter (fun r => Qle_bool thr (snd r))
                   (filter (fun r => company_matches cs
                                       (fn_symbol (snd (fst r))))
                      (map (fun cn : NewsChunk vec * FinancialNews =>
                              (cn, similarity cosine_distance
                                     (nc_embedding (fst cn)) q))
                           (join_financial_news db)))) =
              news_candidates cosine_distance db q cs thr).
  { unfold join_financial_news, news_candidates.
    induction (news_chunks db) as [|c l IH]; [reflexivity|].
    cbn [flat_map]. rewrite map_app, !filter_app, map_app, IH. f_equal.
    destruct (find (fun n => (fn_id n =? nc_news_id c)%Z)
                   (financial_news db)) as [n|]; [|reflexivity].
    cbn [map filter fst snd].
    destruct (company_matches cs (fn_symbol n)); cbn [filter fst snd andb];
      [|reflexivity].
    destruct (Qle_bool thr (similarity cosine_distance (nc_embedding c) q));
      reflexivity. }
  rewrite <- E.
  rewrite (sort_desc_map sr_similarity), firstn_map.
  rewrite (sort_desc_ext _ snd) by (intros [[c n] sim]; reflexivity).
  reflexivity.
Qed.

Lemma topk_if (b : bool) (L : nat) (C : list SearchResult) :
  (if b then firstn L (sort_desc sr_similarity C) else []) =
  firstn L (sort_desc sr_similarity (if b then C else [])).
Proof. destruct b; [reflexivity|]. destruct L; reflexivity. Qed.

(** The result of the search is the best [limit] of the selected rows. *)
Lemma semantic_search_best (encode : Embedder vec) (db : Db vec)
      (query : string) (q : vec) (cs : option string) (st : string)
      (L : nat) (thr : Q) :
  query_embedding_of encode query = Ok q ->
  best_rows sr_similarity L
    (selected_rows cosine_distance db q cs st thr)
    (semantic_search cosine_distance (Some encode) db query cs st L thr).
Proof.
  intros Hq. unfold semantic_search. rewrite Hq.
  unfold partition_results, selected_rows.
  rewrite document_results_candidates, news_results_candidates, !topk_if.
  set (D := if search_type_in st ["all"; "transcript"; "summary"]
            then _ else []).
  set (N := if search_type_in st ["all"; "news"] then _ else []).
  pose proof (best_rows_merge sr_similarity L [D; N]) as H.
  cbn [map concat] in H. rewrite !app_nil_r in H. exact H.
Qed.

(** The candidates of a transcript or summary chunk. *)
Lemma document_candidates_split (db : Db vec) (q : vec)
      (cs : option string) (thr : Q) :
  partitioned db ->
  Permutation
    (document_candidates cosine_distance
       (fun c => String.eqb (dc_chunk_type c) "transcript") db q cs thr ++
     document_candidates cosine_distance
       (fun c => like_summary (dc_chunk_type c)) db q cs thr)
    (document_candidates cosine_distance (fun _ => true) db q cs thr).
Proof.
  intros Hp. unfold document_candidates. apply flat_map_split.
  eapply Forall_impl; [|exact Hp]. intros c Hc. cbn beta.
  destruct (find (fun e => (ec_id e =? dc_earnings_call_id c)%Z)
                 (earnings_calls db)) as [e|]; [|left; split; reflexivity].
  destruct Hc as [Hc|Hc].
  - left. rewrite Hc. split; reflexivity.
  - right. rewrite Hc.
    assert (Ht : String.eqb (dc_chunk_type c) "transcript" = false).
    { apply String.eqb_neq. intros E. rewrite E in Hc. discriminate. }
    rewrite Ht. split; reflexivity.
Qed.

(** The partitions of the specification hold the selected rows. *)
Lemma selected_rows_partitions (db : Db vec) (q : vec)
      (cs : option string) (st : string) (thr : Q) :
  partitioned db ->
  Permutation
    (concat
       (map (fun p => partition_rows cosine_distance p db q cs thr)
            (filter (partition_selected st)
                    [Transcripts; Summaries; NewsArticles])))
    (selected_rows cosine_distance db q cs st thr).
Proof.
  intros Hp. unfold selected_rows.
  destruct (String.eqb st "all") eqn:Ea.
  { apply String.eqb_eq in Ea. subst st.
    cbn [filter partition_selected search_type_in existsb String.eqb
         Ascii.eqb Bool.eqb orb andb map concat partition_rows].
    rewrite app_nil_r, app_assoc.
    apply Permutation_app_tail.
    apply (document_candidates_split db q cs thr Hp). }
  destruct (String.eqb st "transcript") eqn:Et.
  { apply String.eqb_eq in Et. subst st.
    cbn [filter partition_selected search_type_in existsb String.eqb
         Ascii.eqb Bool.eqb orb andb map concat partition_rows].
    reflexivity. }
  destruct (String.eqb st "summary") eqn:Es.
  { apply String.eqb_eq in Es. subst st.
    cbn [filter partition_selected search_type_in existsb String.eqb
         Ascii.eqb Bool.eqb orb andb map concat partition_rows].
    reflexivity. }
  destruct (String.eqb st "news") eqn:En.
  { apply String.eqb_eq in En. subst st.
    cbn [filter partition_selected search_type_in existsb String.eqb
         Ascii.eqb Bool.eqb orb andb map concat partition_rows app].
    rewrite app_nil_r. reflexivity. }
  unfold partition_selected, search_type_in. cbn [filter existsb].
  rewrite Ea, Et, Es, En. cbn [orb filter map concat app]. reflexivity.
Qed.

(** The search in the words of the specification gives the best [limit]
    of the same rows. *)
Lemma semantic_search_by_partition_best (encode : Embedder vec)
      (db : Db vec) (query : string) (q : vec) (cs : option string)
      (st : string) (L : nat) (thr : Q) :
  partitioned db ->
  query_embedding_of encode query = Ok q ->
  best_rows sr_similarity L
    (selected_rows cosine_distance db q cs st thr)
    (semantic_search_by_partition cosine_distance (Some encode) db query cs
       st L thr).
Proof.
  intros Hp Hq. unfold semantic_search_by_partition. rewrite Hq.
  apply (best_rows_perm sr_similarity L _ _ _
           (selected_rows_partitions db q cs st thr Hp)).
  unfold similarity_query.
  rewrite <- (map_map (fun p => partition_rows cosine_distance p db q cs thr)
                      (fun C => firstn L (sort_desc sr_similarity C))).
  apply best_rows_merge.
Qed.

(** The best rows are among the candidates. *)
Lemma best_rows_incl {A} (key : A -> Q) (k : nat) (C R : list A) (r : A) :
  best_rows key k C R -> In r R -> In r C.
Proof.
  intros (_ & _ & rest & P & _) Hr.
  apply (Permutation_in _ P), in_or_app. left. exact Hr.
Qed.

End SelectedRows.

(* ------------------------------------------------------------------ *)
(** ** The replacement of the chunks of an earnings call *)
(* ------------------------------------------------------------------ *)

Lemma append_document_chunks_inj {vec} (rows1 rows2 : list (DocumentChunk vec))
      (d : Db vec) :
  append_document_chunks rows1 d = append_document_chunks rows2 d ->
  rows1 = rows2.
Proof.
  intros H. apply (f_equal document_chunks) in H. cbn in H.
  apply app_inv_head in H. exact H.
Qed.

(** Every run on a call that exists deletes the chunks stored for the
    call and stores rows computed from the transcript and the summaries:
    the same rows as on a store without any chunk. *)
Lemma add_earnings_embeddings_replaces {vec} (encode : Embedder vec)
      (id : Z) (ct cs : bool) (db : Db vec) (call : EarningsCall) :
  find (fun c => (ec_id c =? id)%Z) (earnings_calls db) = Some call ->
  exists rows n,
    add_earnings_embeddings (Some encode) id ct cs db =
    (append_document_chunks rows (purge_document_chunks id db), Ok n) /\
    chunks_of id
      (fst (add_earnings_embeddings (Some encode) id ct cs db)) = rows /\
    add_earnings_embeddings (Some encode) id ct cs (chunkless db) =
    (append_document_chunks rows (chunkless db), Ok n) /\
    Forall (fun row =>
              row_at id "transcript" (transcript_chunks call) row \/
              exists sm, In sm (summaries_of id db) /\
                         row_at id (summary_chunk_type sm)
                                (summary_chunks sm) row) rows /\
    (NoDup (map summary_chunk_type (summaries_of id db)) ->
     NoDup (map partition_key rows)) /\
    (n = len rows \/ n = 0%Z) /\
    (one_vector_per_text encode ->
     n = len rows /\
     map row_label rows =
     (if ct then labelled_from "transcript" 0 (transcript_chunks call)
      else []) ++
     (if cs
      then concat (map (fun sm => labelled_from (summary_chunk_type sm) 0
                                    (summary_chunks sm))
                       (summaries_of id db))
      else [])).
Proof.
  intros Hfind.
  destruct (add_earnings_embeddings_rows encode id ct cs db call Hfind)
    as (T & done & rest & groups & n & E & EL & FT & ST & FG & Hn).
  pose proof (groups_own_rows id done groups FG) as Hown.
  pose proof (replaced_rows_own_call id call T done groups FT FG) as Hid.
  exists (T ++ concat groups), n.
  split; [exact E|].
  split; [rewrite E; cbn [fst]; apply chunks_of_replaced, Hid|].
  split; [|split; [|split; [|split; [exact Hn|]]]].
  - destruct (add_earnings_embeddings_chunkless _ encode id ct cs db call
                Hfind) as (rows' & n' & E1 & E2 & _ & _).
    rewrite E in E2.
    pose proof (f_equal fst E2) as Ef. pose proof (f_equal snd E2) as Es.
    cbn [fst snd] in Ef, Es. apply append_document_chunks_inj in Ef.
    injection Es as Es. rewrite Ef, Es. exact E1.
  - apply Forall_app. split.
    + eapply Forall_impl; [|exact FT]. intros r Hr. left. exact Hr.
    + eapply Forall_impl; [|exact Hown]. intros r (sm & Hin & Hr).
      right. exists sm. split; [|exact Hr].
      rewrite EL. apply in_or_app. left. exact Hin.
  - intros Hnd. rewrite map_app. apply NoDup_app.
    + apply sorted_rows_distinct_keys, ST.
    + apply (groups_distinct_keys id done); [|exact FG].
      rewrite EL, map_app in Hnd. eapply NoDup_app_remove_r, Hnd.
    + intros key Hin1 Hin2.
      apply in_map_iff in Hin1. destruct Hin1 as (r1 & <- & Hr1).
      apply in_map_iff in Hin2. destruct Hin2 as (r2 & Hk & Hr2).
      rewrite Forall_forall in FT, Hown.
      destruct (FT r1 Hr1) as (_ & Ht1 & _).
      destruct (Hown r2 Hr2) as (sm & _ & (_ & Ht2 & _)).
      unfold partition_key in Hk. injection Hk as Hk _.
      apply (summary_tag_not_transcript sm). congruence.
  - intros Henc.
    destruct (add_earnings_embeddings_stored encode id ct cs db call Henc
                Hfind) as (rows' & E' & _ & Hlabels).
    rewrite E in E'.
    pose proof (f_equal fst E') as Ef. pose proof (f_equal snd E') as Es.
    cbn [fst snd] in Ef, Es. apply append_document_chunks_inj in Ef.
    injection Es as Es. rewrite Ef, Es.
    split; [reflexivity|exact Hlabels].
Qed.

Lemma sample_encode_one_vector_per_text : one_vector_per_text sample_encode.
Proof. intros texts. eexists. split; [reflexivity|apply length_map]. Qed.

(** C2: running [add_earnings_embeddings] a second time, on the store the
    first run left, returns the same count as the first run and leaves the
    same rows (rows carry neither the key nor the timestamp the database
    assigns). When the model is loaded and the call exists, a run deletes
    the chunks stored for the call and stores a freshly computed set: the
    store it leaves is the store without the call's old chunks followed by
    new rows, the rows do not depend on the chunks stored before (the run
    on the store without any chunk gives the same rows and count), each
    row is a chunk of the transcript or of a summary of the call at its
    position, and the count is the number of rows, or 0 after a caught
    failure; with a model that returns one vector per text the rows are
    all the chunks of the transcript and of the summaries, in order, and
    the count is their number. *)
Theorem add_embeddings_twice_same_count
        (vec : Type) (embedder : option (Embedder vec)) (id : Z)
        (ct cs : bool) (db : Db vec) :
  let first := add_earnings_embeddings embedder id ct cs db in
  let second := add_earnings_embeddings embedder id ct cs (fst first) in
  (snd second = snd first /\
   chunks_of id (fst second) = chunks_of id (fst first) /\
   fst second = fst first) /\
  forall encode call,
    embedder = Some encode ->
    find (fun c => (ec_id c =? id)%Z) (earnings_calls db) = Some call ->
    exists rows n,
      first =
      (append_document_chunks rows (purge_document_chunks id db), Ok n) /\
      chunks_of id (fst first) = rows /\
      add_earnings_embeddings embedder id ct cs (chunkless db) =
      (append_document_chunks rows (chunkless db), Ok n) /\
      Forall (fun row =>
                row_at id "transcript" (transcript_chunks call) row \/
                exists sm, In sm (summaries_of id db) /\
                           row_at id (summary_chunk_type sm)
                                  (summary_chunks sm) row) rows /\
      (n = len rows \/ n = 0%Z) /\
      (one_vector_per_text encode ->
       n = len rows /\
       map row_label rows =
       (if ct then labelled_from "transcript" 0 (transcript_chunks call)
        else []) ++
       (if cs
        then concat (map (fun sm => labelled_from (summary_chunk_type sm) 0
                                      (summary_chunks sm))
                         (summaries_of id db))
        else [])).
Proof.
  intros first second. split.
  - assert (H : second = first); [|rewrite H; auto].
    subst second first.
    destruct embedder as [encode|]; [|reflexivity].
    destruct (find (fun c => (ec_id c =? id)%Z) (earnings_calls db))
      as [call|] eqn:Hfind.
    + destruct (add_earnings_embeddings_rows encode id ct cs db call Hfind)
        as (T & done & rest & groups & n & E & EL & FT & ST & FG & _).
      rewrite E at 1. cbn [fst].
      rewrite (add_earnings_embeddings_found encode id ct cs _ call)
        by exact Hfind.
      rewrite (add_earnings_embeddings_found encode id ct cs db call Hfind).
      rewrite purge_append_own
        by (eapply replaced_rows_own_call; eassumption).
      rewrite purge_document_chunks_idem. reflexivity.
    + rewrite (add_earnings_embeddings_not_found encode id ct cs db Hfind).
      cbn [fst]. apply add_earnings_embeddings_not_found, Hfind.
  - intros encode call -> Hfind. subst first.
    destruct (add_earnings_embeddings_replaces encode id ct cs db call
                Hfind) as (rows & n & E & Ec & E0 & F & _ & Hn & Hall).
    exists rows, n. repeat (split; [assumption|]). exact Hall.
Qed.

Lemma add_embeddings_twice_same_count_witness :
  let first :=
    add_earnings_embeddings (Some sample_encode) 1 true true db_small in
  let second :=
    add_earnings_embeddings (Some sample_encode) 1 true true (fst first) in
  chunks_of 1 db_small =
  [mkDocumentChunk 1 "Revenue grew" 0 "transcript" 12%Z;
   mkDocumentChunk 1 "Solid quarter" 0 "summary_executive" 13%Z] /\
  snd second = snd first /\
  exists rows,
    first =
    (append_document_chunks rows (purge_document_chunks 1 db_small),
     Ok 3%Z) /\
    chunks_of 1 (fst first) = rows /\
    map row_label rows =
    [("transcript", 0%Z, "Revenue grew and margins improved");
     ("summary_executive", 0%Z, "Solid quarter");
     ("summary_outlook_sentiment", 0%Z, "Positive")].
Proof.
  intros first second. split; [reflexivity|].
  destruct (add_embeddings_twice_same_count Z (Some sample_encode) 1 true
              true db_small) as ((H1 & _) & H2).
  split; [exact H1|].
  destruct (H2 sample_encode
              (mkEarningsCall 1 "ACME" "Q1" 2024 None
                 (Some "Revenue grew and margins improved"))
              eq_refl eq_refl)
    as (rows & n & E & Ec & _ & _ & _ & Hall).
  destruct (Hall sample_encode_one_vector_per_text) as (Hn & Hl).
  exists rows. split; [|split; [exact Ec|exact Hl]].
  subst first. rewrite E. f_equal. f_equal. rewrite Hn.
  unfold len. rewrite <- (length_map row_label), Hl. reflexivity.
Defined.

(** C6 (amended): with the embedding model loaded, a news article whose
    content is empty or null makes [add_news_embeddings] return 0 and
    leave the store as it is. An earnings call whose transcript is empty
    or null makes [add_earnings_embeddings] run as with
    [chunk_transcripts=False]: it raises nothing, the chunks stored for
    the call before are deleted, no transcript chunk is stored, the rows
    stored are chunks of the summaries of the call, and the count is their
    number, or 0 after a caught failure; with a model that returns one
    vector per text every chunk of every summary is stored (when
    [chunk_summaries] is set) and the count is their number. *)
Theorem empty_text_embeddings
        (vec : Type) (encode : Embedder vec) (cs : bool) (db : Db vec) :
  (forall news_id article,
      find (fun n => (fn_id n =? news_id)%Z) (financial_news db) =
      Some article ->
      truthy_opt (fn_content article) = false ->
      add_news_embeddings (Some encode) news_id db = (db, Ok 0%Z)) /\
  (forall call_id call ct,
      find (fun c => (ec_id c =? call_id)%Z) (earnings_calls db) =
      Some call ->
      truthy_opt (ec_raw_transcript call) = false ->
      add_earnings_embeddings (Some encode) call_id ct cs db =
      add_earnings_embeddings (Some encode) call_id false cs db /\
      exists rows n,
        add_earnings_embeddings (Some encode) call_id ct cs db =
        (append_document_chunks rows (purge_document_chunks call_id db),
         Ok n) /\
        chunks_of call_id
          (fst (add_earnings_embeddings (Some encode) call_id ct cs db)) =
        rows /\
        Forall (fun row =>
                  dc_chunk_type row <> "transcript" /\
                  exists sm, In sm (summaries_of call_id db) /\
                             row_at call_id (summary_chunk_type sm)
                                    (summary_chunks sm) row) rows /\
        (n = len rows \/ n = 0%Z) /\
        (one_vector_per_text encode ->
         n = len rows /\
         map row_label rows =
         if cs
         then concat (map (fun sm =>
                             labelled_from (summary_chunk_type sm) 0
                               (summary_chunks sm))
                          (summaries_of call_id db))
         else [])).
Proof.
  split.
  - intros news_id article Hnews Hcontent.
    unfold add_news_embeddings, run_session, try_except,
      add_news_embeddings_body, bind, query_news. cbn [working].
    rewrite Hnews.
    destruct (fn_content article) as [[|c t]|]; simpl in *;
      [reflexivity|discriminate|reflexivity].
  - intros call_id call ct Hcall Htr. split.
    + rewrite !(add_earnings_embeddings_found encode call_id _ cs db call
                  Hcall).
      unfold embed_earnings_call. rewrite Htr, andb_false_r. reflexivity.
    + destruct (add_earnings_embeddings_replaces encode call_id ct cs db
                  call Hcall) as (rows & n & E & Ec & _ & F & _ & Hn & Hall).
      rewrite (transcript_chunks_empty call Htr) in F, Hall.
      exists rows, n. split; [exact E|]. split; [exact Ec|].
      split; [|split; [exact Hn|]].
      * eapply Forall_impl; [|exact F]. intros r [Hr|(sm & Hin & Hr)].
        -- destruct Hr as (_ & _ & _ & Hnth).
           destruct (Z.to_nat (dc_chunk_index r)); discriminate.
        -- split; [|exists sm; split; assumption].
           destruct Hr as (_ & Ht & _). rewrite Ht.
           apply summary_tag_not_transcript.
      * intros Henc. destruct (Hall Henc) as (Hlen & Hl).
        split; [exact Hlen|]. rewrite Hl. destruct ct; reflexivity.
Qed.

Lemma empty_text_embeddings_witness :
  let run :=
    add_earnings_embeddings (Some sample_encode) 1 true true
      db_without_transcript in
  add_news_embeddings (Some sample_encode) 7 db_without_transcript =
  (db_without_transcript, Ok 0%Z) /\
  chunks_of 1 db_without_transcript =
  [mkDocumentChunk 1 "old text" 0 "transcript" 8%Z] /\
  exists rows,
    run =
    (append_document_chunks rows
       (purge_document_chunks 1 db_without_transcript), Ok 1%Z) /\
    chunks_of 1 (fst run) = rows /\
    map row_label rows = [("summary_executive", 0%Z, "Solid quarter")].
Proof.
  intros run.
  destruct (empty_text_embeddings Z sample_encode true
              db_without_transcript) as (Hnews & Hcall).
  split.
  { apply (Hnews 7%Z
             (mkFinancialNews 7 "ACME" "Results" (Some EmptyString) None
                None None)); reflexivity. }
  split; [reflexivity|].
  destruct (Hcall 1%Z (mkEarningsCall 1 "ACME" "Q1" 2024 None None) true
              eq_refl eq_refl)
    as (_ & rows & n & E & Ec & _ & _ & Hall).
  destruct (Hall sample_encode_one_vector_per_text) as (Hn & Hl).
  exists rows. split; [|split; [exact Ec|exact Hl]].
  subst run. rewrite E. f_equal. f_equal. rewrite Hn.
  unfold len. rewrite <- (length_map row_label), Hl. reflexivity.
Defined.




(* ------------------------------------------------------------------ *)
(** ** The keyword fallback counts keywords, not occurrences *)
(* ------------------------------------------------------------------ *)

Lemma occurrences_nonneg (word text : string) :
  (0 <= occurrences word text)%Z.
Proof.
  induction text as [|c text IH]; cbn [occurrences];
    destruct (prefix word _); lia.
Qed.

(** [word in text] holds when [word] occurs at least once. *)
Lemma contains_occurrences (word text : string) :
  contains word text = (0 <? occurrences word text)%Z.
Proof.
  induction text as [|c text IH]; cbn [contains occurrences].
  - destruct (prefix word EmptyString); reflexivity.
  - rewrite IH. pose proof (occurrences_nonneg word text).
    destruct (prefix word (String c text)); cbn [orb].
    + symmetry. apply Z.ltb_lt. lia.
    + reflexivity.
Qed.

Lemma keyword_count_found (keywords : list string) (text : string) :
  keyword_count keywords text =
  len (filter (fun word => (0 <? occurrences word text)%Z) keywords).
Proof.
  unfold keyword_count. f_equal. apply filter_ext.
  intros word. apply contains_occurrences.
Qed.

Lemma keyword_count_le_occurrences (keywords : list string) (text : string) :
  (keyword_count keywords text <= occurrence_count keywords text)%Z.
Proof.
  rewrite keyword_count_found. unfold occurrence_count, len.
  induction keywords as [|word keywords IH]; [reflexivity|].
  cbn [filter map fold_right].
  pose proof (occurrences_nonneg word text).
  destruct (0 <? occurrences word text)%Z eqn:E; cbn [length].
  - apply Z.ltb_lt in E. lia.
  - lia.
Qed.

Lemma keyword_count_le_keywords (keywords : list string) (text : string) :
  (keyword_count keywords text <= len keywords)%Z.
Proof.
  unfold keyword_count, len.
  pose proof (filter_length_bound (fun word => contains word text) keywords).
  lia.
Qed.

(** C5 (amended): when the reply of the LLM to the prompt is empty or its
    first word is not a valid sentiment word, the result is the keyword
    fallback on three counts, the count of a keyword set being the number
    of its keywords that occur in the lower-cased transcript, each keyword
    counted once however often it occurs: the label of the strictly
    largest count, else Neutral; with 5, 1 and 2 keywords found it is
    Positive. The count of a set is at most the number of occurrences of
    its keywords and at most the number of its keywords. *)
Theorem sentiment_keyword_fallback
        (generate : Generate) (companies : list Company)
        (id : Z) (symbol quarter : string) (year : Z) (date : option string)
        (raw_transcript : string) :
  let call :=
    mkEarningsCall id symbol quarter year date (Some raw_transcript) in
  let transcript := lower raw_transcript in
  let p := keyword_count SENTIMENT_KEYWORDS_positive transcript in
  let n := keyword_count SENTIMENT_KEYWORDS_negative transcript in
  let u := keyword_count SENTIMENT_KEYWORDS_neutral transcript in
  accepted_reply
    (strip (generate (outlook_prompt companies call raw_transcript) 10%Z)) =
  Ok None ->
  determine_outlook_sentiment generate companies call =
  Ok (keyword_fallback p n u) /\
  (keyword_fallback p n u = "Positive" <-> (p > n /\ p > u)%Z) /\
  (keyword_fallback p n u = "Negative" <-> (n > p /\ n > u)%Z) /\
  (keyword_fallback p n u = "Neutral" <->
   ~ (p > n /\ p > u)%Z /\ ~ (n > p /\ n > u)%Z) /\
  (p = 5%Z -> n = 1%Z -> u = 2%Z ->
   determine_outlook_sentiment generate companies call = Ok "Positive") /\
  (forall keywords,
      keyword_count keywords transcript =
      len (filter (fun word => (0 <? occurrences word transcript)%Z)
                  keywords) /\
      (keyword_count keywords transcript <=
       occurrence_count keywords transcript)%Z /\
      (keyword_count keywords transcript <= len keywords)%Z).
Proof.
  intros call transcript p n u Hreply.
  assert (E : determine_outlook_sentiment generate companies call =
              Ok (keyword_fallback p n u)).
  { subst call. unfold determine_outlook_sentiment. cbn [ec_raw_transcript].
    rewrite Hreply. reflexivity. }
  split; [exact E|].
  destruct (keyword_fallback_cases p n u) as (H1 & H2 & H3).
  repeat (split; [assumption|]).
  split.
  - intros -> -> ->. rewrite E. reflexivity.
  - intros keywords. split; [apply keyword_count_found|].
    split; [apply keyword_count_le_occurrences
           |apply keyword_count_le_keywords].
Qed.

Lemma sentiment_keyword_fallback_witness :
  let transcript := lower transcript_5_1_2 in
  accepted_reply (strip EmptyString) = Ok None /\
  keyword_count SENTIMENT_KEYWORDS_positive transcript = 5%Z /\
  keyword_count SENTIMENT_KEYWORDS_negative transcript = 1%Z /\
  keyword_count SENTIMENT_KEYWORDS_neutral transcript = 2%Z /\
  filter (fun word => (0 <? occurrences word transcript)%Z)
         SENTIMENT_KEYWORDS_positive =
  ["confident"; "strong"; "growth"; "progress"; "solid"] /\
  determine_outlook_sentiment (fun _ _ => EmptyString) []
    (mkEarningsCall 1 "ACME" "Q1" 2024 None (Some transcript_5_1_2)) =
  Ok "Positive".
Proof.
  intros transcript.
  split; [reflexivity|].
  split; [vm_compute; reflexivity|].
  split; [vm_compute; reflexivity|].
  split; [vm_compute; reflexivity|].
  split; [vm_compute; reflexivity|].
  destruct (sentiment_keyword_fallback (fun _ _ => EmptyString) [] 1
              "ACME" "Q1" 2024 None transcript_5_1_2 eq_refl)
    as (_ & _ & _ & _ & H & _).
  apply H; vm_compute; reflexivity.
Defined.

(** C5 as stated fails: in this transcript the positive keywords occur
    five times, the negative once and the neutral twice, and without a
    reply of the LLM the result is Neutral, because the one positive
    keyword that occurs is counted once. *)
Lemma sentiment_occurrences_not_counted :
  let transcript := lower transcript_strong_five_times in
  accepted_reply (strip EmptyString) = Ok None /\
  occurrence_count SENTIMENT_KEYWORDS_positive transcript = 5%Z /\
  occurrence_count SENTIMENT_KEYWORDS_negative transcript = 1%Z /\
  occurrence_count SENTIMENT_KEYWORDS_neutral transcript = 2%Z /\
  keyword_count SENTIMENT_KEYWORDS_positive transcript = 1%Z /\
  keyword_count SENTIMENT_KEYWORDS_negative transcript = 1%Z /\
  keyword_count SENTIMENT_KEYWORDS_neutral transcript = 2%Z /\
  determine_outlook_sentiment (fun _ _ => EmptyString) []
    (mkEarningsCall 1 "ACME" "Q1" 2024 None
       (Some transcript_strong_five_times)) =
  Ok "Neutral".
Proof. intros transcript. repeat split; vm_compute; reflexivity. Qed.

(* ------------------------------------------------------------------ *)
(** ** The ranked merge of the partitions *)
(* ------------------------------------------------------------------ *)

Section RankedRows.

Context {vec : Type} (cosine_distance : vec -> vec -> Q).

(** The selected rows are the dictionaries of the stored chunks that
    pass the filters of the queries [search_type] selects. *)
Lemma selected_rows_spec (db : Db vec) (q : vec) (cs : option string)
      (st : string) (thr : Q) (r : SearchResult) :
  In r (selected_rows cosine_distance db q cs st thr) <->
  (search_type_in st ["all"; "transcript"; "summary"] = true /\
   exists c e,
     In c (document_chunks db) /\
     find (fun e => (ec_id e =? dc_earnings_call_id c)%Z)
          (earnings_calls db) = Some e /\
     type_filter st c = true /\
     company_matches cs (ec_company_symbol e) = true /\
     (thr <= similarity cosine_distance (dc_embedding c) q)%Q /\
     r = document_result c e
           (similarity cosine_distance (dc_embedding c) q)) \/
  (search_type_in st ["all"; "news"] = true /\
   exists c n,
     In c (news_chunks db) /\
     find (fun n => (fn_id n =? nc_news_id c)%Z) (financial_news db) =
     Some n /\
     company_matches cs (fn_symbol n) = true /\
     (thr <= similarity cosine_distance (nc_embedding c) q)%Q /\
     r = news_result c n (similarity cosine_distance (nc_embedding c) q)).
Proof.
  unfold selected_rows. rewrite in_app_iff. split.
  - intros [H|H].
    + left.
      destruct (search_type_in st ["all"; "transcript"; "summary"]);
        [|destruct H].
      split; [reflexivity|].
      unfold document_candidates in H. apply in_flat_map in H.
      destruct H as (c & Hc & H).
      destruct (find (fun e => (ec_id e =? dc_earnings_call_id c)%Z)
                     (earnings_calls db)) as [e|] eqn:Ef; [|destruct H].
      cbv zeta in H.
      destruct (type_filter st c) eqn:Ek; [|destruct H].
      destruct (company_matches cs (ec_company_symbol e)) eqn:Ec;
        [|destruct H].
      cbn [andb] in H.
      destruct (Qle_bool thr _) eqn:Et; [|destruct H].
      apply Qle_bool_iff in Et.
      destruct H as [<-|[]]. exists c, e. repeat split; assumption.
    + right.
      destruct (search_type_in st ["all"; "news"]); [|destruct H].
      split; [reflexivity|].
      unfold news_candidates in H. apply in_flat_map in H.
      destruct H as (c & Hc & H).
      destruct (find (fun n => (fn_id n =? nc_news_id c)%Z)
                     (financial_news db)) as [n|] eqn:Ef; [|destruct H].
      cbv zeta in H.
      destruct (company_matches cs (fn_symbol n)) eqn:Ec; [|destruct H].
      cbn [andb] in H.
      destruct (Qle_bool thr _) eqn:Et; [|destruct H].
      apply Qle_bool_iff in Et.
      destruct H as [<-|[]]. exists c, n. repeat split; assumption.
  - intros [(Hs & c & e & Hc & Hf & Hk & Hco & Ht & ->)
           |(Hs & c & n & Hc & Hf & Hco & Ht & ->)].
    + left. rewrite Hs. unfold document_candidates. apply in_flat_map.
      exists c. split; [exact Hc|]. rewrite Hf. cbv zeta.
      apply Qle_bool_iff in Ht. rewrite Hk, Hco, Ht.
      left. reflexivity.
    + right. rewrite Hs. unfold news_candidates. apply in_flat_map.
      exists c. split; [exact Hc|]. rewrite Hf. cbv zeta.
      apply Qle_bool_iff in Ht. rewrite Hco, Ht.
      left. reflexivity.
Qed.

(** Without ties the best rows are determined. *)
Lemma best_rows_unique {A} (key : A -> Q) (k : nat) (C R1 R2 : list A) :
  (forall a b, In a C -> In b C -> (key a == key b)%Q -> a = b) ->
  best_rows key k C R1 -> best_rows key k C R2 -> R1 = R2.
Proof.
  intros Hties H1 H2.
  pose proof (best_rows_keys key k C R1 R2 H1 H2) as HF.
  assert (I1 : forall a, In a R1 -> In a C)
    by (intros a; apply (best_rows_incl key k C R1 a H1)).
  assert (I2 : forall a, In a R2 -> In a C)
    by (intros a; apply (best_rows_incl key k C R2 a H2)).
  clear H1 H2.
  induction HF as [|a b R1 R2 Hab _ IH]; [reflexivity|].
  f_equal.
  - apply Hties; [apply I1; left; reflexivity
                 |apply I2; left; reflexivity|exact Hab].
  - apply IH; intros x Hx; [apply I1|apply I2]; right; exact Hx.
Qed.

End RankedRows.

(** The write path keeps the document chunks in the partitions of the
    specification. *)
Lemma add_earnings_embeddings_partitioned {vec}
      (embedder : option (Embedder vec)) (id : Z) (ct cs : bool)
      (db : Db vec) :
  partitioned db ->
  partitioned (fst (add_earnings_embeddings embedder id ct cs db)).
Proof.
  intros Hp.
  destruct embedder as [encode|]; [|exact Hp].
  destruct (find (fun c => (ec_id c =? id)%Z) (earnings_calls db))
    as [call|] eqn:Hfind.
  - destruct (add_earnings_embeddings_replaces encode id ct cs db call
                Hfind) as (rows & n & E & _ & _ & F & _).
    rewrite E. cbn [fst]. unfold partitioned in *. cbn.
    apply Forall_app. split.
    + apply Forall_forall. intros c Hc. apply filter_In in Hc.
      rewrite Forall_forall in Hp. apply Hp, Hc.
    + eapply Forall_impl; [|exact F].
      intros r [(_ & Ht & _)|(sm & _ & (_ & Ht & _))].
      * left. exact Ht.
      * right. rewrite Ht. unfold summary_chunk_type, like_summary.
        cbn. destruct (sm_summary_type sm); reflexivity.
  - rewrite (add_earnings_embeddings_not_found encode id ct cs db Hfind).
    exact Hp.
Qed.


